(** * terraform-provider-ssh: the connection pool, the permission parser and
      the remote file operations, embedded and verified.

    Sources embedded here:
      - internal/provider/ssh/util.go        (ParsePermissions)
      - internal/provider/ssh/ssh_pool.go    (SSHPool)
      - internal/provider/ssh/ssh_client.go  (SSHClient)

    Go strings are byte sequences; they are [string] here (a list of 8-bit
    [ascii]).  Go's [int], [uint32], [uint64], [time.Duration] and
    [os.FileMode] are [Z], with wrap-around and saturation written out where
    the code relies on them. *)

From Stdlib Require Import ZArith Ascii String List Bool Lia.
From Stdlib Require Import Numbers.DecimalString Numbers.DecimalZ.
From stdpp Require Import gmap strings list fin_maps.

Open Scope Z_scope.

(* ===================================================================== *)
(** ** The parts of the Go runtime library the sources call              *)
(* ===================================================================== *)

Module Go.

(** *** strconv.ParseUint

    The loop of [strconv.ParseUint] for [2 <= base <= 36] and
    [0 < bitSize <= 64] (the only way util.go calls it).  The accumulator
    is a [uint64]. *)

Inductive NumError := ErrSyntax | ErrRange.

Definition maxUint64 : Z := 2 ^ 64 - 1.

Definition byte (c : ascii) : Z := Z.of_nat (nat_of_ascii c).

(** [lower(c) = c | ('x' - 'X')] *)
Definition lower (c : Z) : Z := Z.lor c 32.

(** The value of a digit character, as in the [switch] of the loop. *)
Definition digitVal (c : Z) : option Z :=
  if (48 <=? c) && (c <=? 57) then Some (c - 48)
  else if (97 <=? lower c) && (lower c <=? 122) then Some (lower c - 97 + 10)
  else None.

Fixpoint ParseUint_loop (base maxVal cutoff : Z) (s : string) (n : Z)
  : NumError + Z :=
  match s with
  | EmptyString => inr n
  | String c s' =>
      match digitVal (byte c) with
      | None => inl ErrSyntax
      | Some d =>
          if base <=? d then inl ErrSyntax
          else if cutoff <=? n then inl ErrRange
          else
            let n' := (n * base) mod 2 ^ 64 in
            let n1 := (n' + d) mod 2 ^ 64 in
            if (n1 <? n') || (maxVal <? n1) then inl ErrRange
            else ParseUint_loop base maxVal cutoff s' n1
      end
  end.

Definition ParseUint (s : string) (base bitSize : Z) : NumError + Z :=
  match s with
  | EmptyString => inl ErrSyntax
  | _ =>
      let cutoff := maxUint64 / base + 1 in
      let maxVal := 2 ^ bitSize - 1 in
      ParseUint_loop base maxVal cutoff s 0
  end.

(** *** fmt: the verbs the sources use *)

(** [%d] of an [int]. *)
Definition fmt_d (n : Z) : string := NilEmpty.string_of_int (Z.to_int n).

Definition octDigit (d : Z) : ascii := ascii_of_nat (Z.to_nat (48 + d)).

(** [%o]: fmt's integer formatter for base 8 fills its buffer from the
    right, [buf[i] = '0' + u&7; u >>= 3] while [u >= 8], then the last
    digit.  The digits come out least significant first; 22 digits hold
    any [uint64]. *)
Fixpoint fmtOct_loop (fuel : nat) (u : Z) : list ascii :=
  match fuel with
  | O => []
  | S fuel' =>
      if 8 <=? u then octDigit (Z.land u 7) :: fmtOct_loop fuel' (Z.shiftr u 3)
      else [octDigit u]
  end.

Definition fmt_o_digits (u : Z) : list ascii := rev (fmtOct_loop 22 u).

(** Zero padding on the left up to [width] characters. *)
Definition zeroPad (width : nat) (ds : list ascii) : list ascii :=
  repeat "0"%char (width - length ds) ++ ds.

(** [%04o] *)
Definition fmt_04o (u : Z) : string :=
  string_of_list_ascii (zeroPad 4 (fmt_o_digits u)).

(** *** strings.Contains on byte strings *)

Fixpoint HasPrefix (s pre : string) : bool :=
  match pre, s with
  | EmptyString, _ => true
  | String a pre', String b s' => Ascii.eqb a b && HasPrefix s' pre'
  | String _ _, EmptyString => false
  end.

Fixpoint Contains (s substr : string) : bool :=
  HasPrefix s substr ||
  match s with
  | EmptyString => false
  | String _ s' => Contains s' substr
  end.

(** [strings.Join(elems, "")] *)
Definition Join0 (elems : list string) : string :=
  fold_right String.append EmptyString elems.

(** *** time and os *)

Definition maxDuration : Z := 2 ^ 63 - 1.
Definition minDuration : Z := - 2 ^ 63.

(** [t.Sub(u)]: the difference in nanoseconds, saturated to the range of
    [time.Duration]. *)
Definition time_Sub (t u : Z) : Z :=
  let d := t - u in
  if maxDuration <? d then maxDuration
  else if d <? minDuration then minDuration
  else d.

(** [os.FileMode.Perm]: [m & ModePerm], with [ModePerm = 0777]. *)
Definition ModePerm : Z := 511.
Definition Perm (m : Z) : Z := Z.land m ModePerm.

End Go.

(* ===================================================================== *)
(** ** Package ssh: data                                                 *)
(* ===================================================================== *)

Module SSH.

(** Go's [error] values.  [ErrNotExist] and [LibError] come from the
    libraries (sftp, ssh, os); [Errorf msg] is [fmt.Errorf(msg)] and
    [Errorw msg cause] is [fmt.Errorf(msg + ": %w", cause)]. *)
Inductive error :=
| ErrNotExist
| LibError (msg : string)
| Errorf (msg : string)
| Errorw (msg : string) (cause : error).

(** [os.IsNotExist]: it does not look through [%w]. *)
Definition os_IsNotExist (e : error) : bool :=
  match e with ErrNotExist => true | _ => false end.

(** ssh_client.go, the structs. *)

Record SSHConfig := mkSSHConfig {
  Host : string;
  Port : Z;
  Username : string;
  Password : string;
  PrivateKey : string
}.

(** The two pointers of an [SSHClient] are handles of the connections the
    libraries own; the logger is left out. *)
Record SSHClient := mkSSHClient {
  sshClient : nat;
  SftpClient : nat
}.

Record FileOwnership := mkFileOwnership {
  User : string;
  Group : string
}.

Record FileAttributes := mkFileAttributes {
  Immutable : bool;
  AppendOnly : bool;
  NoDump : bool;
  Synchronous : bool;
  NoAtime : bool;
  Compressed : bool;
  NoCoW : bool;
  Undeletable : bool
}.

(** [os.FileInfo], of which only [Mode()] is read. *)
Record FileInfo := mkFileInfo { fi_Mode : Z }.

(* =================================================================== *)
(** ** util.go                                                         *)
(* =================================================================== *)

(** 0644 *)
Definition defaultPerm : Z := 420.

Definition ParsePermissions (perms : string) : Z :=
  if String.eqb perms "" then defaultPerm
  else
    match Go.ParseUint perms 8 32 with
    | inl _ => defaultPerm
    | inr p => p mod 2 ^ 32
    end.

(* =================================================================== *)
(** ** ssh_pool.go                                                     *)
(* =================================================================== *)

(** [closeOnce] is the [done] flag of the [sync.Once]. *)
Record pooledClient := mkPooledClient {
  client : SSHClient;
  lastUsed : Z;
  inUse : bool;
  closeOnce : bool
}.

(** Every method body runs under [p.mu], so a method is one atomic step
    on the pool; the mutex and the logger are left out.  The map holds
    pointers that nothing else holds, so an update through the pointer is
    an update of the map's value. *)
Record SSHPool := mkSSHPool {
  clients : gmap string pooledClient;
  maxIdle : Z;
  maxConns : Z
}.

Record PoolConfig := mkPoolConfig {
  MaxIdleTime : Z;
  MaxConns : Z
}.

Definition set_clients (m : gmap string pooledClient) (p : SSHPool) : SSHPool :=
  {| clients := m; maxIdle := maxIdle p; maxConns := maxConns p |}.

(** [5 * time.Minute], in nanoseconds. *)
Definition fiveMinutes : Z := 5 * 60 * 1000000000.

Definition NewSSHPool (config : PoolConfig) : SSHPool :=
  {| clients := ∅;
     maxIdle := if MaxIdleTime config =? 0 then fiveMinutes else MaxIdleTime config;
     maxConns := if MaxConns config =? 0 then 10 else MaxConns config |}.

Definition configKey (config : SSHConfig) : string :=
  (Host config ++ ":" ++ Go.fmt_d (Port config) ++ ":" ++ Username config)%string.

(** What the pool and [NewSSHClient] ask of the outside. *)
Inductive AuthMethod :=
| AuthPassword (password : string)
| AuthPublicKeys (signer : string).

Record ClientConfig := mkClientConfig {
  cc_User : string;
  cc_Auth : list AuthMethod
}.

(** [conn_Wait] is the error [Conn.Wait()] returns for a connection, [None]
    for nil.  In golang.org/x/crypto/ssh the call returns only once the
    connection has shut down, with the error that caused the shutdown, so
    never nil ([Spec.waitAsLibrary]); until then it blocks.  How long a
    call takes is no part of the embedding: a function here gives the
    result of the call once it has returned. *)
Record Env := mkEnv {
  now : Z;                                             (* time.Now() *)
  conn_Wait : nat -> option error;                     (* Conn.Wait() *)
  ssh_ParsePrivateKey : string -> error + string;
  net_ParseIP_To16 : string -> bool;                   (* ParseIP(h).To16() != nil *)
  ssh_Dial : string -> ClientConfig -> error + nat;    (* ssh.Dial("tcp", ...) *)
  sftp_NewClient : nat -> error + nat
}.

(** The calls that reach the outside, in the order they are made.
    [EvWait conn] is the call [Conn.Wait()] on [conn]. *)
Inductive PoolEvent :=
| EvWait (conn : nat)
| EvDial (addr : string) (cfg : ClientConfig)
| EvSftpNewClient (conn : nat)
| EvConnClose (conn : nat)
| EvClientClose (c : SSHClient).

Definition isDial (e : PoolEvent) : bool :=
  match e with EvDial _ _ => true | _ => false end.

Definition isWait (e : PoolEvent) : bool :=
  match e with EvWait _ => true | _ => false end.

(** ssh_client.go, NewSSHClient. *)
Definition NewSSHClient (env : Env) (config : SSHConfig)
  : (error + SSHClient) * list PoolEvent :=
  let authMethods :=
    if String.eqb (Password config) "" then []
    else [AuthPassword (Password config)] in
  let withKey : error + list AuthMethod :=
    if String.eqb (PrivateKey config) "" then inr authMethods
    else
      match ssh_ParsePrivateKey env (PrivateKey config) with
      | inl err => inl (Errorw "failed to parse private key" err)
      | inr signer => inr (authMethods ++ [AuthPublicKeys signer])
      end in
  match withKey with
  | inl err => (inl err, [])
  | inr authMethods =>
      if (length authMethods =? 0)%nat
      then (inl (Errorf "no authentication method provided"), [])
      else
        let sshConfig := {| cc_User := Username config; cc_Auth := authMethods |} in
        let host :=
          if net_ParseIP_To16 env (Host config)
          then ("[" ++ Host config ++ "]")%string else Host config in
        let host := (host ++ ":" ++ Go.fmt_d (Port config))%string in
        match ssh_Dial env host sshConfig with
        | inl err =>
            (inl (Errorw "failed to connect to SSH server" err),
             [EvDial host sshConfig])
        | inr conn =>
            match sftp_NewClient env conn with
            | inl err =>
                (inl (Errorw "failed to create SFTP client" err),
                 [EvDial host sshConfig; EvSftpNewClient conn; EvConnClose conn])
            | inr sftp =>
                (inr {| sshClient := conn; SftpClient := sftp |},
                 [EvDial host sshConfig; EvSftpNewClient conn])
            end
        end
  end.

Definition atCapacityError (p : SSHPool) : error :=
  Errorf ("connection pool is at capacity (max " ++ Go.fmt_d (maxConns p)
          ++ " connections)")%string.

(** GetClient from the capacity check on (ssh_pool.go, lines 83-100). *)
Definition GetClient_create (env : Env) (config : SSHConfig) (key : string)
    (p : SSHPool) : SSHPool * (error + SSHClient) * list PoolEvent :=
  if maxConns p <=? Z.of_nat (size (clients p))
  then (p, inl (atCapacityError p), [])
  else
    match NewSSHClient env config with
    | (inl err, evs) => (p, inl err, evs)
    | (inr c, evs) =>
        (set_clients
           (<[key := {| client := c; lastUsed := now env;
                        inUse := true; closeOnce := false |}]> (clients p)) p,
         inr c, evs)
    end.

Definition GetClient (env : Env) (config : SSHConfig) (p : SSHPool)
  : SSHPool * (error + SSHClient) * list PoolEvent :=
  let key := configKey config in
  match clients p !! key with
  | Some pc =>
      if negb (inUse pc) then
        match conn_Wait env (sshClient (client pc)) with
        | None =>
            (set_clients
               (<[key := {| client := client pc; lastUsed := now env;
                            inUse := true; closeOnce := closeOnce pc |}]>
                  (clients p)) p,
             inr (client pc),
             [EvWait (sshClient (client pc))])
        | Some _ =>
            let '(p', r, evs) :=
              GetClient_create env config key
                (set_clients (delete key (clients p)) p) in
            (p', r, EvWait (sshClient (client pc)) :: evs)
        end
      else GetClient_create env config key p
  | None => GetClient_create env config key p
  end.

Definition ReleaseClient (tnow : Z) (config : SSHConfig) (p : SSHPool) : SSHPool :=
  let key := configKey config in
  match clients p !! key with
  | Some pc =>
      set_clients
        (<[key := {| client := client pc; lastUsed := tnow;
                     inUse := false; closeOnce := closeOnce pc |}]>
           (clients p)) p
  | None => p
  end.

(** [pc.closeOnce.Do(func() { pc.client.Close() })]: the entry afterwards
    and the calls made. *)
Definition closeOnce_Do (pc : pooledClient) : pooledClient * list PoolEvent :=
  if closeOnce pc then (pc, [])
  else ({| client := client pc; lastUsed := lastUsed pc;
           inUse := inUse pc; closeOnce := true |},
        [EvClientClose (client pc)]).

(** The condition of the sweep. *)
Definition idleExpired (tnow : Z) (maxIdle : Z) (pc : pooledClient) : bool :=
  negb (inUse pc) && (maxIdle <? Go.time_Sub tnow (lastUsed pc)).

(** [for key, pc := range p.clients] visits the entries the map holds in
    an order the runtime chooses. *)
Definition RangeOrder : Type :=
  gmap string pooledClient -> list (string * pooledClient).

Definition cleanup_step (tnow mi : Z)
    (acc : gmap string pooledClient * list PoolEvent)
    (kv : string * pooledClient)
  : gmap string pooledClient * list PoolEvent :=
  if idleExpired tnow mi kv.2
  then (delete kv.1 acc.1, acc.2 ++ (closeOnce_Do kv.2).2)
  else acc.

(** One tick of [cleanup]: the body of [for range ticker.C].  Only the
    entry at hand is ever deleted, so the range runs over the entries the
    map had when the tick began. *)
Definition cleanup_tick (order : RangeOrder) (tnow : Z) (p : SSHPool)
  : SSHPool * list PoolEvent :=
  let r := fold_left (cleanup_step tnow (maxIdle p)) (order (clients p))
             (clients p, []) in
  (set_clients r.1 p, r.2).

(** [cleanup], for the ticks that have fired so far. *)
Fixpoint cleanup (order : RangeOrder) (ticks : list Z) (p : SSHPool)
  : SSHPool * list PoolEvent :=
  match ticks with
  | [] => (p, [])
  | t :: ticks' =>
      let '(p1, evs1) := cleanup_tick order t p in
      let '(p2, evs2) := cleanup order ticks' p1 in
      (p2, evs1 ++ evs2)
  end.

Definition Close_step (acc : gmap string pooledClient * list PoolEvent)
    (kv : string * pooledClient)
  : gmap string pooledClient * list PoolEvent :=
  (delete kv.1 acc.1, acc.2 ++ (closeOnce_Do kv.2).2).

Definition Close (order : RangeOrder) (p : SSHPool) : SSHPool * list PoolEvent :=
  let r := fold_left Close_step (order (clients p)) (clients p, []) in
  (set_clients r.1 p, r.2).

(* =================================================================== *)
(** ** ssh_client.go                                                   *)
(* =================================================================== *)

(** The string functions of the Go library whose results depend on
    Unicode tables: the verb [%q], [strings.Fields], [strings.TrimSpace]. *)
Class GoStrings := {
  Quote : string -> string;
  Fields : string -> list string;
  TrimSpace : string -> string
}.

(** The remote host behind an established connection, as the ssh and
    sftp libraries expose it to ssh_client.go.  [W] is the state of the
    host and of the connection.  A Stat reads the host and leaves it as it
    is; what other clients of the host do between two requests is not part
    of [W], so that a request finds the host as the one before left it. *)
Class RemoteHost (W : Type) := {
  ssh_NewSession : W -> W * option error;
  session_Output : string -> W -> W * (error + string);
  session_Run : string -> W -> W * option error;
  sftp_Stat : string -> W -> error + FileInfo;
  sftp_MkdirAll : string -> W -> W * option error;
  sftp_Chmod : string -> Z -> W -> W * option error
}.

(** The calls made on the connection, in order.  The deferred
    [session.Close()] and [file.Close()] calls are not recorded. *)
Inductive Event :=
| EvNewSession
| EvOutput (cmd : string)
| EvRun (cmd : string)
| EvStat (path : string)
| EvMkdirAll (path : string)
| EvChmod (path : string) (mode : Z).

Definition isRun (e : Event) : bool :=
  match e with EvRun _ => true | _ => false end.

Definition isCommand (e : Event) : bool :=
  match e with EvRun _ | EvOutput _ => true | _ => false end.

Section Client.
Context {W : Type} `{RemoteHost W} `{GoStrings}.

(** A method of [SSHClient] runs against the host and appends to the
    log of calls; it ends with an error or a value. *)
Definition St : Type := W * list Event.
Definition M (A : Type) : Type := St -> St * (error + A).

Definition ret {A} (a : A) : M A := fun st => (st, inr a).
Definition fail {A} (e : error) : M A := fun st => (st, inl e).
Definition bind {A B} (c : M A) (k : A -> M B) : M B :=
  fun st =>
    match c st with
    | (st', inl e) => (st', inl e)
    | (st', inr a) => k a st'
    end.

(** [if err != nil { return fmt.Errorf(msg + ": %w", err) }] *)
Definition wrap {A} (msg : string) (c : M A) : M A :=
  fun st =>
    match c st with
    | (st', inl e) => (st', inl (Errorw msg e))
    | r => r
    end.

Definition ofOpt (r : option error) : error + unit :=
  match r with Some e => inl e | None => inr tt end.

Definition NewSession : M unit :=
  fun st => let '(w, r) := ssh_NewSession st.1 in
            ((w, st.2 ++ [EvNewSession]), ofOpt r).
Definition Output (cmd : string) : M string :=
  fun st => let '(w, r) := session_Output cmd st.1 in
            ((w, st.2 ++ [EvOutput cmd]), r).
Definition Run (cmd : string) : M unit :=
  fun st => let '(w, r) := session_Run cmd st.1 in
            ((w, st.2 ++ [EvRun cmd]), ofOpt r).
Definition Stat (path : string) : M FileInfo :=
  fun st => ((st.1, st.2 ++ [EvStat path]), sftp_Stat path st.1).
Definition MkdirAll (path : string) : M unit :=
  fun st => let '(w, r) := sftp_MkdirAll path st.1 in
            ((w, st.2 ++ [EvMkdirAll path]), ofOpt r).
Definition Chmod (path : string) (mode : Z) : M unit :=
  fun st => let '(w, r) := sftp_Chmod path mode st.1 in
            ((w, st.2 ++ [EvChmod path mode]), ofOpt r).

Notation "x <-- c ;; k" := (bind c (fun x => k))
  (at level 100, c at next level, right associativity).

(** Exists never fails on "not found". *)
Definition Exists (path : string) : M bool :=
  fun st =>
    match Stat path st with
    | (st', inl err) =>
        if os_IsNotExist err then (st', inr false)
        else (st', inl (Errorw "failed to check existence" err))
    | (st', inr _) => (st', inr true)
    end.

(** [exists, _ := c.Exists(ctx, path)]: the error is dropped and
    [exists] is [false] with it. *)
Definition Exists_ (path : string) : M bool :=
  fun st =>
    match Exists path st with
    | (st', inl _) => (st', inr false)
    | r => r
    end.

Definition CreateDirectory (path : string) (permissions : Z) : M unit :=
  ex <-- Exists_ path ;;
  if ex : bool then fail (Errorf ("directory " ++ path ++ " already exists")%string)
  else
    _ <-- wrap "failed to create directory" (MkdirAll path) ;;
    _ <-- wrap "failed to set directory permissions" (Chmod path permissions) ;;
    ret tt.

Definition GetFileMode (path : string) : M Z :=
  info <-- wrap "failed to get file mode" (Stat path) ;;
  ret (Go.Perm (fi_Mode info)).

Definition GetFileOwnership (path : string) : M FileOwnership :=
  _ <-- wrap "failed to create SSH session" NewSession ;;
  output <-- wrap "failed to get file ownership"
               (Output ("ls -ldn " ++ Quote path)%string) ;;
  let fields := Fields output in
  if (length fields <? 4)%nat
  then fail (Errorf ("invalid ls output format: " ++ output)%string)
  else
    let uid := nth 2 fields ""%string in
    let gid := nth 3 fields ""%string in
    _ <-- wrap "failed to create SSH session" NewSession ;;
    userName <-- wrap "failed to get username"
                   (Output ("getent passwd " ++ uid ++ " | cut -d: -f1")%string) ;;
    _ <-- wrap "failed to create SSH session" NewSession ;;
    groupName <-- wrap "failed to get group name"
                    (Output ("getent group " ++ gid ++ " | cut -d: -f1")%string) ;;
    ret {| User := TrimSpace userName; Group := TrimSpace groupName |}.

Definition chownCmd (user group path : string) : string :=
  ("chown " ++ user ++ ":" ++ group ++ " " ++ Quote path)%string.

Definition nonEmpty (s : string) : bool := negb (String.eqb s "").

(** [ownership] is a pointer: [None] is [nil]. *)
Definition SetFileOwnership (path : string) (ownership : option FileOwnership)
  : M unit :=
  match ownership with
  | None => ret tt
  | Some ownership =>
      if negb (nonEmpty (User ownership)) && negb (nonEmpty (Group ownership))
      then ret tt
      else
        _ <-- wrap "failed to create SSH session" NewSession ;;
        (* the [switch]; [None] is the [default: return nil] *)
        cmd <-- (if nonEmpty (User ownership) && nonEmpty (Group ownership)
                 then ret (Some (chownCmd (User ownership) (Group ownership) path))
                 else if nonEmpty (User ownership)
                 then
                   currentOwnership <-- wrap "failed to get current ownership"
                                          (GetFileOwnership path) ;;
                   ret (Some (chownCmd (User ownership) (Group currentOwnership) path))
                 else if nonEmpty (Group ownership)
                 then
                   currentOwnership <-- wrap "failed to get current ownership"
                                          (GetFileOwnership path) ;;
                   ret (Some (chownCmd (User currentOwnership) (Group ownership) path))
                 else ret None) ;;
        match cmd with
        | None => ret tt
        | Some cmd =>
            _ <-- wrap "failed to set file ownership" (Run cmd) ;;
            ret tt
        end
  end.

Definition noAttributes : FileAttributes :=
  {| Immutable := false; AppendOnly := false; NoDump := false;
     Synchronous := false; NoAtime := false; Compressed := false;
     NoCoW := false; Undeletable := false |}.

(** The parse of the output of [lsattr -d]. *)
Definition parseAttributes (output : string) : FileAttributes :=
  if (16 <=? String.length output)%nat then
    let attrString := substring 0 16 output in
    {| Immutable := Go.Contains attrString "i";
       AppendOnly := Go.Contains attrString "a";
       NoDump := Go.Contains attrString "d";
       Synchronous := Go.Contains attrString "S";
       NoAtime := Go.Contains attrString "A";
       Compressed := Go.Contains attrString "c";
       NoCoW := Go.Contains attrString "C";
       Undeletable := Go.Contains attrString "u" |}
  else noAttributes.

Definition GetFileAttributes (path : string) : M FileAttributes :=
  _ <-- wrap "failed to create SSH session" NewSession ;;
  output <-- wrap "failed to get file attributes"
               (Output ("lsattr -d " ++ Quote path)%string) ;;
  ret (parseAttributes output).

(** [attrFlags]: each flag with the value its pointer reads. *)
Definition attrFlags (attrs : FileAttributes) : list (string * bool) :=
  [("i", Immutable attrs); ("a", AppendOnly attrs); ("d", NoDump attrs);
   ("S", Synchronous attrs); ("A", NoAtime attrs); ("c", Compressed attrs);
   ("C", NoCoW attrs); ("u", Undeletable attrs)]%string.

(** [currentAttrMap]; a key that is absent reads [false]. *)
Definition currentAttrMap (cur : FileAttributes) : gmap string bool :=
  list_to_map (attrFlags cur).

Definition mapRead (m : gmap string bool) (k : string) : bool :=
  default false (m !! k).

(** The loop that fills [addAttrs] and [removeAttrs]. *)
Definition diffAttrs (attrs cur : FileAttributes) : list string * list string :=
  fold_left
    (fun (acc : list string * list string) (attr : string * bool) =>
       if attr.2 && negb (mapRead (currentAttrMap cur) attr.1)
       then (acc.1 ++ [attr.1], acc.2)
       else if negb attr.2 && mapRead (currentAttrMap cur) attr.1
       then (acc.1, acc.2 ++ [attr.1])
       else acc)
    (attrFlags attrs) ([], []).

Definition chattrCmd (sign : string) (flags : list string) (path : string) : string :=
  ("chattr " ++ sign ++ Go.Join0 flags ++ " " ++ Quote path)%string.

Definition SetFileAttributes (path : string) (attrs : option FileAttributes)
  : M unit :=
  match attrs with
  | None => ret tt
  | Some attrs =>
      currentAttrs <-- GetFileAttributes path ;;
      let '(addAttrs, removeAttrs) := diffAttrs attrs currentAttrs in
      _ <-- (if (0 <? length addAttrs)%nat then
               _ <-- wrap "failed to create SSH session" NewSession ;;
               wrap "failed to add file attributes"
                 (Run (chattrCmd "+" addAttrs path))
             else ret tt) ;;
      _ <-- (if (0 <? length removeAttrs)%nat then
               _ <-- wrap "failed to create SSH session" NewSession ;;
               wrap "failed to remove file attributes"
                 (Run (chattrCmd "-" removeAttrs path))
             else ret tt) ;;
      ret tt
  end.

End Client.

End SSH.

(* ===================================================================== *)
(** ** What the specification speaks of                                  *)
(* ===================================================================== *)

Module Spec.

(** An octal string: one or more of the characters '0' to '7'. *)
Definition isOctDigit (c : ascii) : bool :=
  (48 <=? Go.byte c) && (Go.byte c <=? 55).

Definition validOctal (s : string) : bool :=
  negb (String.eqb s "") && forallb isOctDigit (list_ascii_of_string s).

(** The number a string of octal digits denotes, read from accumulator
    [acc] on. *)
Definition octalFrom (acc : Z) (ds : list ascii) : Z :=
  fold_left (fun a c => 8 * a + (Go.byte c - 48)) ds acc.

Definition octalValue (s : string) : Z := octalFrom 0 (list_ascii_of_string s).

(** The canonical form of an octal string is the one the provider writes
    back with [%04o]: no leading zeros beyond a width of four. *)
Fixpoint stripZeros (ds : list ascii) : list ascii :=
  match ds with
  | c :: ds' => if Ascii.eqb c "0" then stripZeros ds' else ds
  | [] => []
  end.

Definition noLeadingZero (ds : list ascii) : Prop :=
  match ds with
  | c :: _ => Ascii.eqb c "0" = false
  | [] => False
  end.

Definition canonical (s : string) : string :=
  string_of_list_ascii (Go.zeroPad 4 (stripZeros (list_ascii_of_string s))).


(** *** The pool *)

(** The string has no ':' in it. *)
Definition noColon (s : string) : Prop :=
  ~ In ":"%char (list_ascii_of_string s).

(** The range order is some enumeration of the map. *)
Definition validOrder (order : SSH.RangeOrder) : Prop :=
  forall m, order m ≡ₚ map_to_list m.

(** What ssh.Conn documents for Wait: it blocks until the connection has
    shut down, and returns the error causing the shutdown.  So the error
    it returns is never nil. *)
Definition waitAsLibrary (env : SSH.Env) : Prop :=
  forall conn, SSH.conn_Wait env conn <> None.

(** The entry of [key] can be handed out again: it is there, it is not in
    use and its connection answers the liveness check. *)
Definition reusable (env : SSH.Env) (p : SSH.SSHPool) (key : string) : bool :=
  match SSH.clients p !! key with
  | Some pc =>
      negb (SSH.inUse pc) &&
      match SSH.conn_Wait env (SSH.sshClient (SSH.client pc)) with
      | None => true
      | Some _ => false
      end
  | None => false
  end.

(** The mapping as the capacity check sees it when the entry of [key] is
    not reusable: an entry that is not in use was found dead and has just
    been removed. *)
Definition afterReuseCheck (p : SSH.SSHPool) (key : string)
  : gmap string SSH.pooledClient :=
  match SSH.clients p !! key with
  | Some pc => if SSH.inUse pc then SSH.clients p else delete key (SSH.clients p)
  | None => SSH.clients p
  end.

(** The liveness checks made on the way there. *)
Definition reuseChecks (p : SSH.SSHPool) (key : string) : list SSH.PoolEvent :=
  match SSH.clients p !! key with
  | Some pc =>
      if SSH.inUse pc then []
      else [SSH.EvWait (SSH.sshClient (SSH.client pc))]
  | None => []
  end.

(** What holds of every pool built by [NewSSHPool] and driven through
    its methods: no stored entry has fired its close guard, and the
    mapping is empty or within capacity. *)
Definition poolOK (p : SSH.SSHPool) : Prop :=
  (forall k pc, SSH.clients p !! k = Some pc -> SSH.closeOnce pc = false)
  /\ (size (SSH.clients p) = 0%nat
      \/ Z.of_nat (size (SSH.clients p)) <= SSH.maxConns p).

(** The entry [GetClient] stores for a session it has just opened. *)
Definition freshEntry (env : SSH.Env) (c : SSH.SSHClient) : SSH.pooledClient :=
  {| SSH.client := c; SSH.lastUsed := SSH.now env;
     SSH.inUse := true; SSH.closeOnce := false |}.

(** An entry handed out, or handed back, at time [t]. *)
Definition touched (t : Z) (use : bool) (pc : SSH.pooledClient) : SSH.pooledClient :=
  {| SSH.client := SSH.client pc; SSH.lastUsed := t;
     SSH.inUse := use; SSH.closeOnce := SSH.closeOnce pc |}.

(** The entries a sweep at [tnow] reaps, those it keeps, and the
    teardowns it makes for the entries it visits. *)
Definition expiredAt (tnow : Z) (p : SSH.SSHPool) (pc : SSH.pooledClient) : Prop :=
  SSH.inUse pc = false /\ SSH.maxIdle p < Go.time_Sub tnow (SSH.lastUsed pc).



(** *** The remote operations *)

(** What ssh_client.go relies on from the sftp server: a Chmod that
    succeeds leaves the path in place with the permission bits asked
    for. *)
Class SftpServer (W : Type) `{SSH.RemoteHost W} : Prop := {
  Chmod_then_Stat : forall path mode (w w' : W),
    SSH.sftp_Chmod path mode w = (w', None) ->
    exists fi, SSH.sftp_Stat path w' = inr fi
               /\ Go.Perm (SSH.fi_Mode fi) = Go.Perm mode
}.

(** The commands run for their effect ([session.Run]), in order. *)
Definition runCmds (evs : list SSH.Event) : list string :=
  omap (fun e => match e with SSH.EvRun cmd => Some cmd | _ => None end) evs.

(** The current value of a flag, by its letter. *)
Definition currentFlag (cur : SSH.FileAttributes) (flag : string) : bool :=
  if String.eqb flag "i" then SSH.Immutable cur
  else if String.eqb flag "a" then SSH.AppendOnly cur
  else if String.eqb flag "d" then SSH.NoDump cur
  else if String.eqb flag "S" then SSH.Synchronous cur
  else if String.eqb flag "A" then SSH.NoAtime cur
  else if String.eqb flag "c" then SSH.Compressed cur
  else if String.eqb flag "C" then SSH.NoCoW cur
  else if String.eqb flag "u" then SSH.Undeletable cur
  else false.

(** The flags to add: desired true, currently false. *)
Definition addSet (attrs cur : SSH.FileAttributes) : list string :=
  map fst (List.filter (fun a : string * bool => a.2 && negb (currentFlag cur a.1))
             (SSH.attrFlags attrs)).

(** The flags to remove: desired false, currently true. *)
Definition removeSet (attrs cur : SSH.FileAttributes) : list string :=
  map fst (List.filter (fun a : string * bool => negb a.2 && currentFlag cur a.1)
             (SSH.attrFlags attrs)).


(** The first [n] bytes of a string. *)
Definition firstBytes (n : nat) (s : string) : list ascii :=
  firstn n (list_ascii_of_string s).

End Spec.

(* ===================================================================== *)
(** ** Small concrete environments, to run the definitions on            *)
(* ===================================================================== *)

Module Toy.
Import SSH.

(** Wait returns nil for every connection, the answer the reuse branch of
    GetClient is written for; every dial answers with connection 7. *)
Definition env : Env :=
  {| now := 1000;
     conn_Wait := fun _ => None;
     ssh_ParsePrivateKey := fun k => inr k;
     net_ParseIP_To16 := fun _ => false;
     ssh_Dial := fun _ _ => inr 7%nat;
     sftp_NewClient := fun c => inr (S c) |}.

(** The same, with Wait as the ssh library has it: every pooled connection
    has shut down, and Wait returns the error of the shutdown. *)
Definition envDead : Env :=
  {| now := 1000;
     conn_Wait := fun _ => Some (LibError "EOF");
     ssh_ParsePrivateKey := fun k => inr k;
     net_ParseIP_To16 := fun _ => false;
     ssh_Dial := fun _ _ => inr 7%nat;
     sftp_NewClient := fun c => inr (S c) |}.

Definition config : SSHConfig :=
  {| Host := "localhost"; Port := 2222; Username := "testuser";
     Password := "testpass"; PrivateKey := "" |}.

(** A configuration that carries no credential. *)
Definition configNoAuth : SSHConfig :=
  {| Host := "localhost"; Port := 2222; Username := "testuser";
     Password := ""; PrivateKey := "" |}.

Definition otherConfig : SSHConfig :=
  {| Host := "example.org"; Port := 22; Username := "root";
     Password := "secret"; PrivateKey := "" |}.

Definition idleEntry : pooledClient :=
  {| client := {| sshClient := 3; SftpClient := 4 |};
     lastUsed := 10; inUse := false; closeOnce := false |}.

Definition busyEntry : pooledClient :=
  {| client := {| sshClient := 3; SftpClient := 4 |};
     lastUsed := 10; inUse := true; closeOnce := false |}.

Definition emptyPool : SSHPool :=
  NewSSHPool {| MaxIdleTime := 0; MaxConns := 0 |}.

Definition poolWith (pc : pooledClient) (cap : Z) : SSHPool :=
  {| clients := {[ configKey config := pc ]}; maxIdle := 500; maxConns := cap |}.

(** Two configurations for different endpoints. *)
Definition configA : SSHConfig :=
  {| Host := "1::2"; Port := 3; Username := "4:u";
     Password := "pw"; PrivateKey := "" |}.
Definition configB : SSHConfig :=
  {| Host := "1::2:3"; Port := 4; Username := "u";
     Password := "pw"; PrivateKey := "" |}.


(** *** A remote host to run the client on *)

Definition dquote : string := String (ascii_of_nat 34) EmptyString.
Definition nl : string := String (ascii_of_nat 10) EmptyString.

Definition isSpace (c : ascii) : bool :=
  (Go.byte c =? 32) || ((9 <=? Go.byte c) && (Go.byte c <=? 13)).

Fixpoint splitWords (cs : list ascii) (word : list ascii) : list string :=
  match cs with
  | [] =>
      match word with
      | [] => []
      | _ => [string_of_list_ascii (rev word)]
      end
  | c :: cs' =>
      if isSpace c then
        match word with
        | [] => splitWords cs' []
        | _ => string_of_list_ascii (rev word) :: splitWords cs' []
        end
      else splitWords cs' (c :: word)
  end.

Fixpoint dropSpaces (cs : list ascii) : list ascii :=
  match cs with
  | c :: cs' => if isSpace c then dropSpaces cs' else cs
  | [] => []
  end.

(** Quoting, splitting and trimming for plain ASCII text. *)
#[global] Instance asciiStrings : GoStrings :=
  {| Quote := fun s => (dquote ++ s ++ dquote)%string;
     Fields := fun s => splitWords (list_ascii_of_string s) [];
     TrimSpace := fun s =>
       string_of_list_ascii
         (rev (dropSpaces (rev (dropSpaces (list_ascii_of_string s))))) |}.

(** A host with a table of files (is-directory, permission bits) and a
    table of what its commands print; a command that is not in the table
    fails. *)
Record World := mkWorld {
  files : gmap string (bool * Z);
  prints : gmap string string
}.

(** [os.ModeDir] *)
Definition ModeDir : Z := 2 ^ 31.

Definition modeOf (f : bool * Z) : Z := (if f.1 then ModeDir else 0) + f.2.

#[global] Instance host : RemoteHost World :=
  {| ssh_NewSession := fun w => (w, None);
     session_Output := fun cmd w =>
       (w, match prints w !! cmd with
           | Some out => inr out
           | None => inl (LibError "Process exited with status 1")
           end);
     session_Run := fun cmd w => (w, None);
     sftp_Stat := fun path w =>
       match files w !! path with
       | Some f => inr {| fi_Mode := modeOf f |}
       | None => inl ErrNotExist
       end;
     sftp_MkdirAll := fun path w =>
       match files w !! path with
       | Some _ => (w, None)
       | None => ({| files := <[path := (true, 493)]> (files w);
                     prints := prints w |}, None)
       end;
     sftp_Chmod := fun path mode w =>
       match files w !! path with
       | Some f => ({| files := <[path := (f.1, mode mod 512)]> (files w);
                       prints := prints w |}, None)
       | None => (w, Some ErrNotExist)
       end |}.

Definition motd : string := "/etc/motd".

Definition world : World :=
  {| files := {[ motd := (false, 420) ]};
     prints :=
       {[ ("ls -ldn " ++ dquote ++ motd ++ dquote)%string :=
            ("-rw-r--r-- 1 1000 50 0 Feb 19 13:23 /etc/motd" ++ nl)%string;
          "getent passwd 1000 | cut -d: -f1"%string := ("bob" ++ nl)%string;
          "getent group 50 | cut -d: -f1"%string := ("staff" ++ nl)%string;
          ("lsattr -d " ++ dquote ++ motd ++ dquote)%string :=
            ("----i-A--------------- /etc/motd" ++ nl)%string;
          ("lsattr -d " ++ dquote ++ "/d" ++ dquote)%string :=
            ("--- /d" ++ nl)%string ]} |}.

Definition start : St (W := World) := (world, []).

Definition immutableOnly : FileAttributes :=
  {| Immutable := true; AppendOnly := false; NoDump := false;
     Synchronous := false; NoAtime := false; Compressed := false;
     NoCoW := false; Undeletable := false |}.

Definition motdAttributes : FileAttributes :=
  {| Immutable := true; AppendOnly := false; NoDump := false;
     Synchronous := false; NoAtime := true; Compressed := false;
     NoCoW := false; Undeletable := false |}.

End Toy.

(* ===================================================================== *)
(** ** Driving the pool through its methods                              *)
(* ===================================================================== *)

Module Usage.
Import SSH.

(** One call on the pool, with what the outside answers during it. *)
Inductive PoolOp :=
| OpGetClient (env : Env) (config : SSHConfig)
| OpReleaseClient (tnow : Z) (config : SSHConfig)
| OpCleanupTick (tnow : Z)
| OpClose.

Definition stepOp (order : RangeOrder) (p : SSHPool) (op : PoolOp) : SSHPool :=
  match op with
  | OpGetClient env config => (GetClient env config p).1.1
  | OpReleaseClient tnow config => ReleaseClient tnow config p
  | OpCleanupTick tnow => (cleanup_tick order tnow p).1
  | OpClose => (Close order p).1
  end.

(** The pool after a sequence of calls; the lock makes them sequential. *)
Definition runOps (order : RangeOrder) (ops : list PoolOp) (p : SSHPool) : SSHPool :=
  fold_left (stepOp order) ops p.

(** The teardown calls in a log. *)
Definition isClientClose (e : PoolEvent) : bool :=
  match e with EvClientClose _ => true | _ => false end.

(** The calls Close makes for the entries it visits. *)
Definition closesOf (visited : list (string * pooledClient)) : list PoolEvent :=
  flat_map (fun kv => if closeOnce kv.2 then [] else [EvClientClose (client kv.2)])
    visited.

End Usage.

(* ===================================================================== *)
(** ** ssh_client.go: the file operations and Close                      *)
(* ===================================================================== *)

Module Files.
Import SSH.

(** What the remaining methods of [SSHClient] ask of the sftp client and of
    the connection.  A [*sftp.File] is named by the path it was opened
    with. *)
Class SftpFiles (W : Type) := {
  sftp_Create : string -> W -> W * option error;
  file_Write : string -> string -> W -> W * option error;
  sftp_Open : string -> W -> W * option error;
  io_ReadAll : string -> W -> W * (error + string);
  sftp_Remove : string -> W -> W * option error;
  sftp_RemoveAll : string -> W -> W * option error;
  sftpClient_Close : W -> W * option error;
  sshClient_Close : W -> W * option error
}.

(** [filepath.Dir] *)
Class GoPath := { filepath_Dir : string -> string }.

(** The calls of these methods, with those of the methods above wrapped
    in [EvBase].  Deferred [file.Close()] calls are not recorded. *)
Inductive FileEvent :=
| EvBase (e : Event)
| EvCreate (path : string)
| EvWrite (path content : string)
| EvOpen (path : string)
| EvReadAll (path : string)
| EvRemove (path : string)
| EvRemoveAll (path : string)
| EvSftpClose
| EvSshClose.

Definition isRemoval (e : FileEvent) : bool :=
  match e with EvRemove _ | EvRemoveAll _ => true | _ => false end.

Section FileOps.
Context {W : Type} `{RemoteHost W} `{SftpFiles W} `{GoPath}.

Definition FSt : Type := W * list FileEvent.
Definition FM (A : Type) : Type := FSt -> FSt * (error + A).

Definition fret {A} (a : A) : FM A := fun st => (st, inr a).
Definition fbind {A B} (c : FM A) (k : A -> FM B) : FM B :=
  fun st =>
    match c st with
    | (st', inl e) => (st', inl e)
    | (st', inr a) => k a st'
    end.
Definition fwrap {A} (msg : string) (c : FM A) : FM A :=
  fun st =>
    match c st with
    | (st', inl e) => (st', inl (Errorw msg e))
    | r => r
    end.

(** A method of the first group, run from here. *)
Definition lift {A} (c : M A) : FM A :=
  fun st =>
    let '((w, evs), r) := c (st.1, []) in
    ((w, st.2 ++ map EvBase evs), r).

Definition Create (path : string) : FM unit :=
  fun st => let '(w, r) := sftp_Create path st.1 in
            ((w, st.2 ++ [EvCreate path]), ofOpt r).
Definition Write (path content : string) : FM unit :=
  fun st => let '(w, r) := file_Write path content st.1 in
            ((w, st.2 ++ [EvWrite path content]), ofOpt r).
Definition Open (path : string) : FM unit :=
  fun st => let '(w, r) := sftp_Open path st.1 in
            ((w, st.2 ++ [EvOpen path]), ofOpt r).
Definition ReadAll (path : string) : FM string :=
  fun st => let '(w, r) := io_ReadAll path st.1 in
            ((w, st.2 ++ [EvReadAll path]), r).
Definition Remove (path : string) : FM unit :=
  fun st => let '(w, r) := sftp_Remove path st.1 in
            ((w, st.2 ++ [EvRemove path]), ofOpt r).
Definition RemoveAll (path : string) : FM unit :=
  fun st => let '(w, r) := sftp_RemoveAll path st.1 in
            ((w, st.2 ++ [EvRemoveAll path]), ofOpt r).
Definition SftpClose : FM unit :=
  fun st => let '(w, r) := sftpClient_Close st.1 in
            ((w, st.2 ++ [EvSftpClose]), ofOpt r).
Definition SshClose : FM unit :=
  fun st => let '(w, r) := sshClient_Close st.1 in
            ((w, st.2 ++ [EvSshClose]), ofOpt r).

Notation "x <-- c ;; k" := (fbind c (fun x => k))
  (at level 100, c at next level, right associativity).

(** [SSHClient.Close]; the arguments say which of the two pointers are
    not nil. *)
Definition Close (hasSftp hasSsh : bool) : FM unit :=
  _ <-- (if hasSftp then fwrap "error closing SFTP client" SftpClose else fret tt) ;;
  _ <-- (if hasSsh then fwrap "error closing SSH client" SshClose else fret tt) ;;
  fret tt.

Definition CreateFile (path content : string) (permissions : Z) : FM unit :=
  let parentDir := filepath_Dir path in
  ex <-- lift (Exists_ parentDir) ;;
  _ <-- (if negb ex
         then fwrap "failed to create parent directory"
                (lift (CreateDirectory parentDir 493))
         else fret tt) ;;
  _ <-- fwrap "failed to create file" (Create path) ;;
  _ <-- fwrap "failed to write file content" (Write path content) ;;
  _ <-- fwrap "failed to set file permissions" (lift (Chmod path permissions)) ;;
  fret tt.

Definition ReadFile (path : string) : FM string :=
  _ <-- fwrap "failed to open file" (Open path) ;;
  content <-- fwrap "failed to read file content" (ReadAll path) ;;
  fret content.

Definition DeleteFile (path : string) : FM unit :=
  _ <-- fwrap "failed to delete file" (Remove path) ;;
  fret tt.

Definition DeleteDirectory (path : string) : FM unit :=
  _ <-- fwrap "failed to delete directory" (RemoveAll path) ;;
  fret tt.

End FileOps.

End Files.

(* ===================================================================== *)
(** ** The resources and data sources that call package ssh              *)
(* ===================================================================== *)

Module Provider.
Import Files.

(** A [types.String], [types.Int64]: a known value, or [None] for null and
    unknown, for which [ValueString()] and [ValueInt64()] give the zero
    value. *)
Definition ValueString (s : option string) : string := default ""%string s.
Definition ValueInt64 (n : option Z) : Z := default 0 n.

Record SSHBlockModel := mkSSHBlockModel {
  Host : option string;
  Port : option Z;
  Username : option string;
  Password : option string;
  PrivateKey : option string
}.

(** The [config] that every [getClient] builds from the ssh block
    (file_resource.go, directory resource and both data sources);
    [int(...)] of an [int64] is the number itself. *)
Definition getClient_config (sshBlock : SSHBlockModel) : SSH.SSHConfig :=
  let port := ValueInt64 (Port sshBlock) in
  let port := if port =? 0 then 22 else port in
  {| SSH.Host := ValueString (Host sshBlock);
     SSH.Port := port;
     SSH.Username := ValueString (Username sshBlock);
     SSH.Password := ValueString (Password sshBlock);
     SSH.PrivateKey := ValueString (PrivateKey sshBlock) |}.

(** [getClient] up to its return; the goroutine that releases the client
    when the context is done is a later [ReleaseClient] of the same
    config. *)
Definition getClient (env : SSH.Env) (sshBlock : SSHBlockModel) (p : SSH.SSHPool)
  : SSH.SSHPool * (SSH.error + SSH.SSHClient) * list SSH.PoolEvent :=
  SSH.GetClient env (getClient_config sshBlock) p.

(** [err.Error()] *)
Fixpoint errorString (e : SSH.error) : string :=
  match e with
  | SSH.ErrNotExist => "file does not exist"
  | SSH.LibError msg => msg
  | SSH.Errorf msg => msg
  | SSH.Errorw msg cause => (msg ++ ": " ++ errorString cause)%string
  end.

(** One entry of [resp.Diagnostics]. *)
Record Diagnostic := mkDiagnostic { summary : string; detail : string }.

Section Handlers.
Context {W : Type} `{SSH.RemoteHost W} `{SftpFiles W} `{GoPath} `{SSH.GoStrings}.

(** [FileResource.Delete] from the client on (file_resource.go, lines
    412-424): the diagnostics it adds. *)
Definition FileResource_Delete (path : string) (st : FSt (W := W))
  : FSt (W := W) * list Diagnostic :=
  match DeleteFile path st with
  | (st', inl err) =>
      if SSH.os_IsNotExist err then (st', [])
      else (st', [{| summary := "Error deleting file";
                     detail := ("Could not delete file: " ++ errorString err)%string |}])
  | (st', inr _) => (st', [])
  end.

(** [DirectoryResource.Delete] from the client on. *)
Definition DirectoryResource_Delete (path : string) (st : FSt (W := W))
  : FSt (W := W) * list Diagnostic :=
  match DeleteDirectory path st with
  | (st', inl err) =>
      if SSH.os_IsNotExist err then (st', [])
      else (st', [{| summary := "Error deleting directory";
                     detail := ("Could not delete directory: " ++ errorString err)%string |}])
  | (st', inr _) => (st', [])
  end.

(** [DirectoryResource.Create], the step that makes the directory: parse
    the permissions, and create the directory unless Exists says it is
    there. *)
Definition DirectoryResource_Create_directory (path : string)
    (planPermissions : option string) (st : SSH.St (W := W))
  : SSH.St (W := W) * list Diagnostic :=
  let permissions := SSH.ParsePermissions (ValueString planPermissions) in
  match SSH.Exists_ path st with
  | (st1, inr false) =>
      match SSH.CreateDirectory path permissions st1 with
      | (st2, inl err) =>
          (st2, [{| summary := "Error creating directory";
                    detail := ("Could not create directory: " ++ errorString err)%string |}])
      | (st2, inr _) => (st2, [])
      end
  | (st1, _) => (st1, [])
  end.

(** The permissions a Read writes to the state: the mode, or the
    diagnostic (file_resource.go, lines 245-253, and the same lines of the
    directory resource). *)
Definition Read_permissions (summaryText detailText : string) (path : string)
    (st : SSH.St (W := W)) : SSH.St (W := W) * (Diagnostic + string) :=
  match SSH.GetFileMode path st with
  | (st', inl err) =>
      (st', inl {| summary := summaryText;
                   detail := (detailText ++ errorString err)%string |})
  | (st', inr mode) => (st', inr (Go.fmt_04o mode))
  end.

End Handlers.

End Provider.

(* ===================================================================== *)
(** ** What the further properties speak of                              *)
(* ===================================================================== *)

Module More.
Import SSH.

(** The letters of the eight flags, in the order of [attrFlags]. *)
Definition flagLetters : list string := ["i"; "a"; "d"; "S"; "A"; "c"; "C"; "u"]%string.

(** The attributes with the flag of one letter set to [v]. *)
Definition setFlag (v : bool) (a : FileAttributes) (flag : string) : FileAttributes :=
  if String.eqb flag "i" then
    mkFileAttributes v (AppendOnly a) (NoDump a) (Synchronous a)
      (NoAtime a) (Compressed a) (NoCoW a) (Undeletable a)
  else if String.eqb flag "a" then
    mkFileAttributes (Immutable a) v (NoDump a) (Synchronous a)
      (NoAtime a) (Compressed a) (NoCoW a) (Undeletable a)
  else if String.eqb flag "d" then
    mkFileAttributes (Immutable a) (AppendOnly a) v (Synchronous a)
      (NoAtime a) (Compressed a) (NoCoW a) (Undeletable a)
  else if String.eqb flag "S" then
    mkFileAttributes (Immutable a) (AppendOnly a) (NoDump a) v
      (NoAtime a) (Compressed a) (NoCoW a) (Undeletable a)
  else if String.eqb flag "A" then
    mkFileAttributes (Immutable a) (AppendOnly a) (NoDump a) (Synchronous a)
      v (Compressed a) (NoCoW a) (Undeletable a)
  else if String.eqb flag "c" then
    mkFileAttributes (Immutable a) (AppendOnly a) (NoDump a) (Synchronous a)
      (NoAtime a) v (NoCoW a) (Undeletable a)
  else if String.eqb flag "C" then
    mkFileAttributes (Immutable a) (AppendOnly a) (NoDump a) (Synchronous a)
      (NoAtime a) (Compressed a) v (Undeletable a)
  else if String.eqb flag "u" then
    mkFileAttributes (Immutable a) (AppendOnly a) (NoDump a) (Synchronous a)
      (NoAtime a) (Compressed a) (NoCoW a) v
  else a.

(** What [chattr +add] followed by [chattr -remove] makes of the eight
    flags. *)
Definition applyChattr (add remove : list string) (cur : FileAttributes)
  : FileAttributes :=
  fold_left (setFlag false) remove (fold_left (setFlag true) add cur).

(** The letter is one of the eight. *)
Definition isLetter (g : string) : bool := existsb (String.eqb g) flagLetters.

(** The removals in a log of file operations. *)
Definition removals (evs : list Files.FileEvent) : list Files.FileEvent :=
  List.filter Files.isRemoval evs.

End More.

(* ===================================================================== *)
(** ** The small host, for the file operations                           *)
(* ===================================================================== *)

Module ToyFiles.
Import SSH Files.

Fixpoint dirOf (cs : list ascii) (seen : list ascii) (best : list ascii) : list ascii :=
  match cs with
  | [] => best
  | c :: cs' =>
      if Ascii.eqb c "/" then dirOf cs' (seen ++ [c]) seen
      else dirOf cs' (seen ++ [c]) best
  end.

(** The directory part of a clean absolute path. *)
#[global] Instance paths : GoPath :=
  {| filepath_Dir := fun s =>
       match dirOf (list_ascii_of_string s) [] [] with
       | [] => "/"%string
       | d => string_of_list_ascii d
       end |}.

#[global] Instance files : SftpFiles Toy.World :=
  {| sftp_Create := fun path w =>
       ({| Toy.files := <[path := (false, 420)]> (Toy.files w);
           Toy.prints := Toy.prints w |}, None);
     file_Write := fun path content w => (w, None);
     sftp_Open := fun path w =>
       match Toy.files w !! path with
       | Some _ => (w, None)
       | None => (w, Some ErrNotExist)
       end;
     io_ReadAll := fun path w => (w, inr "hello"%string);
     sftp_Remove := fun path w =>
       match Toy.files w !! path with
       | Some _ => ({| Toy.files := delete path (Toy.files w);
                       Toy.prints := Toy.prints w |}, None)
       | None => (w, Some ErrNotExist)
       end;
     sftp_RemoveAll := fun path w =>
       ({| Toy.files := delete path (Toy.files w);
           Toy.prints := Toy.prints w |}, None);
     sftpClient_Close := fun w => (w, Some (LibError "connection lost"));
     sshClient_Close := fun w => (w, None) |}.

Definition start : FSt (W := Toy.World) := (Toy.world, []).

Definition block : Provider.SSHBlockModel :=
  {| Provider.Host := Some "localhost"%string; Provider.Port := None;
     Provider.Username := Some "testuser"%string;
     Provider.Password := Some "testpass"%string; Provider.PrivateKey := None |}.

Definition block22 : Provider.SSHBlockModel :=
  {| Provider.Host := Some "localhost"%string; Provider.Port := Some 22;
     Provider.Username := Some "testuser"%string;
     Provider.Password := None; Provider.PrivateKey := Some "key"%string |}.

End ToyFiles.

(* ===================================================================== *)
(** ** A host on which changes fail                                      *)
(* ===================================================================== *)

Module ToyFailing.
Import SSH Files.

(** The host of [Toy], except that every command run for its effect fails,
    as for a user without the rights to change anything. *)
Definition host : RemoteHost Toy.World :=
  {| ssh_NewSession := fun w => (w, None);
     session_Output := fun cmd w =>
       (w, match Toy.prints w !! cmd with
           | Some out => inr out
           | None => inl (LibError "Process exited with status 1")
           end);
     session_Run := fun cmd w => (w, Some (LibError "Operation not permitted"));
     sftp_Stat := fun path w =>
       match Toy.files w !! path with
       | Some f => inr {| fi_Mode := Toy.modeOf f |}
       | None => inl ErrNotExist
       end;
     sftp_MkdirAll := fun path w => (w, Some (LibError "Operation not permitted"));
     sftp_Chmod := fun path mode w => (w, Some (LibError "Operation not permitted")) |}.

(** Files on a full disk: a file can be created, and nothing can be
    written to it. *)
Definition files : SftpFiles Toy.World :=
  {| sftp_Create := fun path w =>
       ({| Toy.files := <[path := (false, 420)]> (Toy.files w);
           Toy.prints := Toy.prints w |}, None);
     file_Write := fun path content w =>
       (w, Some (LibError "no space left on device"));
     sftp_Open := fun path w =>
       match Toy.files w !! path with
       | Some _ => (w, None)
       | None => (w, Some ErrNotExist)
       end;
     io_ReadAll := fun path w => (w, inr ""%string);
     sftp_Remove := fun path w =>
       match Toy.files w !! path with
       | Some _ => ({| Toy.files := delete path (Toy.files w);
                       Toy.prints := Toy.prints w |}, None)
       | None => (w, Some ErrNotExist)
       end;
     sftp_RemoveAll := fun path w =>
       ({| Toy.files := delete path (Toy.files w);
           Toy.prints := Toy.prints w |}, None);
     sftpClient_Close := fun w => (w, None);
     sshClient_Close := fun w => (w, None) |}.

(** The host of [Toy] with a directory "/d". *)
Definition withDir : FSt (W := Toy.World) :=
  ({| Toy.files := <["/d"%string := (true, 493)]> (Toy.files Toy.world);
      Toy.prints := Toy.prints Toy.world |}, []).

End ToyFailing.

(* ===================================================================== *)
(** * Theorems                                                           *)
(* ===================================================================== *)

(** ** util.go *)

Section ParsePermissionsFacts.
Import Go Spec SSH.

Let cutoff8 : Z := maxUint64 / 8 + 1.
Let max32 : Z := 2 ^ 32 - 1.

Lemma byte_range c : 0 <= byte c < 256.
Proof.
  unfold byte. pose proof (nat_ascii_bounded c) as Hb. lia.
Qed.

Lemma digitVal_oct c :
  isOctDigit c = true -> digitVal (byte c) = Some (byte c - 48) /\ 0 <= byte c - 48 < 8.
Proof.
  unfold isOctDigit, digitVal. intros Hd.
  apply andb_true_iff in Hd as [H1 H2].
  apply Z.leb_le in H1, H2.
  assert (Hr : (48 <=? byte c) && (byte c <=? 57) = true).
  { apply andb_true_iff. split; apply Z.leb_le; lia. }
  rewrite Hr. split; [reflexivity | lia].
Qed.

Lemma digitVal_not_oct c :
  isOctDigit c = false ->
  digitVal (byte c) = None \/ exists d, digitVal (byte c) = Some d /\ 8 <= d.
Proof.
  unfold isOctDigit, digitVal. intros Hd.
  destruct ((48 <=? byte c) && (byte c <=? 57)) eqn:E1.
  - right. exists (byte c - 48). split; [reflexivity |].
    apply andb_true_iff in E1 as [H1 H2]. apply Z.leb_le in H1, H2.
    apply andb_false_iff in Hd as [Hd | Hd]; apply Z.leb_gt in Hd; lia.
  - destruct ((97 <=? lower (byte c)) && (lower (byte c) <=? 122)) eqn:E2.
    + right. eexists. split; [reflexivity |].
      apply andb_true_iff in E2 as [H1 _]. apply Z.leb_le in H1. lia.
    + left. reflexivity.
Qed.

Lemma octalFrom_ge ds : forall a,
  forallb isOctDigit ds = true -> 0 <= a -> a <= octalFrom a ds.
Proof.
  induction ds as [| c ds IH]; intros a Hall Ha; simpl.
  - lia.
  - simpl in Hall. apply andb_true_iff in Hall as [Hc Hall].
    destruct (digitVal_oct c Hc) as [_ Hr].
    specialize (IH (8 * a + (byte c - 48)) Hall). unfold octalFrom in *. lia.
Qed.

(** On octal digits the loop of ParseUint computes the denoted number, or
    stops with a range error as soon as it passes 2^32 - 1. *)
Lemma ParseUint_loop_oct s : forall n,
  forallb isOctDigit (list_ascii_of_string s) = true ->
  0 <= n <= max32 ->
  ParseUint_loop 8 max32 cutoff8 s n =
    if octalFrom n (list_ascii_of_string s) <=? max32
    then inr (octalFrom n (list_ascii_of_string s))
    else inl ErrRange.
Proof.
  induction s as [| c s IH]; intros n Hall Hn; simpl.
  - destruct (Z.leb_spec n max32); [reflexivity | lia].
  - simpl in Hall. apply andb_true_iff in Hall as [Hc Hall].
    destruct (digitVal_oct c Hc) as [Hdv Hr]. rewrite Hdv.
    assert (Hmax : max32 = 4294967295) by reflexivity.
    assert (Hcut : cutoff8 = 2305843009213693952) by reflexivity.
    destruct (Z.leb_spec 8 (byte c - 48)); [lia |].
    destruct (Z.leb_spec cutoff8 n); [lia |].
    assert (Hm1 : (n * 8) mod 2 ^ 64 = n * 8).
    { apply Z.mod_small. lia. }
    rewrite Hm1.
    assert (Hm2 : (n * 8 + (byte c - 48)) mod 2 ^ 64 = 8 * n + (byte c - 48)).
    { rewrite Z.mod_small by lia. lia. }
    rewrite Hm2.
    destruct (Z.ltb_spec (8 * n + (byte c - 48)) (n * 8)); [lia |].
    simpl orb.
    destruct (Z.ltb_spec max32 (8 * n + (byte c - 48))) as [Hov | Hok].
    + pose proof (octalFrom_ge _ (8 * n + (byte c - 48)) Hall ltac:(lia)) as Hge.
      change (octalFrom n (c :: list_ascii_of_string s))
        with (octalFrom (8 * n + (byte c - 48)) (list_ascii_of_string s)).
      destruct (Z.leb_spec (octalFrom (8 * n + (byte c - 48)) (list_ascii_of_string s)) max32);
        [lia | reflexivity].
    + rewrite IH by (auto; lia). reflexivity.
Qed.

(** A character that is no octal digit makes the loop fail. *)
Lemma ParseUint_loop_bad s : forall n,
  forallb isOctDigit (list_ascii_of_string s) = false ->
  exists e, ParseUint_loop 8 max32 cutoff8 s n = inl e.
Proof.
  induction s as [| c s IH]; intros n Hall; simpl in *.
  - discriminate.
  - destruct (isOctDigit c) eqn:Hc.
    + simpl in Hall. destruct (digitVal_oct c Hc) as [Hdv Hr]. rewrite Hdv.
      destruct (8 <=? byte c - 48); [eauto |].
      destruct (cutoff8 <=? n); [eauto |].
      match goal with |- context [if ?b then _ else _] => destruct b end;
        [eauto | apply IH; assumption].
    + destruct (digitVal_not_oct c Hc) as [Hn | [d [Hd Hge]]].
      * rewrite Hn. eauto.
      * rewrite Hd. destruct (Z.leb_spec 8 d); [eauto | lia].
Qed.

Lemma ParseUint_8_32 c s :
  ParseUint (String c s) 8 32 = ParseUint_loop 8 max32 cutoff8 (String c s) 0.
Proof. reflexivity. Qed.

Lemma validOctal_inv s :
  validOctal s = true ->
  (exists c s', s = String c s') /\ forallb isOctDigit (list_ascii_of_string s) = true.
Proof.
  unfold validOctal. intros Hv. apply andb_true_iff in Hv as [Hne Hall].
  split; [| exact Hall].
  destruct s as [| c s']; [discriminate | eauto].
Qed.

Lemma ParsePermissions_in_range s :
  validOctal s = true -> octalValue s < 2 ^ 32 ->
  ParsePermissions s = octalValue s.
Proof.
  intros Hv Hlt. destruct (validOctal_inv s Hv) as [[c [s' ->]] Hall].
  unfold ParsePermissions. cbn [String.eqb].
  rewrite ParseUint_8_32, ParseUint_loop_oct by (auto; unfold max32; lia).
  fold (octalValue (String c s')).
  pose proof (octalFrom_ge _ 0 Hall ltac:(lia)) as Hge. fold (octalValue (String c s')) in Hge.
  destruct (Z.leb_spec (octalValue (String c s')) max32) as [Hle | Hgt].
  - apply Z.mod_small. lia.
  - unfold max32 in Hgt. lia.
Qed.

Lemma ParsePermissions_out_of_range s :
  validOctal s = true -> 2 ^ 32 <= octalValue s ->
  ParsePermissions s = defaultPerm.
Proof.
  intros Hv Hge. destruct (validOctal_inv s Hv) as [[c [s' ->]] Hall].
  unfold ParsePermissions. cbn [String.eqb].
  rewrite ParseUint_8_32, ParseUint_loop_oct by (auto; unfold max32; lia).
  fold (octalValue (String c s')).
  destruct (Z.leb_spec (octalValue (String c s')) max32) as [Hle | Hgt].
  - unfold max32 in Hle. lia.
  - reflexivity.
Qed.

Lemma ParsePermissions_invalid s :
  validOctal s = false -> ParsePermissions s = defaultPerm.
Proof.
  intros Hv. unfold ParsePermissions.
  destruct s as [| c s']; [reflexivity |].
  cbn [String.eqb]. rewrite ParseUint_8_32.
  unfold validOctal in Hv. cbn [String.eqb negb andb] in Hv.
  destruct (ParseUint_loop_bad (String c s') 0 Hv) as [e ->]. reflexivity.
Qed.

(** *** Formatting with [%04o] *)

Lemma octDigit_byte c : octDigit (byte c - 48) = c.
Proof.
  unfold octDigit, byte.
  replace (48 + (Z.of_nat (nat_of_ascii c) - 48)) with (Z.of_nat (nat_of_ascii c)) by lia.
  rewrite Nat2Z.id. apply ascii_nat_embedding.
Qed.

Lemma octalFrom_snoc a ds c :
  octalFrom a (ds ++ [c]) = 8 * octalFrom a ds + (byte c - 48).
Proof. unfold octalFrom. rewrite fold_left_app. reflexivity. Qed.

Lemma isOctDigit_nonzero c :
  isOctDigit c = true -> Ascii.eqb c "0" = false -> 1 <= byte c - 48 < 8.
Proof.
  intros Hc Hz. destruct (digitVal_oct c Hc) as [_ Hr].
  assert (byte c <> 48); [| lia].
  intros Heq. apply Ascii.eqb_neq in Hz. apply Hz.
  rewrite <- (ascii_nat_embedding c), <- (ascii_nat_embedding "0").
  f_equal. unfold byte in Heq. change (nat_of_ascii "0") with 48%nat. lia.
Qed.

Lemma octalFrom_pos ds :
  forallb isOctDigit ds = true -> noLeadingZero ds -> 1 <= octalFrom 0 ds.
Proof.
  destruct ds as [| c ds]; simpl; [tauto |].
  intros Hall Hz. apply andb_true_iff in Hall as [Hc Hall].
  pose proof (isOctDigit_nonzero c Hc Hz).
  pose proof (octalFrom_ge ds (8 * 0 + (byte c - 48)) Hall ltac:(lia)).
  unfold octalFrom in *. simpl. lia.
Qed.

(** The digit loop of [%o] writes back the digits of a number given
    without leading zeros. *)
Lemma fmtOct_loop_octalFrom ds : forall fuel,
  forallb isOctDigit ds = true -> noLeadingZero ds ->
  octalFrom 0 ds < 8 ^ Z.of_nat fuel ->
  fmtOct_loop fuel (octalFrom 0 ds) = rev ds.
Proof.
  induction ds as [| c ds IH] using rev_ind; intros fuel Hall Hz Hlt.
  - destruct Hz.
  - rewrite forallb_app in Hall. apply andb_true_iff in Hall as [Hall Hc].
    simpl in Hc. rewrite andb_true_r in Hc.
    destruct (digitVal_oct c Hc) as [_ Hr].
    rewrite octalFrom_snoc in *. rewrite rev_app_distr. simpl rev. simpl app.
    destruct fuel as [| fuel].
    { simpl in Hlt. destruct ds as [| c' ds].
      - simpl in Hz. pose proof (isOctDigit_nonzero c Hc Hz). simpl in Hlt. lia.
      - pose proof (octalFrom_pos (c' :: ds) Hall Hz). lia. }
    destruct ds as [| c' ds].
    + simpl octalFrom. simpl.
      destruct (Z.leb_spec 8 (8 * 0 + (byte c - 48))); [lia |].
      replace (8 * 0 + (byte c - 48)) with (byte c - 48) by lia.
      rewrite octDigit_byte. reflexivity.
    + pose proof (octalFrom_pos (c' :: ds) Hall Hz) as Hpos.
      set (v := octalFrom 0 (c' :: ds)) in *.
      cbn [fmtOct_loop].
      destruct (Z.leb_spec 8 (8 * v + (byte c - 48))); [| lia].
      assert (Hland : Z.land (8 * v + (byte c - 48)) 7 = byte c - 48).
      { change 7 with (Z.ones 3). rewrite Z.land_ones by lia.
        change (2 ^ 3) with 8. rewrite Z.add_comm, Z.mul_comm, Z.mod_add by lia.
        apply Z.mod_small. lia. }
      assert (Hshr : Z.shiftr (8 * v + (byte c - 48)) 3 = v).
      { rewrite Z.shiftr_div_pow2 by lia. change (2 ^ 3) with 8.
        rewrite Z.add_comm, Z.mul_comm, Z.div_add by lia.
        rewrite Z.div_small by lia. lia. }
      rewrite Hland, Hshr, octDigit_byte. f_equal.
      apply IH; auto.
      rewrite Nat2Z.inj_succ, Z.pow_succ_r in Hlt by lia. lia.
Qed.

Lemma stripZeros_spec ds :
  forallb isOctDigit ds = true ->
  octalFrom 0 (stripZeros ds) = octalFrom 0 ds
  /\ forallb isOctDigit (stripZeros ds) = true
  /\ (stripZeros ds = [] \/ noLeadingZero (stripZeros ds)).
Proof.
  induction ds as [| c ds IH]; simpl; intros Hall.
  - auto.
  - apply andb_true_iff in Hall as [Hc Hall].
    destruct (Ascii.eqb c "0") eqn:Hz.
    + apply Ascii.eqb_eq in Hz. subst c.
      destruct (IH Hall) as [Hv [Ho Hn]]. repeat split; auto.
    + split; [reflexivity |]. split.
      * simpl. rewrite Hc, Hall. reflexivity.
      * right. simpl. exact Hz.
Qed.

Lemma fmt_04o_canonical s :
  validOctal s = true -> octalValue s < 2 ^ 32 ->
  fmt_04o (octalValue s) = canonical s.
Proof.
  intros Hv Hlt. destruct (validOctal_inv s Hv) as [_ Hall].
  unfold fmt_04o, canonical. f_equal.
  destruct (stripZeros_spec _ Hall) as [Hval [Hoct Hlead]].
  unfold octalValue in *. rewrite <- Hval in *. unfold fmt_o_digits.
  destruct Hlead as [Hnil | Hlead].
  - rewrite Hnil. reflexivity.
  - rewrite fmtOct_loop_octalFrom; auto.
    + rewrite rev_involutive. reflexivity.
    + change (8 ^ Z.of_nat 22) with 73786976294838206464. lia.
Qed.

End ParsePermissionsFacts.

(** The table of util_test.go. *)
Example TestParsePermissions :
  map SSH.ParsePermissions ["755"; "0755"; "777"; "0777"; "0600"; "600"]%string
  = [493; 493; 511; 511; 384; 384].
Proof. vm_compute. reflexivity. Qed.

Example fmt_04o_examples :
  map Go.fmt_04o [493; 7; 0; 5119] = ["0755"; "0007"; "0000"; "11777"]%string.
Proof. vm_compute. reflexivity. Qed.

(** C6, as stated, fails: "40000000000" is a string of octal digits (it
    denotes 2^32), and ParsePermissions answers the default 0644 for it,
    not the number it denotes. *)
Lemma ParsePermissions_valid_octal_counterexample :
  Spec.validOctal "40000000000" = true
  /\ Spec.octalValue "40000000000" = 2 ^ 32
  /\ SSH.ParsePermissions "40000000000" = 420
  /\ SSH.ParsePermissions "40000000000" <> Spec.octalValue "40000000000".
Proof. vm_compute. repeat split; congruence. Qed.

(** C6, amended: for every string P of octal digits that denotes a number
    below 2^32, ParsePermissions(P) is that number, and writing it back with
    the provider's [%04o] gives the canonical form of P; for a string of
    octal digits denoting 2^32 or more, for the empty string and for every
    string that is not made of octal digits, ParsePermissions(P) is the
    default 0644. *)
Theorem ParsePermissions_round_trip (P : string) :
  (Spec.validOctal P = true -> Spec.octalValue P < 2 ^ 32 ->
     SSH.ParsePermissions P = Spec.octalValue P
     /\ Go.fmt_04o (SSH.ParsePermissions P) = Spec.canonical P)
  /\ (Spec.validOctal P = true -> 2 ^ 32 <= Spec.octalValue P ->
        SSH.ParsePermissions P = 420)
  /\ (Spec.validOctal P = false -> SSH.ParsePermissions P = 420).
Proof.
  split; [| split].
  - intros Hv Hlt. rewrite ParsePermissions_in_range by assumption.
    split; [reflexivity | apply fmt_04o_canonical; assumption].
  - apply ParsePermissions_out_of_range.
  - apply ParsePermissions_invalid.
Qed.

Lemma ParsePermissions_round_trip_witness :
  (SSH.ParsePermissions "755" = Spec.octalValue "755"
   /\ Go.fmt_04o (SSH.ParsePermissions "755") = Spec.canonical "755")
  /\ SSH.ParsePermissions "777777777777" = 420
  /\ SSH.ParsePermissions "" = 420
  /\ SSH.ParsePermissions "rwxr-xr-x" = 420.
Proof.
  split; [| split; [| split]].
  - apply (proj1 (ParsePermissions_round_trip "755")).
    + vm_compute. reflexivity.
    + vm_compute. reflexivity.
  - apply (proj1 (proj2 (ParsePermissions_round_trip "777777777777"))).
    + vm_compute. reflexivity.
    + vm_compute. discriminate.
  - apply (proj2 (proj2 (ParsePermissions_round_trip ""))).
    vm_compute. reflexivity.
  - apply (proj2 (proj2 (ParsePermissions_round_trip "rwxr-xr-x"))).
    vm_compute. reflexivity.
Defined.

(** ** ssh_pool.go *)

Section PoolFacts.
Import Go Spec SSH.

Implicit Types (p : SSHPool) (pc : pooledClient) (env : Env)
  (config : SSHConfig) (key : string).

Lemma GetClient_create_at_capacity env config key p :
  maxConns p <= Z.of_nat (size (clients p)) ->
  GetClient_create env config key p = (p, inl (atCapacityError p), []).
Proof.
  intros Hcap. unfold GetClient_create.
  destruct (Z.leb_spec (maxConns p) (Z.of_nat (size (clients p)))); [reflexivity | lia].
Qed.

Lemma GetClient_create_below env config key p :
  Z.of_nat (size (clients p)) < maxConns p ->
  GetClient_create env config key p =
    match NewSSHClient env config with
    | (inl err, evs) => (p, inl err, evs)
    | (inr c, evs) =>
        (set_clients (<[key := freshEntry env c]> (clients p)) p, inr c, evs)
    end.
Proof.
  intros Hcap. unfold GetClient_create.
  destruct (Z.leb_spec (maxConns p) (Z.of_nat (size (clients p)))); [lia | reflexivity].
Qed.

(** A session that the creation path returns is the one NewSSHClient has
    just made, and it is stored under the key as a new in-use entry. *)
Lemma GetClient_create_inr env config key p p' c evs :
  GetClient_create env config key p = (p', inr c, evs) ->
  NewSSHClient env config = (inr c, evs)
  /\ p' = set_clients (<[key := freshEntry env c]> (clients p)) p
  /\ Z.of_nat (size (clients p)) < maxConns p.
Proof.
  unfold GetClient_create.
  destruct (Z.leb_spec (maxConns p) (Z.of_nat (size (clients p)))) as [Hle | Hlt];
    [discriminate |].
  destruct (NewSSHClient env config) as [[err | c'] evs'] eqn:Hnew; intros Heq;
    inversion Heq; subst. auto.
Qed.

(** NewSSHClient never waits on a pooled connection, dials at most once,
    and dials exactly once when it succeeds. *)
Lemma NewSSHClient_events env config :
  filter (fun e => isWait e = true) (NewSSHClient env config).2 = []
  /\ (length (filter (fun e => isDial e = true) (NewSSHClient env config).2) <= 1)%nat
  /\ (forall c, (NewSSHClient env config).1 = inr c ->
        length (filter (fun e => isDial e = true) (NewSSHClient env config).2) = 1%nat).
Proof.
  unfold NewSSHClient.
  repeat match goal with
         | |- context [match ?x with _ => _ end] => destruct x; simpl
         | |- context [if ?x then _ else _] => destruct x; simpl
         end;
    repeat split; try reflexivity; try lia; try discriminate; intros; try discriminate; auto.
Qed.

(** *** The sweep *)

Section Sweep.
Variables (tnow mi : Z).

Let step := cleanup_step tnow mi.


(** The sweep only deletes. *)
Lemma sweep_lookup_None l : forall m evs k,
  m !! k = None -> (fold_left step l (m, evs)).1 !! k = None.
Proof.
  induction l as [| kv l IH]; intros m evs k Hk; simpl; [exact Hk |].
  unfold step at 2, cleanup_step.
  destruct (idleExpired tnow mi kv.2); simpl; apply IH; [| exact Hk].
  destruct (decide (kv.1 = k)) as [-> | Hne].
  - apply lookup_delete_eq.
  - rewrite lookup_delete_ne by exact Hne. exact Hk.
Qed.

Lemma sweep_lookup_reaped l : forall m evs k pc,
  (k, pc) ∈ l -> idleExpired tnow mi pc = true ->
  (fold_left step l (m, evs)).1 !! k = None.
Proof.
  induction l as [| kv l IH]; intros m evs k pc Hin Hexp; simpl.
  - inversion Hin.
  - apply elem_of_cons in Hin as [<- | Hin].
    + unfold step at 2, cleanup_step. simpl. rewrite Hexp. simpl.
      apply sweep_lookup_None, lookup_delete_eq.
    + destruct (step (m, evs) kv) as [m' evs']. eapply IH; eauto.
Qed.

Lemma sweep_lookup_kept l : forall m evs k,
  (forall pc, (k, pc) ∈ l -> idleExpired tnow mi pc = false) ->
  (fold_left step l (m, evs)).1 !! k = m !! k.
Proof.
  induction l as [| kv l IH]; intros m evs k Hkeep; simpl; [reflexivity |].
  unfold step at 2, cleanup_step.
  destruct (idleExpired tnow mi kv.2) eqn:Hexp; simpl.
  - rewrite IH.
    + apply lookup_delete_ne. intros Heq. destruct kv as [k0 pc0]. simpl in *. subst k0.
      rewrite (Hkeep pc0) in Hexp; [discriminate | apply elem_of_cons; auto].
    + intros pc Hin. apply Hkeep. apply elem_of_cons. auto.
  - apply IH. intros pc Hin. apply Hkeep. apply elem_of_cons. auto.
Qed.
End Sweep.

Lemma idleExpired_iff tnow p pc :
  idleExpired tnow (maxIdle p) pc = true <-> expiredAt tnow p pc.
Proof.
  unfold idleExpired, expiredAt. rewrite andb_true_iff, negb_true_iff, Z.ltb_lt.
  reflexivity.
Qed.

Lemma cleanup_tick_lookup order tnow p k :
  validOrder order ->
  clients (cleanup_tick order tnow p).1 !! k =
    match clients p !! k with
    | Some pc => if idleExpired tnow (maxIdle p) pc then None else Some pc
    | None => None
    end.
Proof.
  intros Hord. unfold cleanup_tick. simpl.
  assert (Hin : forall pc, (k, pc) ∈ order (clients p) <-> clients p !! k = Some pc).
  { intros pc. rewrite (Hord (clients p)). apply elem_of_map_to_list. }
  destruct (clients p !! k) as [pc |] eqn:Hk.
  - destruct (idleExpired tnow (maxIdle p) pc) eqn:Hexp.
    + eapply sweep_lookup_reaped; [apply Hin; reflexivity | exact Hexp].
    + rewrite sweep_lookup_kept; [exact Hk |].
      intros pc' Hin'. apply Hin in Hin'. congruence.
  - apply sweep_lookup_None. exact Hk.
Qed.


Lemma cleanup_tick_size order tnow p :
  validOrder order ->
  (size (clients (cleanup_tick order tnow p).1) <= size (clients p))%nat.
Proof.
  intros Hord. apply map_subseteq_size, map_subseteq_spec.
  intros k pc. rewrite cleanup_tick_lookup by exact Hord.
  destruct (clients p !! k) as [pc' |]; [| discriminate].
  destruct (idleExpired tnow (maxIdle p) pc'); [discriminate | auto].
Qed.

Lemma set_clients_id p : set_clients (clients p) p = p.
Proof. destruct p; reflexivity. Qed.


Lemma cleanup_tick_fields order tnow p :
  maxIdle (cleanup_tick order tnow p).1 = maxIdle p
  /\ maxConns (cleanup_tick order tnow p).1 = maxConns p.
Proof. split; reflexivity. Qed.

(** *** The invariant of the pool *)

Lemma poolOK_NewSSHPool (pcfg : PoolConfig) : poolOK (NewSSHPool pcfg).
Proof.
  split.
  - intros k pc Hk. simpl in Hk. rewrite lookup_empty in Hk. discriminate.
  - left. simpl. apply map_size_empty.
Qed.

Lemma poolOK_ReleaseClient tnow config p :
  poolOK p -> poolOK (ReleaseClient tnow config p).
Proof.
  intros [Hguard Hsize]. unfold ReleaseClient.
  destruct (clients p !! configKey config) as [pc |] eqn:Hk; [| split; assumption].
  split; simpl.
  - intros k pc' Hk'. destruct (decide (k = configKey config)) as [-> | Hne].
    + rewrite lookup_insert_eq in Hk'. inversion Hk'; subst. simpl. eauto.
    + rewrite lookup_insert_ne in Hk' by congruence. eauto.
  - rewrite map_size_insert_Some by eauto. exact Hsize.
Qed.

Lemma poolOK_cleanup_tick order tnow p :
  validOrder order -> poolOK p -> poolOK (cleanup_tick order tnow p).1.
Proof.
  intros Hord [Hguard Hsize]. split.
  - intros k pc Hk. rewrite cleanup_tick_lookup in Hk by exact Hord.
    destruct (clients p !! k) as [pc' |] eqn:Hk'; [| discriminate].
    destruct (idleExpired tnow (maxIdle p) pc'); [discriminate |].
    inversion Hk; subst. eauto.
  - pose proof (cleanup_tick_size order tnow p Hord) as Hle.
    destruct (cleanup_tick_fields order tnow p) as [_ ->].
    destruct Hsize as [Hz | Hcap]; [left | right]; lia.
Qed.

Lemma poolOK_GetClient_create env config key p :
  poolOK p -> poolOK (GetClient_create env config key p).1.1.
Proof.
  intros [Hguard Hsize]. unfold GetClient_create.
  destruct (Z.leb_spec (maxConns p) (Z.of_nat (size (clients p)))) as [Hle | Hlt];
    [split; assumption |].
  destruct (NewSSHClient env config) as [[err | c] evs]; [split; assumption |].
  split; simpl.
  - intros k pc Hk. destruct (decide (k = key)) as [-> | Hne].
    + rewrite lookup_insert_eq in Hk. inversion Hk; subst. reflexivity.
    + rewrite lookup_insert_ne in Hk by congruence. eauto.
  - right. rewrite map_size_insert.
    destruct (clients p !! key); simpl; lia.
Qed.

Lemma poolOK_GetClient env config p :
  poolOK p -> poolOK (GetClient env config p).1.1.
Proof.
  intros Hok. pose proof Hok as [Hguard Hsize]. unfold GetClient.
  destruct (clients p !! configKey config) as [pc |] eqn:Hk;
    [| apply poolOK_GetClient_create; exact Hok].
  destruct (inUse pc); simpl; [apply poolOK_GetClient_create; exact Hok |].
  destruct (conn_Wait env (sshClient (client pc))) as [err |].
  - pose proof (poolOK_GetClient_create env config (configKey config)
                  (set_clients (delete (configKey config) (clients p)) p)) as Hcr.
    destruct (GetClient_create env config (configKey config)
                (set_clients (delete (configKey config) (clients p)) p))
      as [[p' r] evs]. simpl in *. apply Hcr. split; simpl.
    + intros k pc' Hk'. destruct (decide (k = configKey config)) as [-> | Hne].
      * rewrite lookup_delete_eq in Hk'. discriminate.
      * rewrite lookup_delete_ne in Hk' by congruence. eauto.
    + rewrite map_size_delete_Some by eauto.
      destruct Hsize as [Hz | Hcap]; [left | right]; lia.
  - split; simpl.
    + intros k pc' Hk'. destruct (decide (k = configKey config)) as [-> | Hne].
      * rewrite lookup_insert_eq in Hk'. inversion Hk'; subst. simpl. eauto.
      * rewrite lookup_insert_ne in Hk' by congruence. eauto.
    + rewrite map_size_insert_Some by eauto. exact Hsize.
Qed.

End PoolFacts.

Section PoolReuse.
Import Go Spec SSH.

(** When Wait returns an error for the connection of a free entry, the
    entry is deleted and the call goes on as if it had not been there. *)
Lemma GetClient_idle_waited (env : Env) (config : SSHConfig) (p : SSHPool)
    (pc : pooledClient) (err : error) :
  clients p !! configKey config = Some pc ->
  inUse pc = false ->
  conn_Wait env (sshClient (client pc)) = Some err ->
  GetClient env config p =
    (let '(p', r, evs) :=
       GetClient_create env config (configKey config)
         (set_clients (delete (configKey config) (clients p)) p) in
     (p', r, EvWait (sshClient (client pc)) :: evs)).
Proof.
  intros Hk Hfree Hwait. unfold GetClient. rewrite Hk, Hfree. simpl.
  rewrite Hwait. reflexivity.
Qed.

(** A call of the creation path that fails leaves the pool as it was. *)
Lemma GetClient_create_inl (env : Env) (config : SSHConfig) (key : string)
    (p p' : SSHPool) (e : error) (evs : list PoolEvent) :
  GetClient_create env config key p = (p', inl e, evs) -> p' = p.
Proof.
  unfold GetClient_create.
  destruct (maxConns p <=? Z.of_nat (size (clients p))).
  - intros Heq. inversion Heq. reflexivity.
  - destruct (NewSSHClient env config) as [[err | c] evs']; intros Heq;
      inversion Heq. reflexivity.
Qed.

End PoolReuse.

(** C1, where the code departs from it.  Conn.Wait returns only once the
    connection has shut down, with the error of the shutdown, never nil.
    So whenever the pool holds an entry for the config's key that is not in
    use, GetClient calls Wait on the cached connection and, once that has
    returned, deletes the entry and goes on to the capacity check and
    NewSSHClient: the cached session is never handed out again.  A session
    the call returns is the one NewSSHClient has just dialled, stored as a
    new entry; when the call fails, the key is left without an entry.
    When the entry is in use at the start of the call, no Wait is made and
    the call is the creation path as well. *)
Theorem GetClient_never_reuses
    (env : SSH.Env) (config : SSH.SSHConfig) (p : SSH.SSHPool) (pc : SSH.pooledClient) :
  Spec.waitAsLibrary env ->
  SSH.clients p !! SSH.configKey config = Some pc ->
  (SSH.inUse pc = false ->
     let p0 := SSH.set_clients (delete (SSH.configKey config) (SSH.clients p)) p in
     SSH.clients p0 !! SSH.configKey config = None
     /\ SSH.GetClient env config p =
          (let '(p', r, evs) :=
             SSH.GetClient_create env config (SSH.configKey config) p0 in
           (p', r, SSH.EvWait (SSH.sshClient (SSH.client pc)) :: evs))
     /\ (forall p' c evs,
           SSH.GetClient env config p = (p', inr c, evs) ->
           exists evs',
             evs = SSH.EvWait (SSH.sshClient (SSH.client pc)) :: evs'
             /\ SSH.NewSSHClient env config = (inr c, evs')
             /\ length (filter (fun e => SSH.isDial e = true) evs') = 1%nat
             /\ SSH.clients p' !! SSH.configKey config = Some (Spec.freshEntry env c))
     /\ (forall p' e evs,
           SSH.GetClient env config p = (p', inl e, evs) ->
           p' = p0 /\ SSH.clients p' !! SSH.configKey config = None))
  /\ (SSH.inUse pc = true ->
        SSH.GetClient env config p =
          SSH.GetClient_create env config (SSH.configKey config) p
        /\ forall p' c evs,
             SSH.GetClient env config p = (p', inr c, evs) ->
             (SSH.NewSSHClient env config).1 = inr c
             /\ SSH.clients p' !! SSH.configKey config = Some (Spec.freshEntry env c)
             /\ filter (fun e => SSH.isWait e = true) evs = []).
Proof.
  intros Hlib Hk. split.
  - intros Hfree p0.
    destruct (SSH.conn_Wait env (SSH.sshClient (SSH.client pc))) as [err |] eqn:Hwait;
      [| exfalso; exact (Hlib _ Hwait)].
    pose proof (GetClient_idle_waited env config p pc err Hk Hfree Hwait) as Hget.
    fold p0 in Hget.
    assert (Hgone : SSH.clients p0 !! SSH.configKey config = None).
    { apply lookup_delete_eq. }
    split; [exact Hgone |]. split; [exact Hget |]. split.
    + intros p' c evs Hres. rewrite Hget in Hres.
      destruct (SSH.GetClient_create env config (SSH.configKey config) p0)
        as [[p1 r1] evs1] eqn:Hcr.
      inversion Hres; subst.
      apply GetClient_create_inr in Hcr as [Hnew [-> _]].
      exists evs1. split; [reflexivity |]. split; [exact Hnew |]. split.
      * pose proof (NewSSHClient_events env config) as [_ [_ Hone]].
        rewrite Hnew in Hone. exact (Hone c eq_refl).
      * apply lookup_insert_eq.
    + intros p' e evs Hres. rewrite Hget in Hres.
      destruct (SSH.GetClient_create env config (SSH.configKey config) p0)
        as [[p1 r1] evs1] eqn:Hcr.
      inversion Hres; subst.
      apply GetClient_create_inl in Hcr. split; [exact Hcr | rewrite Hcr; exact Hgone].
  - intros Hbusy.
    assert (Hget : SSH.GetClient env config p =
                   SSH.GetClient_create env config (SSH.configKey config) p).
    { unfold SSH.GetClient. rewrite Hk, Hbusy. reflexivity. }
    split; [exact Hget |].
    intros p' c evs Hres. rewrite Hget in Hres.
    apply GetClient_create_inr in Hres as [Hnew [-> _]].
    rewrite Hnew. split; [reflexivity |]. split; [apply lookup_insert_eq |].
    pose proof (NewSSHClient_events env config) as [Hw _]. rewrite Hnew in Hw. exact Hw.
Qed.

Lemma GetClient_never_reuses_witness :
  Spec.waitAsLibrary Toy.envDead
  /\ SSH.GetClient Toy.envDead Toy.config (Toy.poolWith Toy.idleEntry 10) =
       (Toy.poolWith (Spec.freshEntry Toy.envDead (SSH.mkSSHClient 7 8)) 10,
        inr (SSH.mkSSHClient 7 8),
        [SSH.EvWait 3%nat;
         SSH.EvDial "localhost:2222"
           (SSH.mkClientConfig "testuser" [SSH.AuthPassword "testpass"]);
         SSH.EvSftpNewClient 7])
  /\ SSH.GetClient Toy.envDead Toy.config (Toy.poolWith Toy.busyEntry 10) =
       SSH.GetClient_create Toy.envDead Toy.config (SSH.configKey Toy.config)
         (Toy.poolWith Toy.busyEntry 10).
Proof.
  assert (Hlib : Spec.waitAsLibrary Toy.envDead).
  { intros conn Hnil. discriminate Hnil. }
  split; [exact Hlib |]. split.
  - etransitivity.
    + apply (proj1 (proj2 (proj1 (GetClient_never_reuses Toy.envDead Toy.config
                      (Toy.poolWith Toy.idleEntry 10) Toy.idleEntry Hlib
                      (lookup_singleton_eq _ _)) eq_refl))).
    + vm_compute. reflexivity.
  - apply (proj1 (proj2 (GetClient_never_reuses Toy.envDead Toy.config
                      (Toy.poolWith Toy.busyEntry 10) Toy.busyEntry Hlib
                      (lookup_singleton_eq _ _)) eq_refl)).
Defined.

(** C2, as stated, fails: with an empty pool of capacity 10 and a config
    that carries neither a password nor a private key, the key has no entry
    and the pool is below capacity, yet no session is opened and no entry is
    inserted; NewSSHClient's own guard rejects the config and GetClient
    hands that error on. *)
Lemma GetClient_below_capacity_counterexample :
  Spec.reusable Toy.env Toy.emptyPool (SSH.configKey Toy.configNoAuth) = false
  /\ Z.of_nat (size (Spec.afterReuseCheck Toy.emptyPool (SSH.configKey Toy.configNoAuth)))
     < SSH.maxConns Toy.emptyPool
  /\ SSH.GetClient Toy.env Toy.configNoAuth Toy.emptyPool =
       (Toy.emptyPool, inl (SSH.Errorf "no authentication method provided"), [])
  /\ ~ (exists c, (SSH.GetClient Toy.env Toy.configNoAuth Toy.emptyPool).1.2 = inr c)
  /\ SSH.clients (SSH.GetClient Toy.env Toy.configNoAuth Toy.emptyPool).1.1
       !! SSH.configKey Toy.configNoAuth = None.
Proof.
  repeat split; try (vm_compute; reflexivity).
  intros [c Hc]. vm_compute in Hc. discriminate.
Qed.

(** C2, amended.  When the entry of the config's key is not reusable (no
    entry, an entry in use, or a dead entry that has just been removed):
    if the mapping holds at least maxConns entries, GetClient fails at once
    with the pool-at-capacity error, leaves that mapping as it is and dials
    nothing; otherwise it calls NewSSHClient once: when that succeeds,
    exactly one session has been opened and it is inserted under the key as
    a new entry marked in use and returned; when that fails, its error is
    returned and nothing is inserted. *)
Theorem GetClient_admission (env : SSH.Env) (config : SSH.SSHConfig) (p : SSH.SSHPool) :
  Spec.reusable env p (SSH.configKey config) = false ->
  (SSH.maxConns p <= Z.of_nat (size (Spec.afterReuseCheck p (SSH.configKey config))) ->
     SSH.GetClient env config p =
       (SSH.set_clients (Spec.afterReuseCheck p (SSH.configKey config)) p,
        inl (SSH.atCapacityError p),
        Spec.reuseChecks p (SSH.configKey config)))
  /\ (Z.of_nat (size (Spec.afterReuseCheck p (SSH.configKey config))) < SSH.maxConns p ->
        (forall c evs,
           SSH.NewSSHClient env config = (inr c, evs) ->
           SSH.GetClient env config p =
             (SSH.set_clients
                (<[SSH.configKey config := Spec.freshEntry env c]>
                   (Spec.afterReuseCheck p (SSH.configKey config))) p,
              inr c,
              Spec.reuseChecks p (SSH.configKey config) ++ evs)
           /\ length (filter (fun e => SSH.isDial e = true) evs) = 1%nat)
        /\ (forall err evs,
              SSH.NewSSHClient env config = (inl err, evs) ->
              SSH.GetClient env config p =
                (SSH.set_clients (Spec.afterReuseCheck p (SSH.configKey config)) p,
                 inl err,
                 Spec.reuseChecks p (SSH.configKey config) ++ evs))).
Proof.
  intros Hnot.
  set (key := SSH.configKey config) in *.
  assert (Hget : SSH.GetClient env config p =
            (let '(p', r, evs) :=
               SSH.GetClient_create env config key
                 (SSH.set_clients (Spec.afterReuseCheck p key) p) in
             (p', r, Spec.reuseChecks p key ++ evs))).
  { unfold SSH.GetClient, Spec.afterReuseCheck, Spec.reuseChecks, Spec.reusable in *.
    fold key. destruct (SSH.clients p !! key) as [pc |].
    - destruct (SSH.inUse pc); simpl in *.
      + rewrite set_clients_id.
        destruct (SSH.GetClient_create env config key p) as [[? ?] ?]. reflexivity.
      + destruct (SSH.conn_Wait env (SSH.sshClient (SSH.client pc))); [| discriminate].
        destruct (SSH.GetClient_create env config key _) as [[? ?] ?]. reflexivity.
    - rewrite set_clients_id.
      destruct (SSH.GetClient_create env config key p) as [[? ?] ?]. reflexivity. }
  split.
  - intros Hcap. rewrite Hget, GetClient_create_at_capacity by exact Hcap.
    rewrite app_nil_r. reflexivity.
  - intros Hbelow. split.
    + intros c evs Hnew. rewrite Hget, GetClient_create_below by exact Hbelow.
      rewrite Hnew. split; [reflexivity |].
      pose proof (NewSSHClient_events env config) as [_ [_ Hone]].
      rewrite Hnew in Hone. apply (Hone c). reflexivity.
    + intros err evs Hnew. rewrite Hget, GetClient_create_below by exact Hbelow.
      rewrite Hnew. reflexivity.
Qed.

Lemma GetClient_admission_witness :
  SSH.GetClient Toy.env Toy.otherConfig (Toy.poolWith Toy.busyEntry 1) =
    (Toy.poolWith Toy.busyEntry 1,
     inl (SSH.Errorf "connection pool is at capacity (max 1 connections)"), [])
  /\ (SSH.GetClient Toy.env Toy.otherConfig (Toy.poolWith Toy.busyEntry 2)).1.2 =
       inr (SSH.mkSSHClient 7 8)
  /\ SSH.GetClient Toy.env Toy.configNoAuth (Toy.poolWith Toy.busyEntry 2) =
       (Toy.poolWith Toy.busyEntry 2,
        inl (SSH.Errorf "no authentication method provided"), []).
Proof.
  split; [| split].
  - etransitivity.
    + apply (proj1 (GetClient_admission Toy.env Toy.otherConfig
                      (Toy.poolWith Toy.busyEntry 1) eq_refl)).
      vm_compute. discriminate.
    + vm_compute. reflexivity.
  - destruct (proj1 (proj2 (GetClient_admission Toy.env Toy.otherConfig
                      (Toy.poolWith Toy.busyEntry 2) eq_refl)
                      ltac:(vm_compute; reflexivity))
                (SSH.mkSSHClient 7 8) _ eq_refl) as [Hget _].
    rewrite Hget. reflexivity.
  - etransitivity.
    + apply (proj2 (proj2 (GetClient_admission Toy.env Toy.configNoAuth
                      (Toy.poolWith Toy.busyEntry 2) eq_refl)
                      ltac:(vm_compute; reflexivity))
                (SSH.Errorf "no authentication method provided") [] eq_refl).
    + vm_compute. reflexivity.
Defined.



(** C5.  ReleaseClient never fails (it returns nothing but the pool).  If
    the mapping holds an entry for the config's key, that entry gets
    inUse = false and lastUsed = now, keeping its session and close guard,
    and every other entry, maxIdle and maxConns are unchanged; if there is
    no entry for the key, the whole pool is unchanged. *)
Theorem ReleaseClient_frame (tnow : Z) (config : SSH.SSHConfig) (p : SSH.SSHPool) :
  (forall pc,
     SSH.clients p !! SSH.configKey config = Some pc ->
     SSH.clients (SSH.ReleaseClient tnow config p) !! SSH.configKey config
       = Some (Spec.touched tnow false pc)
     /\ (forall k, k <> SSH.configKey config ->
           SSH.clients (SSH.ReleaseClient tnow config p) !! k = SSH.clients p !! k)
     /\ SSH.maxIdle (SSH.ReleaseClient tnow config p) = SSH.maxIdle p
     /\ SSH.maxConns (SSH.ReleaseClient tnow config p) = SSH.maxConns p)
  /\ (SSH.clients p !! SSH.configKey config = None ->
        SSH.ReleaseClient tnow config p = p).
Proof.
  unfold SSH.ReleaseClient. split.
  - intros pc Hk. rewrite Hk. simpl. split; [apply lookup_insert_eq |].
    split; [| split; reflexivity].
    intros k Hne. apply lookup_insert_ne. congruence.
  - intros Hk. rewrite Hk. reflexivity.
Qed.

Lemma ReleaseClient_frame_witness :
  SSH.clients (SSH.ReleaseClient 2000 Toy.config (Toy.poolWith Toy.busyEntry 10))
    !! SSH.configKey Toy.config = Some (Spec.touched 2000 false Toy.busyEntry)
  /\ SSH.ReleaseClient 2000 Toy.otherConfig (Toy.poolWith Toy.busyEntry 10)
     = Toy.poolWith Toy.busyEntry 10.
Proof.
  split.
  - apply (proj1 (ReleaseClient_frame 2000 Toy.config (Toy.poolWith Toy.busyEntry 10))
             Toy.busyEntry (lookup_singleton_eq _ _)).
  - apply (proj2 (ReleaseClient_frame 2000 Toy.otherConfig (Toy.poolWith Toy.busyEntry 10))).
    vm_compute. reflexivity.
Defined.

(** *** configKey *)

Section ConfigKeyFacts.
Import Go Spec SSH.

(** The first half of C3: the key reads nothing but Host, Port and
    Username. *)
Lemma configKey_depends_only (a b : SSHConfig) :
  Host a = Host b -> Port a = Port b -> Username a = Username b ->
  configKey a = configKey b.
Proof. unfold configKey. intros -> -> ->. reflexivity. Qed.

Lemma fmt_d_inj n m : fmt_d n = fmt_d m -> n = m.
Proof.
  unfold fmt_d. intros Heq. apply DecimalZ.to_int_inj.
  pose proof (NilEmpty.isi (Z.to_int n)) as Hn.
  pose proof (NilEmpty.isi (Z.to_int m)) as Hm.
  rewrite Heq in Hn. congruence.
Qed.

Lemma string_of_uint_noColon d : noColon (NilEmpty.string_of_uint d).
Proof.
  unfold noColon. induction d; simpl; intros Hin;
    try (destruct Hin as [Hc | Hin]; [discriminate Hc | auto]); auto.
Qed.

Lemma fmt_d_noColon n : noColon (fmt_d n).
Proof.
  unfold fmt_d. destruct (Z.to_int n) as [d | d]; simpl.
  - apply string_of_uint_noColon.
  - intros [Hc | Hin]; [discriminate Hc | exact (string_of_uint_noColon d Hin)].
Qed.

(** Two strings without ':' that are each followed by ':' and agree as a
    whole agree part by part. *)
Lemma split_at_colon a : forall b x y,
  noColon a -> noColon b ->
  (a ++ ":" ++ x = b ++ ":" ++ y)%string -> a = b /\ x = y.
Proof.
  unfold noColon.
  induction a as [| c a IH]; intros [| c' b] x y Ha Hb Heq; simpl in *.
  - inversion Heq. auto.
  - inversion Heq; subst. exfalso. apply Hb. left. reflexivity.
  - inversion Heq; subst. exfalso. apply Ha. left. reflexivity.
  - inversion Heq; subst.
    destruct (IH b x y) as [-> ->]; auto.
Qed.

(** Among configurations whose Host has no ':', the key is injective in
    (Host, Port, Username). *)
Lemma configKey_inj_noColon (a b : SSHConfig) :
  noColon (Host a) -> noColon (Host b) ->
  configKey a = configKey b ->
  Host a = Host b /\ Port a = Port b /\ Username a = Username b.
Proof.
  unfold configKey. intros Ha Hb Heq.
  apply split_at_colon in Heq as [Hh Heq]; auto.
  apply split_at_colon in Heq as [Hp Hu]; auto using fmt_d_noColon.
  apply fmt_d_inj in Hp. auto.
Qed.

End ConfigKeyFacts.

(** C3, at the failing input: the configurations
    {Host "1::2", Port 3, Username "4:u"} and {Host "1::2:3", Port 4,
    Username "u"} differ in Host, in Port and in Username, and configKey
    gives both the key "1::2:3:4:u"; so a session opened for the first and
    released is handed out for the second. *)
Theorem configKey_collision :
  SSH.configKey Toy.configA = "1::2:3:4:u"%string
  /\ SSH.configKey Toy.configB = "1::2:3:4:u"%string
  /\ SSH.Host Toy.configA <> SSH.Host Toy.configB
  /\ SSH.Port Toy.configA <> SSH.Port Toy.configB
  /\ SSH.Username Toy.configA <> SSH.Username Toy.configB
  /\ (let '(p1, r1, _) := SSH.GetClient Toy.env Toy.configA Toy.emptyPool in
      let p2 := SSH.ReleaseClient 2000 Toy.configA p1 in
      let '(_, r2, evs) := SSH.GetClient Toy.env Toy.configB p2 in
      r1 = inr (SSH.mkSSHClient 7 8) /\ r2 = r1 /\ evs = [SSH.EvWait 7%nat]).
Proof. vm_compute. repeat split; discriminate. Qed.

(** ** ssh_client.go *)

Example toy_GetFileOwnership :
  (SSH.GetFileOwnership Toy.motd Toy.start).2 = inr (SSH.mkFileOwnership "bob" "staff").
Proof. vm_compute. reflexivity. Qed.

Example toy_GetFileAttributes :
  (SSH.GetFileAttributes Toy.motd Toy.start).2 = inr Toy.motdAttributes
  /\ (SSH.GetFileAttributes "/d" Toy.start).2 = inr SSH.noAttributes.
Proof. vm_compute. split; reflexivity. Qed.

Example toy_SetFileAttributes :
  Spec.runCmds (SSH.SetFileAttributes Toy.motd (Some Toy.immutableOnly) Toy.start).1.2
  = [("chattr -A " ++ Toy.dquote ++ "/etc/motd" ++ Toy.dquote)%string].
Proof. vm_compute. reflexivity. Qed.

Example toy_SetFileOwnership :
  Spec.runCmds
    (SSH.SetFileOwnership Toy.motd (Some (SSH.mkFileOwnership "alice" "")) Toy.start).1.2
  = [("chown alice:staff " ++ Toy.dquote ++ "/etc/motd" ++ Toy.dquote)%string].
Proof. vm_compute. reflexivity. Qed.

Example toy_CreateDirectory :
  (SSH.CreateDirectory "/d" 493 Toy.start).2 = inr tt
  /\ (SSH.CreateDirectory Toy.motd 493 Toy.start).2
     = inl (SSH.Errorf "directory /etc/motd already exists").
Proof. vm_compute. split; reflexivity. Qed.

Section ClientFacts.
Import Go Spec SSH.
Context {W : Type} `{RemoteHost W} `{GoStrings}.

Implicit Types (st : St (W := W)) (path : string).

(** *** The monad *)

Lemma bind_inr {A B} (c : M A) (k : A -> M B) st st' a :
  c st = (st', inr a) -> bind c k st = k a st'.
Proof. unfold bind. intros ->. reflexivity. Qed.

Lemma bind_inl {A B} (c : M A) (k : A -> M B) st st' e :
  c st = (st', inl e) -> bind c k st = (st', inl e).
Proof. unfold bind. intros ->. reflexivity. Qed.

Lemma wrap_inr {A} msg (c : M A) st st' a :
  c st = (st', inr a) -> wrap msg c st = (st', inr a).
Proof. unfold wrap. intros ->. reflexivity. Qed.

Lemma wrap_inl {A} msg (c : M A) st st' e :
  c st = (st', inl e) -> wrap msg c st = (st', inl (Errorw msg e)).
Proof. unfold wrap. intros ->. reflexivity. Qed.

Lemma NewSession_ok st w :
  ssh_NewSession st.1 = (w, None) ->
  NewSession st = ((w, st.2 ++ [EvNewSession]), inr tt).
Proof. unfold NewSession. intros ->. reflexivity. Qed.

Lemma Output_ok cmd st w out :
  session_Output cmd st.1 = (w, inr out) ->
  Output cmd st = ((w, st.2 ++ [EvOutput cmd]), inr out).
Proof. unfold Output. intros ->. reflexivity. Qed.

(** *** strings.Contains with a one-byte pattern, and slicing *)

Lemma Contains_byte (s : string) (c : ascii) :
  Contains s (String c EmptyString) = true <-> In c (list_ascii_of_string s).
Proof.
  induction s as [| b s IH]; simpl.
  - split; [discriminate | tauto].
  - assert (Hnil : HasPrefix s EmptyString = true) by (destruct s; reflexivity).
    rewrite Hnil, orb_true_iff, andb_true_r, IH. split.
    + intros [Heq | Hin]; [left; symmetry; apply Ascii.eqb_eq; exact Heq | right; exact Hin].
    + intros [Heq | Hin]; [left; apply Ascii.eqb_eq; auto | right; exact Hin].
Qed.

Lemma substring_firstn (n : nat) (s : string) :
  list_ascii_of_string (substring 0 n s) = firstn n (list_ascii_of_string s).
Proof.
  revert s. induction n as [| n IH]; intros [| c s]; simpl; try reflexivity.
  rewrite IH. reflexivity.
Qed.

Lemma Contains_slice (n : nat) (s : string) (c : ascii) :
  Contains (substring 0 n s) (String c EmptyString) = true <-> In c (firstBytes n s).
Proof. rewrite Contains_byte, substring_firstn. reflexivity. Qed.

End ClientFacts.

(** C10.  When the session opens and the [lsattr -d] command succeeds,
    GetFileAttributes returns attributes and no error, whatever the command
    printed: with fewer than 16 bytes of output all eight flags are false;
    with 16 bytes or more, each flag is true exactly when its letter occurs
    somewhere among the first 16 bytes. *)
Theorem GetFileAttributes_parse {W : Type} `{SSH.RemoteHost W} `{SSH.GoStrings}
    (st : SSH.St (W := W)) (path : string) (w1 w2 : W) (output : string) :
  SSH.ssh_NewSession st.1 = (w1, None) ->
  SSH.session_Output ("lsattr -d " ++ SSH.Quote path)%string w1 = (w2, inr output) ->
  exists attrs,
    SSH.GetFileAttributes path st =
      ((w2, st.2 ++ [SSH.EvNewSession;
                     SSH.EvOutput ("lsattr -d " ++ SSH.Quote path)%string]),
       inr attrs)
    /\ ((String.length output < 16)%nat -> attrs = SSH.noAttributes)
    /\ ((16 <= String.length output)%nat ->
          (SSH.Immutable attrs = true <-> In "i"%char (Spec.firstBytes 16 output))
          /\ (SSH.AppendOnly attrs = true <-> In "a"%char (Spec.firstBytes 16 output))
          /\ (SSH.NoDump attrs = true <-> In "d"%char (Spec.firstBytes 16 output))
          /\ (SSH.Synchronous attrs = true <-> In "S"%char (Spec.firstBytes 16 output))
          /\ (SSH.NoAtime attrs = true <-> In "A"%char (Spec.firstBytes 16 output))
          /\ (SSH.Compressed attrs = true <-> In "c"%char (Spec.firstBytes 16 output))
          /\ (SSH.NoCoW attrs = true <-> In "C"%char (Spec.firstBytes 16 output))
          /\ (SSH.Undeletable attrs = true <-> In "u"%char (Spec.firstBytes 16 output))).
Proof.
  intros Hns Hout. exists (SSH.parseAttributes output). split; [| split].
  - unfold SSH.GetFileAttributes.
    erewrite bind_inr by (apply wrap_inr, NewSession_ok; exact Hns).
    erewrite bind_inr by (apply wrap_inr, Output_ok; exact Hout).
    unfold SSH.ret. simpl. rewrite <- app_assoc. reflexivity.
  - intros Hlt. unfold SSH.parseAttributes.
    destruct (Nat.leb_spec 16 (String.length output)); [lia | reflexivity].
  - intros Hge. unfold SSH.parseAttributes.
    destruct (Nat.leb_spec 16 (String.length output)); [| lia].
    cbn [SSH.Immutable SSH.AppendOnly SSH.NoDump SSH.Synchronous SSH.NoAtime
         SSH.Compressed SSH.NoCoW SSH.Undeletable].
    repeat split; try (apply Contains_slice); try (apply (proj1 (Contains_slice _ _ _)));
      try (apply (proj2 (Contains_slice _ _ _))).
Qed.

Lemma GetFileAttributes_parse_witness :
  (exists attrs,
     (SSH.GetFileAttributes Toy.motd Toy.start).2 = inr attrs
     /\ SSH.Immutable attrs = true)
  /\ (SSH.GetFileAttributes "/d" Toy.start).2 = inr SSH.noAttributes.
Proof.
  split.
  - destruct (@GetFileAttributes_parse _ Toy.host Toy.asciiStrings
                Toy.start Toy.motd Toy.world Toy.world
                ("----i-A--------------- /etc/motd" ++ Toy.nl)%string eq_refl eq_refl)
      as [attrs [Hget [_ Hlong]]].
    exists attrs. split; [rewrite Hget; reflexivity |].
    apply Hlong; [vm_compute; lia |].
    vm_compute. tauto.
  - destruct (@GetFileAttributes_parse _ Toy.host Toy.asciiStrings
                Toy.start "/d" Toy.world Toy.world
                ("--- /d" ++ Toy.nl)%string eq_refl eq_refl)
      as [attrs [Hget [Hshort _]]].
    rewrite Hget. simpl. rewrite Hshort; [reflexivity | vm_compute; lia].
Defined.

Section AttributeFacts.
Import Go Spec SSH.
Context {W : Type} `{RemoteHost W} `{GoStrings}.

Implicit Types (st : St (W := W)) (path : string).

Ltac read_flag flag f :=
  let Hne := fresh "Hne" in
  destruct (String.eqb_spec flag f) as [-> | Hne];
  [rewrite lookup_insert_eq; reflexivity
  | rewrite lookup_insert_ne by congruence; clear Hne].

Lemma mapRead_currentAttrMap (cur : FileAttributes) (flag : string) :
  mapRead (currentAttrMap cur) flag = currentFlag cur flag.
Proof.
  unfold mapRead, currentAttrMap, currentFlag, attrFlags. simpl list_to_map.
  read_flag flag "i"%string. read_flag flag "a"%string. read_flag flag "d"%string.
  read_flag flag "S"%string. read_flag flag "A"%string. read_flag flag "c"%string.
  read_flag flag "C"%string. read_flag flag "u"%string.
  rewrite lookup_empty. reflexivity.
Qed.

Lemma diffAttrs_loop (cur : FileAttributes) (l : list (string * bool)) :
  forall acc : list string * list string,
  fold_left
    (fun (acc : list string * list string) (attr : string * bool) =>
       if attr.2 && negb (mapRead (currentAttrMap cur) attr.1)
       then (acc.1 ++ [attr.1], acc.2)
       else if negb attr.2 && mapRead (currentAttrMap cur) attr.1
       then (acc.1, acc.2 ++ [attr.1])
       else acc)
    l acc
  = (acc.1 ++ map fst (List.filter (fun a : string * bool =>
                                      a.2 && negb (currentFlag cur a.1)) l),
     acc.2 ++ map fst (List.filter (fun a : string * bool =>
                                      negb a.2 && currentFlag cur a.1) l)).
Proof.
  induction l as [| a l IH]; intros acc; simpl.
  - rewrite !app_nil_r. destruct acc; reflexivity.
  - rewrite IH, mapRead_currentAttrMap.
    destruct a.2, (currentFlag cur a.1); simpl; rewrite <- ?app_assoc; reflexivity.
Qed.

(** The loop of SetFileAttributes computes the two sets of the
    specification. *)
Lemma diffAttrs_sets (attrs cur : FileAttributes) :
  diffAttrs attrs cur = (addSet attrs cur, removeSet attrs cur).
Proof. unfold diffAttrs. rewrite diffAttrs_loop. reflexivity. Qed.










End AttributeFacts.



Section OwnershipFacts.
Import Go Spec SSH.
Context {W : Type} `{RemoteHost W} `{GoStrings}.

Implicit Types (st : St (W := W)) (path : string).

(** GetFileOwnership only reads: it opens sessions and runs commands for
    their output, the first of them [ls -ldn] on the path. *)
Lemma GetFileOwnership_reads path st :
  exists reads,
    (GetFileOwnership path st).1.2 = st.2 ++ reads
    /\ runCmds reads = []
    /\ (forall cur, (GetFileOwnership path st).2 = inr cur ->
        exists uid gid,
          reads = [EvNewSession; EvOutput ("ls -ldn " ++ Quote path)%string;
                   EvNewSession;
                   EvOutput ("getent passwd " ++ uid ++ " | cut -d: -f1")%string;
                   EvNewSession;
                   EvOutput ("getent group " ++ gid ++ " | cut -d: -f1")%string]).
Proof.
  unfold GetFileOwnership, bind, wrap, NewSession, Output, ret, fail.
  destruct (ssh_NewSession st.1) as [w1 [e1 |]]; simpl;
    [eexists; split; [reflexivity |]; split; [reflexivity | intros ? Hr; discriminate Hr] |].
  destruct (session_Output _ w1) as [w2 [e2 | out]]; simpl;
    [eexists; split; [rewrite <- !app_assoc; reflexivity |];
     split; [reflexivity | intros ? Hr; discriminate Hr] |].
  destruct (length (Fields out) <? 4)%nat; simpl;
    [eexists; split; [rewrite <- !app_assoc; reflexivity |];
     split; [reflexivity | intros ? Hr; discriminate Hr] |].
  destruct (ssh_NewSession w2) as [w3 [e3 |]]; simpl;
    [eexists; split; [rewrite <- !app_assoc; reflexivity |];
     split; [reflexivity | intros ? Hr; discriminate Hr] |].
  destruct (session_Output _ w3) as [w4 [e4 | userName]]; simpl;
    [eexists; split; [rewrite <- !app_assoc; reflexivity |];
     split; [reflexivity | intros ? Hr; discriminate Hr] |].
  destruct (ssh_NewSession w4) as [w5 [e5 |]]; simpl;
    [eexists; split; [rewrite <- !app_assoc; reflexivity |];
     split; [reflexivity | intros ? Hr; discriminate Hr] |].
  destruct (session_Output _ w5) as [w6 [e6 | groupName]]; simpl;
    (eexists; split; [rewrite <- !app_assoc; reflexivity |]);
    (split; [reflexivity |]); intros cur Hr; [discriminate Hr |].
  eexists _, _. reflexivity.
Qed.

Lemma nonEmpty_true (s : string) : s <> ""%string <-> nonEmpty s = true.
Proof.
  unfold nonEmpty. destruct (String.eqb_spec s ""); simpl; split; intros; congruence.
Qed.

(** The call when one half is given and the current ownership has been
    read: the one command run is the chown of the given half with the
    half that was read. *)
Lemma SetFileOwnership_after_read path (o cur : FileOwnership) st w1 st2 :
  nonEmpty (User o) && nonEmpty (Group o) = false ->
  nonEmpty (User o) || nonEmpty (Group o) = true ->
  ssh_NewSession st.1 = (w1, None) ->
  GetFileOwnership path (w1, st.2 ++ [EvNewSession]) = (st2, inr cur) ->
  let cmd := chownCmd (if nonEmpty (User o) then User o else User cur)
                      (if nonEmpty (Group o) then Group o else Group cur) path in
  SetFileOwnership path (Some o) st =
    (((session_Run cmd st2.1).1, st2.2 ++ [EvRun cmd]),
     match (session_Run cmd st2.1).2 with
     | None => inr tt
     | Some e => inl (Errorw "failed to set file ownership" e)
     end).
Proof.
  intros Hnotboth Hone Hns Hget cmd. unfold SetFileOwnership.
  assert (Hskip : negb (nonEmpty (User o)) && negb (nonEmpty (Group o)) = false).
  { destruct (nonEmpty (User o)), (nonEmpty (Group o)); simpl in *; congruence. }
  rewrite Hskip, Hnotboth.
  erewrite bind_inr by (apply wrap_inr, NewSession_ok; exact Hns).
  assert (Hcmd :
    (if nonEmpty (User o)
     then bind (wrap "failed to get current ownership" (GetFileOwnership path))
            (fun currentOwnership =>
               ret (Some (chownCmd (User o) (Group currentOwnership) path)))
     else if nonEmpty (Group o)
     then bind (wrap "failed to get current ownership" (GetFileOwnership path))
            (fun currentOwnership =>
               ret (Some (chownCmd (User currentOwnership) (Group o) path)))
     else ret None) (w1, st.2 ++ [EvNewSession]) = (st2, inr (Some cmd))).
  { subst cmd.
    destruct (nonEmpty (User o)) eqn:Hu, (nonEmpty (Group o)) eqn:Hg;
      simpl in Hnotboth, Hone; try discriminate;
      erewrite bind_inr by (apply wrap_inr; exact Hget); reflexivity. }
  erewrite bind_inr by exact Hcmd.
  unfold bind, wrap, Run, ret. simpl.
  destruct (session_Run cmd st2.1) as [w3 [e |]]; reflexivity.
Qed.

End OwnershipFacts.

(** C8.  SetFileOwnership with both User and Group empty is a no-op: it
    runs nothing on the host and returns no error.  With exactly one of
    them given, the session open and the current ownership read, the call
    has first read the current ownership (reads only, [ls -ldn] first) and
    then runs exactly one command, the text "chown ", the user, ":", the
    group, " " and the quoted path, whose given half is the one supplied
    and whose other half is the value just read; its error, if any, is the
    call's. *)
Theorem SetFileOwnership_one_half {W : Type} `{SSH.RemoteHost W} `{SSH.GoStrings}
    (st : SSH.St (W := W)) (path : string) (o : SSH.FileOwnership) :
  (SSH.User o = ""%string -> SSH.Group o = ""%string ->
     SSH.SetFileOwnership path (Some o) st = (st, inr tt))
  /\ (forall (w1 : W) (st2 : SSH.St (W := W)) (cur : SSH.FileOwnership),
        SSH.ssh_NewSession st.1 = (w1, None) ->
        SSH.GetFileOwnership path (w1, st.2 ++ [SSH.EvNewSession]) = (st2, inr cur) ->
        forall cmd,
          (SSH.User o <> ""%string /\ SSH.Group o = ""%string
           /\ cmd = ("chown " ++ SSH.User o ++ ":" ++ SSH.Group cur ++ " "
                     ++ SSH.Quote path)%string)
          \/ (SSH.User o = ""%string /\ SSH.Group o <> ""%string
              /\ cmd = ("chown " ++ SSH.User cur ++ ":" ++ SSH.Group o ++ " "
                        ++ SSH.Quote path)%string) ->
          exists reads,
            st2.2 = (st.2 ++ [SSH.EvNewSession]) ++ reads
            /\ Spec.runCmds reads = []
            /\ (SSH.SetFileOwnership path (Some o) st).1.2
                 = (st.2 ++ [SSH.EvNewSession]) ++ reads ++ [SSH.EvRun cmd]
            /\ Spec.runCmds ([SSH.EvNewSession] ++ reads ++ [SSH.EvRun cmd]) = [cmd]
            /\ (SSH.SetFileOwnership path (Some o) st).1.1 = (SSH.session_Run cmd st2.1).1
            /\ (SSH.SetFileOwnership path (Some o) st).2
                 = match (SSH.session_Run cmd st2.1).2 with
                   | None => inr tt
                   | Some e => inl (SSH.Errorw "failed to set file ownership" e)
                   end).
Proof.
  split.
  - intros Hu Hg. unfold SSH.SetFileOwnership, SSH.nonEmpty. rewrite Hu, Hg. reflexivity.
  - intros w1 st2 cur Hns Hget cmd Hcase.
    destruct (GetFileOwnership_reads path (w1, st.2 ++ [SSH.EvNewSession]))
      as [reads [Htr [Hro _]]].
    rewrite Hget in Htr. simpl in Htr.
    assert (Hcall : SSH.SetFileOwnership path (Some o) st =
              (((SSH.session_Run cmd st2.1).1, st2.2 ++ [SSH.EvRun cmd]),
               match (SSH.session_Run cmd st2.1).2 with
               | None => inr tt
               | Some e => inl (SSH.Errorw "failed to set file ownership" e)
               end)).
    { destruct Hcase as [[Hu [Hg ->]] | [Hu [Hg ->]]].
      - apply nonEmpty_true in Hu.
        pose proof (SetFileOwnership_after_read path o cur st w1 st2) as Hl.
        rewrite Hu, Hg in Hl. apply Hl; auto.
      - apply nonEmpty_true in Hg.
        pose proof (SetFileOwnership_after_read path o cur st w1 st2) as Hl.
        rewrite Hu, Hg in Hl. apply Hl; auto. }
    exists reads. rewrite Hcall. simpl. rewrite Htr.
    split; [reflexivity |]. split; [exact Hro |].
    split; [rewrite <- app_assoc; reflexivity |].
    split; [| split; reflexivity].
    unfold Spec.runCmds in *. rewrite omap_app, Hro. reflexivity.
Qed.

Lemma SetFileOwnership_one_half_witness :
  SSH.SetFileOwnership Toy.motd (Some (SSH.mkFileOwnership "" "")) Toy.start
    = (Toy.start, inr tt)
  /\ Spec.runCmds
       (SSH.SetFileOwnership Toy.motd (Some (SSH.mkFileOwnership "alice" "")) Toy.start).1.2
     = [("chown alice:staff " ++ Toy.dquote ++ "/etc/motd" ++ Toy.dquote)%string].
Proof.
  split.
  - apply (proj1 (SetFileOwnership_one_half Toy.start Toy.motd (SSH.mkFileOwnership "" "")));
      reflexivity.
  - assert (Hget : SSH.GetFileOwnership Toy.motd (Toy.world, [SSH.EvNewSession]) =
               ((SSH.GetFileOwnership Toy.motd (Toy.world, [SSH.EvNewSession])).1,
                inr (SSH.mkFileOwnership "bob" "staff"))).
    { vm_compute. reflexivity. }
    assert (Hns : SSH.ssh_NewSession Toy.start.1 = (Toy.world, None)) by reflexivity.
    assert (Hcase :
      SSH.User (SSH.mkFileOwnership "alice" "") <> ""%string
      /\ SSH.Group (SSH.mkFileOwnership "alice" "") = ""%string
      /\ ("chown alice:staff " ++ Toy.dquote ++ "/etc/motd" ++ Toy.dquote)%string =
         ("chown " ++ SSH.User (SSH.mkFileOwnership "alice" "") ++ ":"
          ++ SSH.Group (SSH.mkFileOwnership "bob" "staff") ++ " "
          ++ SSH.Quote Toy.motd)%string).
    { split; [discriminate | split; reflexivity]. }
    destruct (proj2 (SetFileOwnership_one_half Toy.start Toy.motd
                       (SSH.mkFileOwnership "alice" ""))
                Toy.world _ _ Hns Hget
                ("chown alice:staff " ++ Toy.dquote ++ "/etc/motd" ++ Toy.dquote)%string
                (or_introl Hcase))
      as [reads [_ [_ [Htr [Hone _]]]]].
    rewrite Htr. exact Hone.
Defined.

Section DirectoryFacts.
Import Go Spec SSH.
Context {W : Type} `{RemoteHost W}.

Implicit Types (st : St (W := W)) (path : string).

Lemma Perm_mod (m : Z) : Perm m = m mod 512.
Proof.
  unfold Perm, ModePerm. change 511 with (Z.ones 9).
  rewrite Z.land_ones by lia. reflexivity.
Qed.

Lemma Perm_range (m : Z) : 0 <= Perm m <= 511.
Proof. rewrite Perm_mod. pose proof (Z.mod_pos_bound m 512 ltac:(lia)). lia. Qed.

Lemma Perm_small (m : Z) : 0 <= m <= 511 -> Perm m = m.
Proof. intros Hm. rewrite Perm_mod. apply Z.mod_small. lia. Qed.

(** Whatever the host, GetFileMode reports permission bits only. *)
Lemma GetFileMode_range path st m :
  (GetFileMode path st).2 = inr m -> 0 <= m <= 511.
Proof.
  unfold GetFileMode, bind, wrap, Stat, ret. simpl.
  destruct (sftp_Stat path st.1) as [e | fi]; simpl; intros Hr; inversion Hr.
  apply Perm_range.
Qed.

Lemma Exists_Stat_ok path st fi :
  sftp_Stat path st.1 = inr fi ->
  Exists path st = ((st.1, st.2 ++ [EvStat path]), inr true).
Proof. unfold Exists, Stat. intros ->. reflexivity. Qed.

Lemma Exists__Stat_error path st e :
  sftp_Stat path st.1 = inl e ->
  Exists_ path st = ((st.1, st.2 ++ [EvStat path]), inr false).
Proof.
  unfold Exists_, Exists, Stat. intros ->. destruct (os_IsNotExist e); reflexivity.
Qed.

Lemma GetFileMode_Stat_ok path st fi :
  sftp_Stat path st.1 = inr fi ->
  (GetFileMode path st).2 = inr (Perm (fi_Mode fi)).
Proof. unfold GetFileMode, bind, wrap, Stat, ret. simpl. intros ->. reflexivity. Qed.

End DirectoryFacts.

(** The host of [Toy] is an sftp server in the sense of the
    specification. *)
#[global] Instance toy_SftpServer : Spec.SftpServer Toy.World.
Proof.
  constructor. intros path mode w w'. simpl.
  destruct (Toy.files w !! path) as [f |] eqn:Hf; intros Heq; inversion Heq; subst; clear Heq.
  simpl. rewrite lookup_insert_eq. eexists. split; [reflexivity |].
  rewrite !Perm_mod. unfold Toy.modeOf, Toy.ModeDir. simpl.
  destruct f.1.
  - change (2 ^ 31) with (4194304 * 512).
    rewrite Z.add_comm, Z.mod_add by lia. apply Z.mod_mod. lia.
  - simpl Z.add. apply Z.mod_mod. lia.
Qed.

(** C7, as stated, fails: with "/d" absent, CreateDirectory("/d", 01755)
    succeeds and GetFileMode("/d") is then 0755, not 01755; GetFileMode
    masks what it reports with [Perm], so it never reports a mode above
    0777. *)
Lemma CreateDirectory_mode_counterexample :
  SSH.sftp_Stat "/d" Toy.start.1 = inl SSH.ErrNotExist
  /\ (SSH.CreateDirectory "/d" 1005 Toy.start).2 = inr tt
  /\ (SSH.Exists "/d" (SSH.CreateDirectory "/d" 1005 Toy.start).1).2 = inr true
  /\ (SSH.GetFileMode "/d" (SSH.CreateDirectory "/d" 1005 Toy.start).1).2 = inr 493
  /\ (SSH.GetFileMode "/d" (SSH.CreateDirectory "/d" 1005 Toy.start).1).2 <> inr 1005.
Proof. vm_compute. repeat split. discriminate. Qed.

(** C7, amended.  When Stat finds the path, CreateDirectory fails with the
    already-exists error and has made no other call: nothing is created or
    modified.  When Stat does not find it and MkdirAll and Chmod succeed,
    the call has made the directory recursively (MkdirAll), then set the
    mode (Chmod), and returns no error; afterwards Exists(path) is true and
    GetFileMode(path) is the permission bits of the mode, [mode & 0777]:
    the mode itself whenever it has no bit outside 0777. *)
Theorem CreateDirectory_creates_or_rejects
    {W : Type} `{SSH.RemoteHost W} `{!Spec.SftpServer W}
    (st : SSH.St (W := W)) (path : string) (mode : Z) :
  (forall fi,
     SSH.sftp_Stat path st.1 = inr fi ->
     SSH.CreateDirectory path mode st =
       ((st.1, st.2 ++ [SSH.EvStat path]),
        inl (SSH.Errorf ("directory " ++ path ++ " already exists")%string)))
  /\ (forall e (w1 w2 : W),
        SSH.sftp_Stat path st.1 = inl e ->
        SSH.sftp_MkdirAll path st.1 = (w1, None) ->
        SSH.sftp_Chmod path mode w1 = (w2, None) ->
        SSH.CreateDirectory path mode st =
          ((w2, st.2 ++ [SSH.EvStat path; SSH.EvMkdirAll path; SSH.EvChmod path mode]),
           inr tt)
        /\ forall tr,
             (SSH.Exists path (w2, tr)).2 = inr true
             /\ (SSH.GetFileMode path (w2, tr)).2 = inr (Go.Perm mode)
             /\ (0 <= mode <= 511 -> (SSH.GetFileMode path (w2, tr)).2 = inr mode)).
Proof.
  split.
  - intros fi Hstat. unfold SSH.CreateDirectory.
    erewrite bind_inr.
    2: { unfold SSH.Exists_. rewrite (Exists_Stat_ok path st fi Hstat). reflexivity. }
    reflexivity.
  - intros e w1 w2 Hstat Hmk Hch. split.
    + unfold SSH.CreateDirectory.
      erewrite bind_inr by (eapply Exists__Stat_error; exact Hstat).
      cbv beta iota.
      erewrite bind_inr.
      2: { apply wrap_inr. unfold SSH.MkdirAll. simpl. rewrite Hmk. reflexivity. }
      erewrite bind_inr.
      2: { apply wrap_inr. unfold SSH.Chmod. simpl. rewrite Hch. reflexivity. }
      unfold SSH.ret. rewrite <- !app_assoc. reflexivity.
    + intros tr. destruct (Spec.Chmod_then_Stat path mode w1 w2 Hch) as [fi [Hfi Hperm]].
      split; [| split].
      * rewrite (Exists_Stat_ok path (w2, tr) fi Hfi). reflexivity.
      * rewrite (GetFileMode_Stat_ok path (w2, tr) fi Hfi), Hperm. reflexivity.
      * intros Hm. rewrite (GetFileMode_Stat_ok path (w2, tr) fi Hfi), Hperm.
        rewrite Perm_small by exact Hm. reflexivity.
Qed.

Lemma CreateDirectory_creates_or_rejects_witness :
  (SSH.CreateDirectory Toy.motd 493 Toy.start).2
    = inl (SSH.Errorf "directory /etc/motd already exists")
  /\ (SSH.CreateDirectory "/d" 493 Toy.start).2 = inr tt
  /\ forall tr,
       (SSH.GetFileMode "/d" ((SSH.sftp_Chmod "/d" 493
                                 (SSH.sftp_MkdirAll "/d" Toy.world).1).1, tr)).2
       = inr 493.
Proof.
  assert (Hmk : SSH.sftp_MkdirAll "/d" Toy.start.1 =
                ((SSH.sftp_MkdirAll "/d" Toy.world).1, None)).
  { vm_compute. reflexivity. }
  assert (Hch : SSH.sftp_Chmod "/d" 493 (SSH.sftp_MkdirAll "/d" Toy.world).1 =
                ((SSH.sftp_Chmod "/d" 493 (SSH.sftp_MkdirAll "/d" Toy.world).1).1, None)).
  { vm_compute. reflexivity. }
  assert (Hno : SSH.sftp_Stat "/d" Toy.start.1 = inl SSH.ErrNotExist).
  { vm_compute. reflexivity. }
  assert (Hyes : SSH.sftp_Stat Toy.motd Toy.start.1 = inr (SSH.mkFileInfo 420)).
  { vm_compute. reflexivity. }
  split; [| split].
  - rewrite (proj1 (CreateDirectory_creates_or_rejects Toy.start Toy.motd 493) _ Hyes).
    reflexivity.
  - destruct (proj2 (CreateDirectory_creates_or_rejects Toy.start "/d" 493)
                _ _ _ Hno Hmk Hch) as [Hcall _].
    rewrite Hcall. reflexivity.
  - intros tr.
    destruct (proj2 (CreateDirectory_creates_or_rejects Toy.start "/d" 493)
                _ _ _ Hno Hmk Hch) as [_ Hafter].
    apply (Hafter tr). lia.
Defined.

(* ===================================================================== *)
(** * Further properties of the code                                     *)
(* ===================================================================== *)

(** ** ssh_pool.go *)

Section PoolMore.
Import Go Spec SSH Usage.

Implicit Types (p : SSHPool) (pc : pooledClient) (env : Env)
  (config : SSHConfig) (key : string).

Lemma Close_fold_events l : forall m evs,
  (fold_left Close_step l (m, evs)).2 = evs ++ closesOf l.
Proof.
  induction l as [| kv l IH]; intros m evs; simpl.
  - rewrite app_nil_r. reflexivity.
  - unfold Close_step at 2. simpl. rewrite IH, <- app_assoc.
    unfold closeOnce_Do. destruct (closeOnce kv.2); reflexivity.
Qed.

Lemma Close_fold_None l : forall m evs k,
  m !! k = None -> (fold_left Close_step l (m, evs)).1 !! k = None.
Proof.
  induction l as [| kv l IH]; intros m evs k Hk; simpl; [exact Hk |].
  apply IH. simpl. destruct (decide (kv.1 = k)) as [-> | Hne].
  - apply lookup_delete_eq.
  - rewrite lookup_delete_ne by exact Hne. exact Hk.
Qed.

Lemma Close_fold_visited l : forall m evs k pc,
  (k, pc) ∈ l -> (fold_left Close_step l (m, evs)).1 !! k = None.
Proof.
  induction l as [| kv l IH]; intros m evs k pc Hin; simpl.
  - inversion Hin.
  - apply elem_of_cons in Hin as [<- | Hin].
    + apply Close_fold_None. simpl. apply lookup_delete_eq.
    + destruct (Close_step (m, evs) kv) as [m' evs']. eapply IH; eauto.
Qed.

Lemma Close_clients order p :
  validOrder order -> clients (Close order p).1 = ∅.
Proof.
  intros Hord. apply map_eq. intros k. rewrite lookup_empty.
  unfold Close. simpl.
  destruct (clients p !! k) as [pc |] eqn:Hk.
  - eapply Close_fold_visited. rewrite (Hord (clients p)).
    apply elem_of_map_to_list. exact Hk.
  - apply Close_fold_None. exact Hk.
Qed.

Lemma poolOK_Close order p : validOrder order -> poolOK (Close order p).1.
Proof.
  intros Hord. split.
  - intros k pc Hk. rewrite Close_clients in Hk by exact Hord.
    rewrite lookup_empty in Hk. discriminate.
  - left. rewrite Close_clients by exact Hord. apply map_size_empty.
Qed.

Lemma GetClient_create_limits env config key p :
  maxIdle (GetClient_create env config key p).1.1 = maxIdle p
  /\ maxConns (GetClient_create env config key p).1.1 = maxConns p.
Proof.
  unfold GetClient_create.
  destruct (maxConns p <=? Z.of_nat (size (clients p))); [split; reflexivity |].
  destruct (NewSSHClient env config) as [[err | c] evs]; split; reflexivity.
Qed.

Lemma GetClient_limits env config p :
  maxIdle (GetClient env config p).1.1 = maxIdle p
  /\ maxConns (GetClient env config p).1.1 = maxConns p.
Proof.
  unfold GetClient.
  destruct (clients p !! configKey config) as [pc |];
    [| apply GetClient_create_limits].
  destruct (inUse pc); simpl; [apply GetClient_create_limits |].
  destruct (conn_Wait env (sshClient (client pc))); [| split; reflexivity].
  pose proof (GetClient_create_limits env config (configKey config)
                (set_clients (delete (configKey config) (clients p)) p)) as Hl.
  destruct (GetClient_create env config (configKey config)
              (set_clients (delete (configKey config) (clients p)) p)) as [[p' r] evs].
  exact Hl.
Qed.

Lemma stepOp_maxConns order p op : maxConns (stepOp order p op) = maxConns p.
Proof.
  destruct op as [env config | tnow config | tnow |]; simpl; try reflexivity.
  - apply GetClient_limits.
  - unfold ReleaseClient. destruct (clients p !! configKey config); reflexivity.
Qed.

Lemma poolOK_stepOp order p op :
  validOrder order -> poolOK p -> poolOK (stepOp order p op).
Proof.
  intros Hord Hok. destruct op as [env config | tnow config | tnow |]; simpl.
  - apply poolOK_GetClient. exact Hok.
  - apply poolOK_ReleaseClient. exact Hok.
  - apply poolOK_cleanup_tick; assumption.
  - apply poolOK_Close. exact Hord.
Qed.

Lemma runOps_inv order ops : forall p,
  validOrder order -> poolOK p ->
  poolOK (runOps order ops p) /\ maxConns (runOps order ops p) = maxConns p.
Proof.
  unfold runOps. induction ops as [| op ops IH]; intros p Hord Hok; simpl.
  - split; [exact Hok | reflexivity].
  - destruct (IH (stepOp order p op) Hord (poolOK_stepOp order p op Hord Hok)) as [H1 H2].
    split; [exact H1 |]. rewrite H2. apply stepOp_maxConns.
Qed.

End PoolMore.

(** X1.  Whatever sequence of GetClient, ReleaseClient, sweep and Close
    calls a pool made by NewSSHPool goes through, its capacity setting never
    changes, no stored entry has a fired close guard, and the mapping never
    holds more entries than maxConns (it stays empty when maxConns is
    negative). *)
Theorem pool_capacity_invariant (order : SSH.RangeOrder) (pcfg : SSH.PoolConfig)
    (ops : list Usage.PoolOp) :
  Spec.validOrder order ->
  let p := Usage.runOps order ops (SSH.NewSSHPool pcfg) in
  SSH.maxConns p = (if SSH.MaxConns pcfg =? 0 then 10 else SSH.MaxConns pcfg)
  /\ (forall k pc, SSH.clients p !! k = Some pc -> SSH.closeOnce pc = false)
  /\ Z.of_nat (size (SSH.clients p)) <= Z.max 0 (SSH.maxConns p).
Proof.
  intros Hord p.
  destruct (runOps_inv order ops (SSH.NewSSHPool pcfg) Hord (poolOK_NewSSHPool pcfg))
    as [[Hguard Hsize] Hmax].
  fold p in Hguard, Hsize, Hmax.
  split; [rewrite Hmax; reflexivity |]. split; [exact Hguard |].
  destruct Hsize as [Hz | Hcap]; lia.
Qed.

Lemma pool_capacity_invariant_witness :
  (size (SSH.clients
          (Usage.runOps map_to_list
             [Usage.OpGetClient Toy.env Toy.config;
              Usage.OpGetClient Toy.env Toy.otherConfig;
              Usage.OpReleaseClient 2000 Toy.config;
              Usage.OpCleanupTick 400000000000]
             (SSH.NewSSHPool (SSH.mkPoolConfig 0 1)))) <= 1)%nat.
Proof.
  assert (Hord : Spec.validOrder map_to_list) by (intros m; reflexivity).
  pose proof (pool_capacity_invariant map_to_list (SSH.mkPoolConfig 0 1)
                [Usage.OpGetClient Toy.env Toy.config;
                 Usage.OpGetClient Toy.env Toy.otherConfig;
                 Usage.OpReleaseClient 2000 Toy.config;
                 Usage.OpCleanupTick 400000000000] Hord) as [Hmax [_ Hsize]].
  rewrite Hmax in Hsize.
  change (Z.max 0 (if SSH.MaxConns (SSH.mkPoolConfig 0 1) =? 0 then 10
                   else SSH.MaxConns (SSH.mkPoolConfig 0 1))) with 1 in Hsize.
  lia.
Defined.

Section PoolMore2.
Import Go Spec SSH Usage.

Implicit Types (p : SSHPool) (pc : pooledClient) (env : Env)
  (config : SSHConfig) (key : string).

Lemma NewSSHClient_no_teardown env config :
  filter (fun e => isClientClose e = true) (NewSSHClient env config).2 = [].
Proof.
  unfold NewSSHClient.
  repeat match goal with
         | |- context [match ?x with _ => _ end] => destruct x; simpl
         | |- context [if ?x then _ else _] => destruct x; simpl
         end; reflexivity.
Qed.

Lemma GetClient_create_other env config key p k :
  k <> key ->
  clients (GetClient_create env config key p).1.1 !! k = clients p !! k.
Proof.
  intros Hne. unfold GetClient_create.
  destruct (maxConns p <=? Z.of_nat (size (clients p))); [reflexivity |].
  destruct (NewSSHClient env config) as [[err | c] evs]; [reflexivity |].
  simpl. apply lookup_insert_ne. congruence.
Qed.

Lemma GetClient_create_size env config key p :
  (size (clients (GetClient_create env config key p).1.1) <= S (size (clients p)))%nat.
Proof.
  unfold GetClient_create.
  destruct (maxConns p <=? Z.of_nat (size (clients p))); [simpl; lia |].
  destruct (NewSSHClient env config) as [[err | c] evs]; [simpl; lia |].
  simpl. rewrite map_size_insert. destruct (clients p !! key); simpl; lia.
Qed.

Lemma GetClient_create_no_teardown env config key p :
  filter (fun e => isClientClose e = true) (GetClient_create env config key p).2 = [].
Proof.
  unfold GetClient_create.
  destruct (maxConns p <=? Z.of_nat (size (clients p))); [reflexivity |].
  pose proof (NewSSHClient_no_teardown env config) as Hn.
  destruct (NewSSHClient env config) as [[err | c] evs]; exact Hn.
Qed.

(** A session GetClient returns is stored under the key, in use, with the
    time of the call. *)
Lemma GetClient_ok_entry env config p p1 c evs :
  GetClient env config p = (p1, inr c, evs) ->
  exists pc, clients p1 !! configKey config = Some pc
             /\ client pc = c /\ inUse pc = true /\ lastUsed pc = now env.
Proof.
  unfold GetClient.
  destruct (clients p !! configKey config) as [pc |] eqn:Hk.
  - destruct (inUse pc) eqn:Hbusy; simpl.
    + intros Hcr. apply GetClient_create_inr in Hcr as [_ [-> _]].
      eexists. simpl. rewrite lookup_insert_eq. repeat split; reflexivity.
    + destruct (conn_Wait env (sshClient (client pc))) as [err |].
      * destruct (GetClient_create env config (configKey config) _)
          as [[p' r] evs'] eqn:Hcr.
        intros Heq. inversion Heq; subst.
        apply GetClient_create_inr in Hcr as [_ [-> _]].
        eexists. simpl. rewrite lookup_insert_eq. repeat split; reflexivity.
      * intros Heq. inversion Heq; subst.
        eexists. simpl. rewrite lookup_insert_eq. repeat split; reflexivity.
  - intros Hcr. apply GetClient_create_inr in Hcr as [_ [-> _]].
    eexists. simpl. rewrite lookup_insert_eq. repeat split; reflexivity.
Qed.

Lemma cleanup_limits order ticks : forall p,
  maxIdle (cleanup order ticks p).1 = maxIdle p
  /\ maxConns (cleanup order ticks p).1 = maxConns p.
Proof.
  induction ticks as [| t ticks IH]; intros p; [split; reflexivity |].
  cbn [cleanup].
  destruct (cleanup_tick_fields order t p) as [H1 H2].
  destruct (cleanup_tick order t p) as [p1 evs1].
  specialize (IH p1). destruct (cleanup order ticks p1) as [p2 evs2].
  cbn [fst] in *. destruct IH as [IH1 IH2]. split; congruence.
Qed.

End PoolMore2.

(** X2.  GetClient touches one key: every entry stored under another key,
    maxIdle and maxConns are as before the call, and the mapping grows by
    at most one entry. *)
Theorem GetClient_frame (env : SSH.Env) (config : SSH.SSHConfig) (p : SSH.SSHPool) :
  (forall k, k <> SSH.configKey config ->
     SSH.clients (SSH.GetClient env config p).1.1 !! k = SSH.clients p !! k)
  /\ SSH.maxIdle (SSH.GetClient env config p).1.1 = SSH.maxIdle p
  /\ SSH.maxConns (SSH.GetClient env config p).1.1 = SSH.maxConns p
  /\ (size (SSH.clients (SSH.GetClient env config p).1.1) <= S (size (SSH.clients p)))%nat.
Proof.
  split; [| split; [apply GetClient_limits | split; [apply GetClient_limits |]]].
  - intros k Hne. unfold SSH.GetClient.
    destruct (SSH.clients p !! SSH.configKey config) as [pc |] eqn:Hk;
      [| apply GetClient_create_other; exact Hne].
    destruct (SSH.inUse pc); simpl; [apply GetClient_create_other; exact Hne |].
    destruct (SSH.conn_Wait env (SSH.sshClient (SSH.client pc))) as [err |].
    + pose proof (GetClient_create_other env config (SSH.configKey config)
                    (SSH.set_clients (delete (SSH.configKey config) (SSH.clients p)) p)
                    k Hne) as Ho.
      destruct (SSH.GetClient_create env config (SSH.configKey config) _) as [[p' r] evs].
      simpl in *. rewrite Ho. apply lookup_delete_ne. congruence.
    + simpl. apply lookup_insert_ne. congruence.
  - unfold SSH.GetClient.
    destruct (SSH.clients p !! SSH.configKey config) as [pc |] eqn:Hk;
      [| apply GetClient_create_size].
    destruct (SSH.inUse pc); simpl; [apply GetClient_create_size |].
    destruct (SSH.conn_Wait env (SSH.sshClient (SSH.client pc))) as [err |].
    + pose proof (GetClient_create_size env config (SSH.configKey config)
                    (SSH.set_clients (delete (SSH.configKey config) (SSH.clients p)) p)) as Hs.
      destruct (SSH.GetClient_create env config (SSH.configKey config) _) as [[p' r] evs].
      simpl in *. rewrite map_size_delete_Some in Hs by eauto. lia.
    + simpl. rewrite map_size_insert_Some by eauto. lia.
Qed.

Lemma GetClient_frame_witness :
  SSH.clients (SSH.GetClient Toy.env Toy.otherConfig (Toy.poolWith Toy.busyEntry 2)).1.1
    !! SSH.configKey Toy.config = Some Toy.busyEntry.
Proof.
  rewrite (proj1 (GetClient_frame Toy.env Toy.otherConfig (Toy.poolWith Toy.busyEntry 2))
             (SSH.configKey Toy.config)).
  - apply lookup_singleton_eq.
  - vm_compute. discriminate.
Defined.

(** X3.  GetClient never tears a pooled session down: no call it makes is
    a Close of a client, also when it drops a dead entry from the mapping
    or overwrites an entry that is in use. *)
Theorem GetClient_never_closes (env : SSH.Env) (config : SSH.SSHConfig) (p : SSH.SSHPool) :
  filter (fun e => Usage.isClientClose e = true) (SSH.GetClient env config p).2 = [].
Proof.
  unfold SSH.GetClient.
  destruct (SSH.clients p !! SSH.configKey config) as [pc |];
    [| apply GetClient_create_no_teardown].
  destruct (SSH.inUse pc); simpl; [apply GetClient_create_no_teardown |].
  destruct (SSH.conn_Wait env (SSH.sshClient (SSH.client pc))) as [err |]; [| reflexivity].
  pose proof (GetClient_create_no_teardown env config (SSH.configKey config)
                (SSH.set_clients (delete (SSH.configKey config) (SSH.clients p)) p)) as Hn.
  destruct (SSH.GetClient_create env config (SSH.configKey config) _) as [[p' r] evs].
  simpl in *. exact Hn.
Qed.

(** X4.  Acquire, release, acquire.  When GetClient has returned a session
    for a config and ReleaseClient is then called for it, the entry is
    free, with the time of the release.  As Wait returns only the error of
    a shutdown, the next GetClient for that config does not hand the
    session out again: it calls Wait on its connection, deletes the entry
    and takes the creation path; in a pool within its capacity where
    NewSSHClient succeeds, the session just dialled replaces the released
    one in the mapping.  The released session is not closed by the
    pool. *)
Theorem GetClient_after_release (env1 env2 : SSH.Env) (config : SSH.SSHConfig)
    (p : SSH.SSHPool) (c : SSH.SSHClient) (t : Z) :
  Spec.waitAsLibrary env2 ->
  (SSH.GetClient env1 config p).1.2 = inr c ->
  let p2 := SSH.ReleaseClient t config (SSH.GetClient env1 config p).1.1 in
  (exists pc, SSH.clients p2 !! SSH.configKey config = Some pc
              /\ SSH.client pc = c /\ SSH.inUse pc = false /\ SSH.lastUsed pc = t)
  /\ SSH.GetClient env2 config p2 =
       (let '(p', r, evs) :=
          SSH.GetClient_create env2 config (SSH.configKey config)
            (SSH.set_clients (delete (SSH.configKey config) (SSH.clients p2)) p2) in
        (p', r, SSH.EvWait (SSH.sshClient c) :: evs))
  /\ (forall c2 evs2,
        Z.of_nat (size (SSH.clients p2)) <= SSH.maxConns p2 ->
        SSH.NewSSHClient env2 config = (inr c2, evs2) ->
        SSH.GetClient env2 config p2 =
          (SSH.set_clients
             (<[SSH.configKey config := Spec.freshEntry env2 c2]> (SSH.clients p2)) p2,
           inr c2, SSH.EvWait (SSH.sshClient c) :: evs2))
  /\ filter (fun e => Usage.isClientClose e = true) (SSH.GetClient env2 config p2).2 = [].
Proof.
  intros Hlib Hget p2.
  destruct (SSH.GetClient env1 config p) as [[p1 r] evs] eqn:Hg. simpl in Hget. subst r.
  destruct (GetClient_ok_entry _ _ _ _ _ _ Hg) as [pc [Hk [Hc [Hbusy Ht]]]].
  assert (Hk2 : SSH.clients p2 !! SSH.configKey config = Some (Spec.touched t false pc)).
  { subst p2. simpl. unfold SSH.ReleaseClient. rewrite Hk. simpl. apply lookup_insert_eq. }
  split.
  { exists (Spec.touched t false pc). repeat split; auto. }
  destruct (SSH.conn_Wait env2 (SSH.sshClient c)) as [err |] eqn:Hwait;
    [| exfalso; exact (Hlib _ Hwait)].
  assert (Hwait' : SSH.conn_Wait env2 (SSH.sshClient (SSH.client (Spec.touched t false pc)))
                   = Some err).
  { simpl. rewrite Hc. exact Hwait. }
  pose proof (GetClient_idle_waited env2 config p2 (Spec.touched t false pc) err
                Hk2 eq_refl Hwait') as Hget2.
  simpl SSH.client in Hget2. rewrite Hc in Hget2.
  split; [exact Hget2 |]. split.
  - intros c2 evs2 Hsize Hnew. rewrite Hget2.
    rewrite GetClient_create_below.
    + rewrite Hnew. cbn [SSH.clients SSH.set_clients].
      rewrite insert_delete_eq. reflexivity.
    + cbn [SSH.clients SSH.set_clients SSH.maxConns].
      rewrite map_size_delete_Some by eauto.
      assert (Hpos : (0 < size (SSH.clients p2))%nat).
      { destruct (size (SSH.clients p2)) eqn:Hs; [| lia].
        apply map_size_empty_inv in Hs. rewrite Hs, lookup_empty in Hk2. discriminate. }
      destruct p2; simpl in *. lia.
  - rewrite Hget2.
    pose proof (GetClient_create_no_teardown env2 config (SSH.configKey config)
                  (SSH.set_clients (delete (SSH.configKey config) (SSH.clients p2)) p2))
      as Hn.
    destruct (SSH.GetClient_create env2 config (SSH.configKey config) _) as [[p' r'] evs'].
    simpl in *. exact Hn.
Qed.

Lemma GetClient_after_release_witness :
  SSH.GetClient Toy.envDead Toy.config
    (SSH.ReleaseClient 2000 Toy.config
       (SSH.GetClient Toy.env Toy.config Toy.emptyPool).1.1)
  = (let '(p', r, evs) :=
       SSH.GetClient_create Toy.envDead Toy.config (SSH.configKey Toy.config)
         (SSH.set_clients
            (delete (SSH.configKey Toy.config)
               (SSH.clients
                  (SSH.ReleaseClient 2000 Toy.config
                     (SSH.GetClient Toy.env Toy.config Toy.emptyPool).1.1)))
            (SSH.ReleaseClient 2000 Toy.config
               (SSH.GetClient Toy.env Toy.config Toy.emptyPool).1.1)) in
     (p', r, SSH.EvWait (SSH.sshClient (SSH.mkSSHClient 7 8)) :: evs)).
Proof.
  assert (Hlib : Spec.waitAsLibrary Toy.envDead).
  { intros conn Hnil. discriminate Hnil. }
  assert (Hget : (SSH.GetClient Toy.env Toy.config Toy.emptyPool).1.2
                 = inr (SSH.mkSSHClient 7 8)).
  { vm_compute. reflexivity. }
  exact (proj1 (proj2 (GetClient_after_release Toy.env Toy.envDead Toy.config Toy.emptyPool
                         (SSH.mkSSHClient 7 8) 2000 Hlib Hget))).
Defined.

(** X5.  GetClient for a key whose entry is in use, in a pool below
    capacity where NewSSHClient succeeds, overwrites that entry with the
    new session: the mapping keeps its size, the earlier session is no
    longer stored and has not been closed, and the next ReleaseClient for
    the key, whoever calls it, marks the new session's entry as free. *)
Theorem GetClient_overwrites_busy (env : SSH.Env) (config : SSH.SSHConfig)
    (p : SSH.SSHPool) (pc : SSH.pooledClient) (c2 : SSH.SSHClient)
    (evs : list SSH.PoolEvent) :
  SSH.clients p !! SSH.configKey config = Some pc ->
  SSH.inUse pc = true ->
  Z.of_nat (size (SSH.clients p)) < SSH.maxConns p ->
  SSH.NewSSHClient env config = (inr c2, evs) ->
  (SSH.GetClient env config p).1.2 = inr c2
  /\ SSH.clients (SSH.GetClient env config p).1.1 !! SSH.configKey config
       = Some (Spec.freshEntry env c2)
  /\ size (SSH.clients (SSH.GetClient env config p).1.1) = size (SSH.clients p)
  /\ filter (fun e => Usage.isClientClose e = true) (SSH.GetClient env config p).2 = []
  /\ forall t,
       SSH.clients (SSH.ReleaseClient t config (SSH.GetClient env config p).1.1)
         !! SSH.configKey config
       = Some (Spec.touched t false (Spec.freshEntry env c2)).
Proof.
  intros Hk Hbusy Hcap Hnew.
  assert (Hget : SSH.GetClient env config p =
            (SSH.set_clients
               (<[SSH.configKey config := Spec.freshEntry env c2]> (SSH.clients p)) p,
             inr c2, evs)).
  { unfold SSH.GetClient. rewrite Hk, Hbusy. simpl.
    rewrite GetClient_create_below by exact Hcap. rewrite Hnew. reflexivity. }
  rewrite Hget. simpl.
  split; [reflexivity |]. split; [apply lookup_insert_eq |].
  split; [apply map_size_insert_Some; eauto |]. split.
  - pose proof (NewSSHClient_no_teardown env config) as Hn. rewrite Hnew in Hn. exact Hn.
  - intros t. unfold SSH.ReleaseClient. simpl. rewrite lookup_insert_eq. simpl.
    apply lookup_insert_eq.
Qed.

Lemma GetClient_overwrites_busy_witness :
  (SSH.GetClient Toy.env Toy.config (Toy.poolWith Toy.busyEntry 10)).1.2
    = inr (SSH.mkSSHClient 7 8)
  /\ size (SSH.clients (SSH.GetClient Toy.env Toy.config
                          (Toy.poolWith Toy.busyEntry 10)).1.1) = 1%nat.
Proof.
  destruct (GetClient_overwrites_busy Toy.env Toy.config (Toy.poolWith Toy.busyEntry 10)
              Toy.busyEntry (SSH.mkSSHClient 7 8) _
              (lookup_singleton_eq _ _) eq_refl ltac:(vm_compute; reflexivity) eq_refl)
    as [Hr [_ [Hs _]]].
  split; [exact Hr |]. rewrite Hs. apply map_size_singleton.
Defined.

(** X6.  Close, whatever the order of its range, empties the mapping and
    leaves maxIdle and maxConns alone; it calls Close on a client once for
    each stored entry whose guard has not fired, entries in use included;
    the pool is not marked as closed, so a later GetClient is answered as
    by an empty pool. *)
Theorem Close_empties (order : SSH.RangeOrder) (p : SSH.SSHPool) :
  Spec.validOrder order ->
  (SSH.Close order p).1 = SSH.set_clients ∅ p
  /\ (SSH.Close order p).2 = Usage.closesOf (order (SSH.clients p))
  /\ (SSH.Close order p).2 ≡ₚ Usage.closesOf (map_to_list (SSH.clients p))
  /\ (forall c,
        SSH.EvClientClose c ∈ (SSH.Close order p).2 <->
        exists k pc, SSH.clients p !! k = Some pc
                     /\ SSH.closeOnce pc = false /\ SSH.client pc = c)
  /\ (forall env config,
        SSH.GetClient env config (SSH.Close order p).1 =
        SSH.GetClient_create env config (SSH.configKey config) (SSH.set_clients ∅ p)).
Proof.
  intros Hord.
  assert (Hp : (SSH.Close order p).1 = SSH.set_clients ∅ p).
  { pose proof (Close_clients order p Hord) as Hc.
    unfold SSH.Close in *. simpl in *. rewrite Hc. reflexivity. }
  assert (Hev : (SSH.Close order p).2 = Usage.closesOf (order (SSH.clients p))).
  { unfold SSH.Close. simpl. rewrite Close_fold_events. reflexivity. }
  assert (Hperm : (SSH.Close order p).2 ≡ₚ Usage.closesOf (map_to_list (SSH.clients p))).
  { rewrite Hev. unfold Usage.closesOf. apply Permutation_flat_map, Hord. }
  split; [exact Hp |]. split; [exact Hev |]. split; [exact Hperm |]. split.
  - intros c. rewrite Hperm. unfold Usage.closesOf.
    rewrite list_elem_of_In, in_flat_map. split.
    + intros [[k pc] [Hin Hc]]. apply list_elem_of_In, elem_of_map_to_list in Hin.
      simpl in Hc. destruct (SSH.closeOnce pc) eqn:Hg; [destruct Hc |].
      destruct Hc as [Hc | []]. inversion Hc; subst. eauto.
    + intros [k [pc [Hk [Hg Hc]]]]. exists (k, pc). split.
      * apply list_elem_of_In, elem_of_map_to_list. exact Hk.
      * simpl. rewrite Hg, Hc. left. reflexivity.
  - intros env config. rewrite Hp. unfold SSH.GetClient. simpl.
    rewrite lookup_empty. reflexivity.
Qed.

Lemma Close_empties_witness :
  SSH.clients (SSH.Close map_to_list (Toy.poolWith Toy.busyEntry 10)).1 = ∅
  /\ (SSH.Close map_to_list (Toy.poolWith Toy.busyEntry 10)).2
     = [SSH.EvClientClose (SSH.mkSSHClient 3 4)].
Proof.
  assert (Hord : Spec.validOrder map_to_list) by (intros m; reflexivity).
  destruct (Close_empties map_to_list (Toy.poolWith Toy.busyEntry 10) Hord)
    as [Hp [Hev _]].
  split; [rewrite Hp; reflexivity |]. rewrite Hev. vm_compute. reflexivity.
Defined.

(** X7.  The sweep over any number of ticks only removes: an entry is in
    the mapping afterwards exactly when it was there before, unchanged, and
    was at none of the ticks both not in use and idle for more than maxIdle;
    so an entry in use outlives every tick; maxIdle and maxConns stay as
    they were. *)
Theorem cleanup_ticks_keep (order : SSH.RangeOrder) (ticks : list Z) (p : SSH.SSHPool) :
  Spec.validOrder order ->
  (forall k pc,
     SSH.clients (SSH.cleanup order ticks p).1 !! k = Some pc <->
     SSH.clients p !! k = Some pc
     /\ forall t, In t ticks -> ~ Spec.expiredAt t p pc)
  /\ (forall k pc,
        SSH.clients p !! k = Some pc -> SSH.inUse pc = true ->
        SSH.clients (SSH.cleanup order ticks p).1 !! k = Some pc)
  /\ SSH.maxIdle (SSH.cleanup order ticks p).1 = SSH.maxIdle p
  /\ SSH.maxConns (SSH.cleanup order ticks p).1 = SSH.maxConns p.
Proof.
  intros Hord.
  assert (Hiff : forall ticks p k pc,
     SSH.clients (SSH.cleanup order ticks p).1 !! k = Some pc <->
     SSH.clients p !! k = Some pc
     /\ forall t, In t ticks -> ~ Spec.expiredAt t p pc).
  { clear ticks p. induction ticks as [| t ticks IH]; intros p k pc.
    - simpl. split; [intros Hk; split; [exact Hk | intros t []] | intros [Hk _]; exact Hk].
    - assert (Hcons : (SSH.cleanup order (t :: ticks) p).1 =
                      (SSH.cleanup order ticks (SSH.cleanup_tick order t p).1).1).
      { cbn [SSH.cleanup]. destruct (SSH.cleanup_tick order t p) as [p1 evs1].
        cbn [fst]. destruct (SSH.cleanup order ticks p1) as [p2 evs2]. reflexivity. }
      rewrite Hcons, IH, cleanup_tick_lookup by exact Hord.
      assert (Hsame : forall t', Spec.expiredAt t' (SSH.cleanup_tick order t p).1 pc
                                 <-> Spec.expiredAt t' p pc) by (intros t'; reflexivity).
      destruct (SSH.clients p !! k) as [pc' |].
      + destruct (SSH.idleExpired t (SSH.maxIdle p) pc') eqn:Hexp.
        * split; [intros [Hk _]; discriminate |].
          intros [Hk Hall]. inversion Hk; subst. exfalso.
          apply (Hall t); [left; reflexivity | apply idleExpired_iff; exact Hexp].
        * split.
          -- intros [Hk Hall]. inversion Hk; subst. split; [reflexivity |].
             intros t' [<- | Hin].
             ++ rewrite <- idleExpired_iff. congruence.
             ++ rewrite <- Hsame. apply Hall. exact Hin.
          -- intros [Hk Hall]. split; [exact Hk |].
             intros t' Hin. rewrite Hsame. apply Hall. right. exact Hin.
      + split; intros [Hk _]; discriminate. }
  split; [apply Hiff |]. split; [| apply cleanup_limits].
  intros k pc Hk Hbusy. apply Hiff. split; [exact Hk |].
  intros t _ [Hfree _]. congruence.
Qed.

Lemma cleanup_ticks_keep_witness :
  SSH.clients (SSH.cleanup map_to_list [100; 1000; 5000] (Toy.poolWith Toy.busyEntry 10)).1
    !! SSH.configKey Toy.config = Some Toy.busyEntry.
Proof.
  assert (Hord : Spec.validOrder map_to_list) by (intros m; reflexivity).
  apply (proj1 (proj2 (cleanup_ticks_keep map_to_list [100; 1000; 5000]
                         (Toy.poolWith Toy.busyEntry 10) Hord))).
  - apply lookup_singleton_eq.
  - reflexivity.
Defined.

Lemma time_Sub_cases (a b : Z) :
  (Go.maxDuration < a - b /\ Go.time_Sub a b = Go.maxDuration)
  \/ (a - b < Go.minDuration /\ Go.time_Sub a b = Go.minDuration)
  \/ (Go.minDuration <= a - b <= Go.maxDuration /\ Go.time_Sub a b = a - b).
Proof.
  unfold Go.time_Sub.
  destruct (Z.ltb_spec Go.maxDuration (a - b)); [left; split; [assumption | reflexivity] |].
  destruct (Z.ltb_spec (a - b) Go.minDuration);
    [right; left; split; [assumption | reflexivity] |].
  right; right. split; [split; assumption | reflexivity].
Qed.

(** X8.  Release, then sweep.  With maxIdle a duration below the largest
    one, an entry released at time t is reaped by the sweep at time t'
    exactly when t' - t exceeds maxIdle; at t' - t = maxIdle it is kept,
    unchanged.  With maxIdle the largest duration it is never reaped, since
    the difference of two times saturates there. *)
Theorem release_then_sweep (order : SSH.RangeOrder) (config : SSH.SSHConfig)
    (p : SSH.SSHPool) (pc : SSH.pooledClient) (t t' : Z) :
  Spec.validOrder order ->
  SSH.clients p !! SSH.configKey config = Some pc ->
  Go.minDuration <= SSH.maxIdle p <= Go.maxDuration ->
  let after :=
    SSH.clients (SSH.cleanup_tick order t' (SSH.ReleaseClient t config p)).1
      !! SSH.configKey config in
  (SSH.maxIdle p < Go.maxDuration ->
     (after = None <-> SSH.maxIdle p < t' - t)
     /\ (after = Some (Spec.touched t false pc) <-> t' - t <= SSH.maxIdle p))
  /\ (SSH.maxIdle p = Go.maxDuration -> after = Some (Spec.touched t false pc)).
Proof.
  intros Hord Hk Hdur after.
  assert (Hafter : after =
            if SSH.maxIdle p <? Go.time_Sub t' t then None
            else Some (Spec.touched t false pc)).
  { subst after. rewrite cleanup_tick_lookup by exact Hord.
    unfold SSH.ReleaseClient. rewrite Hk. simpl. rewrite lookup_insert_eq.
    unfold SSH.idleExpired. simpl. reflexivity. }
  rewrite Hafter. clear Hafter after.
  destruct (time_Sub_cases t' t) as [[Hd ->] | [[Hd ->] | [Hd ->]]];
    change Go.maxDuration with 9223372036854775807 in *;
    change Go.minDuration with (-9223372036854775808) in *;
    (split; [intros Hlt; split; split; intros Hx | intros Heq]);
    match goal with
    | H : context [?a <? ?b] |- _ => destruct (Z.ltb_spec a b)
    | |- context [?a <? ?b] => destruct (Z.ltb_spec a b)
    end;
    try discriminate Hx; try reflexivity; try lia; try (exfalso; lia).
Qed.

Lemma release_then_sweep_witness :
  SSH.clients (SSH.cleanup_tick map_to_list 2500
                 (SSH.ReleaseClient 2000 Toy.config (Toy.poolWith Toy.busyEntry 10))).1
    !! SSH.configKey Toy.config = Some (Spec.touched 2000 false Toy.busyEntry)
  /\ SSH.clients (SSH.cleanup_tick map_to_list 2501
                    (SSH.ReleaseClient 2000 Toy.config (Toy.poolWith Toy.busyEntry 10))).1
       !! SSH.configKey Toy.config = None.
Proof.
  assert (Hord : Spec.validOrder map_to_list) by (intros m; reflexivity).
  assert (Hdur : Go.minDuration <= SSH.maxIdle (Toy.poolWith Toy.busyEntry 10)
                 <= Go.maxDuration) by (vm_compute; split; discriminate).
  assert (Hlt : SSH.maxIdle (Toy.poolWith Toy.busyEntry 10) < Go.maxDuration)
    by (vm_compute; reflexivity).
  split.
  - apply (proj1 (release_then_sweep map_to_list Toy.config (Toy.poolWith Toy.busyEntry 10)
                    Toy.busyEntry 2000 2500 Hord (lookup_singleton_eq _ _) Hdur) Hlt).
    vm_compute. discriminate.
  - apply (proj1 (release_then_sweep map_to_list Toy.config (Toy.poolWith Toy.busyEntry 10)
                    Toy.busyEntry 2000 2501 Hord (lookup_singleton_eq _ _) Hdur) Hlt).
    vm_compute. reflexivity.
Defined.

(** X9.  NewSSHPool replaces a zero MaxConns by 10 and a zero MaxIdleTime
    by five minutes, and nothing else: with a negative MaxConns the pool
    is at capacity from the start, so that every GetClient, after whatever
    calls came before, fails with the capacity error without dialling and
    the mapping stays empty. *)
Theorem NewSSHPool_negative_capacity (order : SSH.RangeOrder) (pcfg : SSH.PoolConfig)
    (ops : list Usage.PoolOp) (env : SSH.Env) (config : SSH.SSHConfig) :
  Spec.validOrder order ->
  SSH.MaxConns pcfg < 0 ->
  let p := Usage.runOps order ops (SSH.NewSSHPool pcfg) in
  SSH.clients p = ∅
  /\ SSH.GetClient env config p = (p, inl (SSH.atCapacityError p), [])
  /\ SSH.atCapacityError p =
       SSH.Errorf ("connection pool is at capacity (max "
                   ++ Go.fmt_d (SSH.MaxConns pcfg) ++ " connections)")%string.
Proof.
  intros Hord Hneg p.
  destruct (runOps_inv order ops (SSH.NewSSHPool pcfg) Hord (poolOK_NewSSHPool pcfg))
    as [[_ Hsize] Hmax].
  fold p in Hsize, Hmax.
  assert (Hmc : SSH.maxConns p = SSH.MaxConns pcfg).
  { rewrite Hmax. simpl. destruct (Z.eqb_spec (SSH.MaxConns pcfg) 0); [lia | reflexivity]. }
  assert (Hempty : SSH.clients p = ∅).
  { apply map_size_empty_inv. destruct Hsize as [Hz | Hcap]; [exact Hz | lia]. }
  split; [exact Hempty |]. split.
  - unfold SSH.GetClient. rewrite Hempty, lookup_empty.
    apply GetClient_create_at_capacity. rewrite Hempty, map_size_empty. lia.
  - unfold SSH.atCapacityError. rewrite Hmc. reflexivity.
Qed.

Lemma NewSSHPool_negative_capacity_witness :
  SSH.GetClient Toy.env Toy.config (SSH.NewSSHPool (SSH.mkPoolConfig 0 (-1)))
  = (SSH.NewSSHPool (SSH.mkPoolConfig 0 (-1)),
     inl (SSH.Errorf "connection pool is at capacity (max -1 connections)"), []).
Proof.
  assert (Hord : Spec.validOrder map_to_list) by (intros m; reflexivity).
  destruct (NewSSHPool_negative_capacity map_to_list (SSH.mkPoolConfig 0 (-1)) []
              Toy.env Toy.config Hord ltac:(vm_compute; reflexivity)) as [_ [Hget Herr]].
  cbv zeta in Hget, Herr. simpl Usage.runOps in Hget, Herr.
  rewrite Hget, Herr. reflexivity.
Defined.

(** ** ssh_client.go: NewSSHClient *)

(** X10.  NewSSHClient makes no call to the network when the config has
    neither a password nor a private key, and none when its private key
    does not parse, even if a password is given as well: it returns the
    error at once. *)
Theorem NewSSHClient_no_dial (env : SSH.Env) (config : SSH.SSHConfig) :
  (SSH.Password config = ""%string -> SSH.PrivateKey config = ""%string ->
     SSH.NewSSHClient env config =
       (inl (SSH.Errorf "no authentication method provided"), []))
  /\ (forall e,
        SSH.PrivateKey config <> ""%string ->
        SSH.ssh_ParsePrivateKey env (SSH.PrivateKey config) = inl e ->
        SSH.NewSSHClient env config =
          (inl (SSH.Errorw "failed to parse private key" e), [])).
Proof.
  unfold SSH.NewSSHClient. split.
  - intros -> ->. reflexivity.
  - intros e Hne Hparse.
    destruct (String.eqb_spec (SSH.PrivateKey config) ""); [contradiction |].
    rewrite Hparse. reflexivity.
Qed.

Lemma NewSSHClient_no_dial_witness :
  SSH.NewSSHClient Toy.env Toy.configNoAuth =
    (inl (SSH.Errorf "no authentication method provided"), [])
  /\ SSH.NewSSHClient
       (SSH.mkEnv 0 (fun _ => None) (fun _ => inl (SSH.LibError "ssh: no key found"))
          (fun _ => false) (fun _ _ => inr 7%nat) (fun c => inr (S c)))
       (SSH.mkSSHConfig "h" 22 "u" "pw" "garbage") =
     (inl (SSH.Errorw "failed to parse private key" (SSH.LibError "ssh: no key found")), []).
Proof.
  split.
  - apply (proj1 (NewSSHClient_no_dial Toy.env Toy.configNoAuth)); reflexivity.
  - apply (proj2 (NewSSHClient_no_dial _ (SSH.mkSSHConfig "h" 22 "u" "pw" "garbage")));
      [discriminate | reflexivity].
Defined.

(** X11.  When NewSSHClient returns a client, it has dialled exactly once,
    with the config's username and with the password (if any) before the
    key (if any) as authentication methods, then opened the sftp client on
    that connection, and the client holds these two; when the sftp client
    cannot be opened, the connection just dialled is closed again and an
    error is returned. *)
Theorem NewSSHClient_outcome (env : SSH.Env) (config : SSH.SSHConfig) :
  (forall c evs,
     SSH.NewSSHClient env config = (inr c, evs) ->
     exists addr auth,
       evs = [SSH.EvDial addr (SSH.mkClientConfig (SSH.Username config) auth);
              SSH.EvSftpNewClient (SSH.sshClient c)]
       /\ SSH.ssh_Dial env addr (SSH.mkClientConfig (SSH.Username config) auth)
          = inr (SSH.sshClient c)
       /\ SSH.sftp_NewClient env (SSH.sshClient c) = inr (SSH.SftpClient c)
       /\ auth <> []
       /\ exists signer,
            auth = (if String.eqb (SSH.Password config) "" then []
                    else [SSH.AuthPassword (SSH.Password config)])
                   ++ (if String.eqb (SSH.PrivateKey config) "" then []
                       else [SSH.AuthPublicKeys signer]))
  /\ (forall conn addr cfg rest e,
        (SSH.NewSSHClient env config).2 = SSH.EvDial addr cfg :: rest ->
        SSH.ssh_Dial env addr cfg = inr conn ->
        SSH.sftp_NewClient env conn = inl e ->
        SSH.NewSSHClient env config =
          (inl (SSH.Errorw "failed to create SFTP client" e),
           [SSH.EvDial addr cfg; SSH.EvSftpNewClient conn; SSH.EvConnClose conn])).
Proof.
  unfold SSH.NewSSHClient. split.
  - intros c evs.
    destruct (String.eqb (SSH.Password config) "") eqn:Hpw;
      destruct (String.eqb (SSH.PrivateKey config) "") eqn:Hkey; simpl;
      try destruct (SSH.ssh_ParsePrivateKey env (SSH.PrivateKey config)) as [pe | signer];
      simpl; try discriminate;
      match goal with
      | |- context [SSH.ssh_Dial env ?a ?cfg] =>
          destruct (SSH.ssh_Dial env a cfg) as [de | conn] eqn:Hdial; try discriminate;
          destruct (SSH.sftp_NewClient env conn) as [se | sftp] eqn:Hsftp; try discriminate
      end;
      intros Heq; inversion Heq; subst; simpl;
      eexists _, _; (split; [reflexivity |]); (split; [exact Hdial |]);
      (split; [exact Hsftp |]); (split; [discriminate |]);
      first [exists ""%string; reflexivity | eexists; reflexivity].
  - intros conn addr cfg rest e.
    destruct (String.eqb (SSH.Password config) "") eqn:Hpw;
      destruct (String.eqb (SSH.PrivateKey config) "") eqn:Hkey; simpl;
      try destruct (SSH.ssh_ParsePrivateKey env (SSH.PrivateKey config)) as [pe | signer];
      simpl; try discriminate;
      match goal with
      | |- context [SSH.ssh_Dial env ?a ?c] =>
          destruct (SSH.ssh_Dial env a c) as [de | conn'] eqn:Hdial;
          [| destruct (SSH.sftp_NewClient env conn') as [se | sftp] eqn:Hsftp]
      end; simpl;
      intros Hev Hd Hs; inversion Hev; subst; congruence.
Qed.

Lemma NewSSHClient_outcome_witness :
  exists addr auth,
    (SSH.NewSSHClient Toy.env Toy.config).2 =
      [SSH.EvDial addr (SSH.mkClientConfig "testuser" auth); SSH.EvSftpNewClient 7]
    /\ auth <> [].
Proof.
  destruct (proj1 (NewSSHClient_outcome Toy.env Toy.config)
              (SSH.mkSSHClient 7 8) _ eq_refl) as [addr [auth [Hev [_ [_ [Hne _]]]]]].
  exists addr, auth. split; [| exact Hne].
  simpl. inversion Hev; subst. reflexivity.
Defined.

(** ** ssh_client.go: ownership and attributes *)

(** X12.  SetFileOwnership with a nil ownership does nothing.  With both a
    user and a group given it does not read the current ownership: it opens
    one session and runs the one command made of the text "chown ", the
    user, ":", the group, " " and the quoted path, whose failure is the
    call's; if the session cannot be opened nothing is run. *)
Theorem SetFileOwnership_both_given {W : Type} `{SSH.RemoteHost W} `{SSH.GoStrings}
    (st : SSH.St (W := W)) (path : string) (o : SSH.FileOwnership) :
  SSH.SetFileOwnership path None st = (st, inr tt)
  /\ (SSH.User o <> ""%string -> SSH.Group o <> ""%string ->
      let cmd := ("chown " ++ SSH.User o ++ ":" ++ SSH.Group o ++ " "
                  ++ SSH.Quote path)%string in
      (forall w1 e,
         SSH.ssh_NewSession st.1 = (w1, Some e) ->
         SSH.SetFileOwnership path (Some o) st =
           ((w1, st.2 ++ [SSH.EvNewSession]),
            inl (SSH.Errorw "failed to create SSH session" e)))
      /\ (forall w1,
            SSH.ssh_NewSession st.1 = (w1, None) ->
            SSH.SetFileOwnership path (Some o) st =
              (((SSH.session_Run cmd w1).1, st.2 ++ [SSH.EvNewSession; SSH.EvRun cmd]),
               match (SSH.session_Run cmd w1).2 with
               | None => inr tt
               | Some e => inl (SSH.Errorw "failed to set file ownership" e)
               end))).
Proof.
  split; [reflexivity |].
  intros Hu Hg cmd. apply nonEmpty_true in Hu, Hg.
  unfold SSH.SetFileOwnership. rewrite Hu, Hg. simpl. split.
  - intros w1 e Hns. unfold SSH.bind, SSH.wrap, SSH.NewSession. rewrite Hns. reflexivity.
  - intros w1 Hns. unfold SSH.bind, SSH.wrap, SSH.NewSession, SSH.Run, SSH.ret.
    rewrite Hns. simpl.
    change (SSH.chownCmd (SSH.User o) (SSH.Group o) path) with cmd.
    destruct (SSH.session_Run cmd w1) as [w2 [e |]]; simpl; rewrite <- app_assoc; reflexivity.
Qed.

Lemma SetFileOwnership_both_given_witness :
  (SSH.SetFileOwnership Toy.motd (Some (SSH.mkFileOwnership "alice" "staff")) Toy.start).1.2
  = [SSH.EvNewSession;
     SSH.EvRun ("chown alice:staff " ++ Toy.dquote ++ "/etc/motd" ++ Toy.dquote)%string].
Proof.
  assert (Hns : SSH.ssh_NewSession Toy.start.1 = (Toy.world, None)) by reflexivity.
  assert (Hu : SSH.User (SSH.mkFileOwnership "alice" "staff") <> ""%string) by discriminate.
  assert (Hg : SSH.Group (SSH.mkFileOwnership "alice" "staff") <> ""%string) by discriminate.
  rewrite (proj2 (proj2 (SetFileOwnership_both_given Toy.start Toy.motd
                           (SSH.mkFileOwnership "alice" "staff")) Hu Hg) Toy.world Hns).
  reflexivity.
Defined.

(** X13.  With one half of the ownership given, when reading the current
    ownership fails, SetFileOwnership runs no chown at all: it returns the
    read's error, wrapped, with the host as the read left it. *)
Theorem SetFileOwnership_read_fails {W : Type} `{SSH.RemoteHost W} `{SSH.GoStrings}
    (st : SSH.St (W := W)) (path : string) (o : SSH.FileOwnership)
    (w1 : W) (st2 : SSH.St (W := W)) (e : SSH.error) :
  SSH.nonEmpty (SSH.User o) && SSH.nonEmpty (SSH.Group o) = false ->
  SSH.nonEmpty (SSH.User o) || SSH.nonEmpty (SSH.Group o) = true ->
  SSH.ssh_NewSession st.1 = (w1, None) ->
  SSH.GetFileOwnership path (w1, st.2 ++ [SSH.EvNewSession]) = (st2, inl e) ->
  SSH.SetFileOwnership path (Some o) st =
    (st2, inl (SSH.Errorw "failed to get current ownership" e))
  /\ exists reads,
       st2.2 = st.2 ++ SSH.EvNewSession :: reads /\ Spec.runCmds reads = [].
Proof.
  intros Hnotboth Hone Hns Hget. split.
  - unfold SSH.SetFileOwnership.
    assert (Hskip : negb (SSH.nonEmpty (SSH.User o)) && negb (SSH.nonEmpty (SSH.Group o))
                    = false).
    { destruct (SSH.nonEmpty (SSH.User o)), (SSH.nonEmpty (SSH.Group o));
        simpl in *; congruence. }
    rewrite Hskip, Hnotboth.
    erewrite bind_inr by (apply wrap_inr, NewSession_ok; exact Hns).
    erewrite bind_inl; [reflexivity |].
    destruct (SSH.nonEmpty (SSH.User o)), (SSH.nonEmpty (SSH.Group o));
      simpl in Hnotboth, Hone; try discriminate;
      (erewrite bind_inl; [reflexivity | apply wrap_inl; exact Hget]).
  - destruct (GetFileOwnership_reads path (w1, st.2 ++ [SSH.EvNewSession]))
      as [reads [Htr [Hro _]]].
    rewrite Hget in Htr. simpl in Htr. exists reads.
    rewrite Htr, <- app_assoc. split; [reflexivity | exact Hro].
Qed.

Lemma SetFileOwnership_read_fails_witness :
  (SSH.SetFileOwnership "/nowhere" (Some (SSH.mkFileOwnership "alice" "")) Toy.start).2
  = inl (SSH.Errorw "failed to get current ownership"
           (SSH.Errorw "failed to get file ownership"
              (SSH.LibError "Process exited with status 1"))).
Proof.
  assert (Hns : SSH.ssh_NewSession Toy.start.1 = (Toy.world, None)) by reflexivity.
  assert (Hget : SSH.GetFileOwnership "/nowhere" (Toy.world, [] ++ [SSH.EvNewSession]) =
            ((Toy.world, [SSH.EvNewSession; SSH.EvNewSession;
                          SSH.EvOutput ("ls -ldn " ++ SSH.Quote "/nowhere")%string]),
             inl (SSH.Errorw "failed to get file ownership"
                    (SSH.LibError "Process exited with status 1")))).
  { vm_compute. reflexivity. }
  rewrite (proj1 (SetFileOwnership_read_fails Toy.start "/nowhere"
                    (SSH.mkFileOwnership "alice" "") Toy.world _ _
                    eq_refl eq_refl Hns Hget)).
  reflexivity.
Defined.

(** X14.  GetFileOwnership reads the numeric owner and group from the
    third and fourth whitespace-separated fields of the output of
    [ls -ldn]: with fewer than four fields it returns the invalid-format
    error, quoting the output, and runs no further command; otherwise it
    looks these two up with [getent passwd] and [getent group] and, when
    both commands succeed, returns their outputs trimmed. *)
Theorem GetFileOwnership_fields {W : Type} `{SSH.RemoteHost W} `{SSH.GoStrings}
    (st : SSH.St (W := W)) (path : string) (w1 w2 : W) (out : string) :
  SSH.ssh_NewSession st.1 = (w1, None) ->
  SSH.session_Output ("ls -ldn " ++ SSH.Quote path)%string w1 = (w2, inr out) ->
  let st2 : SSH.St (W := W) :=
    (w2, st.2 ++ [SSH.EvNewSession; SSH.EvOutput ("ls -ldn " ++ SSH.Quote path)%string]) in
  ((length (SSH.Fields out) < 4)%nat ->
     SSH.GetFileOwnership path st =
       (st2, inl (SSH.Errorf ("invalid ls output format: " ++ out)%string)))
  /\ ((4 <= length (SSH.Fields out))%nat ->
      forall w3 w4 w5 w6 userName groupName,
        let uidCmd := ("getent passwd " ++ nth 2 (SSH.Fields out) ""
                       ++ " | cut -d: -f1")%string in
        let gidCmd := ("getent group " ++ nth 3 (SSH.Fields out) ""
                       ++ " | cut -d: -f1")%string in
        SSH.ssh_NewSession w2 = (w3, None) ->
        SSH.session_Output uidCmd w3 = (w4, inr userName) ->
        SSH.ssh_NewSession w4 = (w5, None) ->
        SSH.session_Output gidCmd w5 = (w6, inr groupName) ->
        SSH.GetFileOwnership path st =
          ((w6, st2.2 ++ [SSH.EvNewSession; SSH.EvOutput uidCmd;
                          SSH.EvNewSession; SSH.EvOutput gidCmd]),
           inr (SSH.mkFileOwnership (SSH.TrimSpace userName) (SSH.TrimSpace groupName)))).
Proof.
  intros Hns Hout st2. split.
  - intros Hshort. unfold SSH.GetFileOwnership.
    erewrite bind_inr by (apply wrap_inr, NewSession_ok; exact Hns).
    erewrite bind_inr by (apply wrap_inr, Output_ok; exact Hout).
    destruct (Nat.ltb_spec (length (SSH.Fields out)) 4); [| lia].
    unfold SSH.fail, st2. simpl. rewrite <- app_assoc. reflexivity.
  - intros Hlong w3 w4 w5 w6 userName groupName uidCmd gidCmd Hs2 Hu Hs3 Hg.
    unfold SSH.GetFileOwnership.
    erewrite bind_inr by (apply wrap_inr, NewSession_ok; exact Hns).
    erewrite bind_inr by (apply wrap_inr, Output_ok; exact Hout).
    destruct (Nat.ltb_spec (length (SSH.Fields out)) 4); [lia |].
    erewrite bind_inr by (apply wrap_inr, NewSession_ok; exact Hs2).
    erewrite bind_inr by (apply wrap_inr, Output_ok; exact Hu).
    erewrite bind_inr by (apply wrap_inr, NewSession_ok; exact Hs3).
    erewrite bind_inr by (apply wrap_inr, Output_ok; exact Hg).
    unfold SSH.ret, st2. simpl. rewrite <- !app_assoc. reflexivity.
Qed.

Lemma GetFileOwnership_fields_witness :
  (SSH.GetFileOwnership Toy.motd Toy.start).2 = inr (SSH.mkFileOwnership "bob" "staff").
Proof.
  assert (Hns : SSH.ssh_NewSession Toy.start.1 = (Toy.world, None)) by reflexivity.
  assert (Hout : SSH.session_Output ("ls -ldn " ++ SSH.Quote Toy.motd)%string Toy.world
                 = (Toy.world,
                    inr ("-rw-r--r-- 1 1000 50 0 Feb 19 13:23 /etc/motd" ++ Toy.nl)%string)).
  { vm_compute. reflexivity. }
  rewrite (proj2 (GetFileOwnership_fields Toy.start Toy.motd Toy.world Toy.world _ Hns Hout)
             ltac:(vm_compute; lia) Toy.world Toy.world Toy.world Toy.world
             ("bob" ++ Toy.nl)%string ("staff" ++ Toy.nl)%string
             eq_refl ltac:(vm_compute; reflexivity) eq_refl ltac:(vm_compute; reflexivity)).
  vm_compute. reflexivity.
Defined.

(** X15.  SetFileAttributes with nil attributes does nothing.  When flags
    have to be added and the [chattr +] command fails, the call stops with
    that error: no [chattr -] is run, whatever flags were to be removed,
    and nothing is undone. *)
Theorem SetFileAttributes_add_fails {W : Type} `{SSH.RemoteHost W} `{SSH.GoStrings}
    (st st1 : SSH.St (W := W)) (path : string) (attrs cur : SSH.FileAttributes)
    (w2 w3 : W) (e : SSH.error) :
  SSH.SetFileAttributes path None st = (st, inr tt)
  /\ (SSH.GetFileAttributes path st = (st1, inr cur) ->
      Spec.addSet attrs cur <> [] ->
      SSH.ssh_NewSession st1.1 = (w2, None) ->
      SSH.session_Run (SSH.chattrCmd "+" (Spec.addSet attrs cur) path) w2 = (w3, Some e) ->
      SSH.SetFileAttributes path (Some attrs) st =
        ((w3, st1.2 ++ [SSH.EvNewSession;
                        SSH.EvRun (SSH.chattrCmd "+" (Spec.addSet attrs cur) path)]),
         inl (SSH.Errorw "failed to add file attributes" e))).
Proof.
  split; [reflexivity |].
  intros Hget Hadd Hns Hrun. unfold SSH.SetFileAttributes.
  erewrite bind_inr by exact Hget.
  rewrite diffAttrs_sets.
  destruct (Spec.addSet attrs cur) as [| f add] eqn:Ha; [congruence |].
  cbn [length Nat.ltb Nat.leb].
  erewrite bind_inl; [reflexivity |].
  erewrite bind_inr by (apply wrap_inr, NewSession_ok; exact Hns).
  unfold SSH.wrap, SSH.Run. simpl. rewrite Hrun. simpl. rewrite <- app_assoc. reflexivity.
Qed.

Lemma SetFileAttributes_add_fails_witness :
  (@SSH.SetFileAttributes _ ToyFailing.host Toy.asciiStrings "/d"
     (Some Toy.immutableOnly) Toy.start).2
  = inl (SSH.Errorw "failed to add file attributes"
           (SSH.LibError "Operation not permitted")).
Proof.
  assert (Hget : @SSH.GetFileAttributes _ ToyFailing.host Toy.asciiStrings "/d" Toy.start
                 = ((Toy.world, [SSH.EvNewSession;
                                 SSH.EvOutput ("lsattr -d " ++ SSH.Quote "/d")%string]),
                    inr SSH.noAttributes)).
  { vm_compute. reflexivity. }
  assert (Hadd : Spec.addSet Toy.immutableOnly SSH.noAttributes <> []).
  { vm_compute. discriminate. }
  assert (Hns : @SSH.ssh_NewSession _ ToyFailing.host Toy.world = (Toy.world, None))
    by reflexivity.
  assert (Hrun : @SSH.session_Run _ ToyFailing.host
                   (SSH.chattrCmd "+" (Spec.addSet Toy.immutableOnly SSH.noAttributes) "/d")
                   Toy.world
                 = (Toy.world, Some (SSH.LibError "Operation not permitted")))
    by reflexivity.
  rewrite (proj2 (@SetFileAttributes_add_fails _ ToyFailing.host Toy.asciiStrings
                    Toy.start _ "/d" Toy.immutableOnly SSH.noAttributes
                    Toy.world Toy.world _) Hget Hadd Hns Hrun).
  reflexivity.
Defined.

(** ** ssh_client.go: what the attribute difference amounts to *)

Section ChattrFacts.
Import Spec SSH More.

Lemma currentFlag_setFlag v a f g :
  currentFlag (setFlag v a f) g
  = if String.eqb g f && isLetter g then v else currentFlag a g.
Proof.
  unfold isLetter, flagLetters. cbn [existsb].
  destruct (String.eqb_spec g f) as [-> | Hne]; cbn [andb].
  - unfold setFlag, currentFlag.
    repeat match goal with
           | |- context [String.eqb f ?l] =>
               destruct (String.eqb_spec f l) as [-> | ?]; [reflexivity |]
           end.
    reflexivity.
  - unfold setFlag.
    repeat match goal with
           | |- context [String.eqb f ?l] =>
               destruct (String.eqb_spec f l) as [-> | ?];
               [unfold currentFlag; cbn [Immutable AppendOnly NoDump Synchronous NoAtime
                                         Compressed NoCoW Undeletable];
                repeat match goal with
                       | |- context [String.eqb g ?m] =>
                           destruct (String.eqb_spec g m) as [-> | ?];
                           [first [reflexivity | congruence] |]
                       end; reflexivity |]
           end.
    reflexivity.
Qed.

Lemma currentFlag_fold v (l : list string) : forall a g,
  currentFlag (fold_left (setFlag v) l a) g
  = if existsb (String.eqb g) l && isLetter g then v else currentFlag a g.
Proof.
  induction l as [| f l IH]; intros a g; cbn [fold_left existsb].
  - reflexivity.
  - rewrite IH, currentFlag_setFlag.
    destruct (existsb (String.eqb g) l), (String.eqb g f), (isLetter g); reflexivity.
Qed.

Lemma existsb_map_filter (P : string * bool -> bool) g (l : list (string * bool)) :
  existsb (String.eqb g) (map fst (List.filter P l))
  = existsb (fun a => String.eqb g a.1 && P a) l.
Proof.
  induction l as [| a l IH]; [reflexivity |].
  cbn [List.filter existsb]. destruct (P a); cbn [map existsb]; rewrite IH.
  - rewrite andb_true_r. reflexivity.
  - rewrite andb_false_r. reflexivity.
Qed.

Lemma FileAttributes_ext (a b : FileAttributes) :
  Forall (fun g => currentFlag a g = currentFlag b g) flagLetters -> a = b.
Proof.
  intros Hall. unfold flagLetters in Hall.
  repeat match goal with
         | H : Forall _ (_ :: _) |- _ => apply Forall_cons_iff in H as [? H]
         end.
  destruct a, b. unfold currentFlag in *. simpl in *. congruence.
Qed.

Lemma applyChattr_flag attrs cur g :
  In g flagLetters ->
  currentFlag (applyChattr (addSet attrs cur) (removeSet attrs cur) cur) g
  = currentFlag attrs g.
Proof.
  intros Hin. unfold applyChattr. rewrite !currentFlag_fold.
  unfold addSet, removeSet. rewrite !existsb_map_filter.
  unfold flagLetters in Hin. cbn [In] in Hin.
  destruct attrs as [a1 a2 a3 a4 a5 a6 a7 a8], cur as [c1 c2 c3 c4 c5 c6 c7 c8].
  repeat (destruct Hin as [<- | Hin];
          [vm_compute;
           repeat match goal with
                  | |- context [if ?b then _ else _] => is_var b; destruct b
                  | |- context [negb ?b] => is_var b; destruct b
                  end; reflexivity |]).
  destruct Hin.
Qed.

End ChattrFacts.

(** X16.  The difference computed by SetFileAttributes is the right one:
    setting the flags it adds and clearing the flags it removes turns the
    current flags into the desired ones, whatever the two are; and no flag
    is both added and removed. *)
Theorem diffAttrs_reaches_desired (attrs cur : SSH.FileAttributes) :
  More.applyChattr (SSH.diffAttrs attrs cur).1 (SSH.diffAttrs attrs cur).2 cur = attrs
  /\ forall flag, In flag (SSH.diffAttrs attrs cur).1 ->
                  ~ In flag (SSH.diffAttrs attrs cur).2.
Proof.
  rewrite diffAttrs_sets. cbn [fst snd]. split.
  - apply FileAttributes_ext, Forall_forall. intros g Hg.
    apply applyChattr_flag. apply list_elem_of_In. exact Hg.
  - intros flag Hadd Hrem. unfold Spec.addSet, Spec.removeSet in *.
    apply in_map_iff in Hadd as [[f v] [Hf Hin]].
    apply in_map_iff in Hrem as [[f' v'] [Hf' Hin']].
    apply List.filter_In in Hin as [_ Hp]. apply List.filter_In in Hin' as [_ Hp'].
    simpl in *. subst f f'.
    destruct (Spec.currentFlag cur flag), v, v'; simpl in *; discriminate.
Qed.

Lemma diffAttrs_reaches_desired_witness :
  ~ In "i"%string (SSH.diffAttrs Toy.immutableOnly SSH.noAttributes).2.
Proof.
  apply (proj2 (diffAttrs_reaches_desired Toy.immutableOnly SSH.noAttributes) "i"%string).
  vm_compute. left. reflexivity.
Defined.

(** ** util.go and the permissions the resources write back *)

Section PermissionsMore.
Import Go Spec SSH.

Lemma byte_octDigit d : 0 <= d < 8 -> byte (octDigit d) = 48 + d.
Proof.
  intros Hd. unfold byte, octDigit.
  rewrite nat_ascii_embedding by lia. lia.
Qed.

Lemma isOctDigit_octDigit d : 0 <= d < 8 -> isOctDigit (octDigit d) = true.
Proof.
  intros Hd. unfold isOctDigit. rewrite byte_octDigit by assumption.
  apply andb_true_iff. split; apply Z.leb_le; lia.
Qed.

(** The digit loop of [%o] writes octal digits that denote the number. *)
Lemma fmtOct_loop_value fuel : forall u,
  0 <= u < 8 ^ Z.of_nat (S fuel) ->
  forallb isOctDigit (rev (fmtOct_loop (S fuel) u)) = true
  /\ octalFrom 0 (rev (fmtOct_loop (S fuel) u)) = u
  /\ fmtOct_loop (S fuel) u <> [].
Proof.
  induction fuel as [| fuel IH]; intros u Hu.
  - change (8 ^ Z.of_nat 1) with 8 in Hu. simpl.
    destruct (Z.leb_spec 8 u) as [Hge | Hlt]; [lia |].
    simpl. rewrite isOctDigit_octDigit, byte_octDigit by lia.
    repeat split; [unfold octalFrom; simpl; lia | discriminate].
  - rewrite Nat2Z.inj_succ, Z.pow_succ_r in Hu by lia.
    remember (S fuel) as fuel1 eqn:Hf1. cbn [fmtOct_loop].
    destruct (Z.leb_spec 8 u) as [Hge | Hlt].
    + assert (Hland : Z.land u 7 = u mod 8).
      { change 7 with (Z.ones 3). rewrite Z.land_ones by lia. reflexivity. }
      assert (Hshr : Z.shiftr u 3 = u / 8).
      { rewrite Z.shiftr_div_pow2 by lia. reflexivity. }
      rewrite Hland, Hshr.
      pose proof (Z.mod_pos_bound u 8 ltac:(lia)) as Hm.
      pose proof (Z.div_mod u 8 ltac:(lia)) as Hdm.
      destruct (IH (u / 8)) as [Hall [Hval Hne]].
      { split; [apply Z.div_pos; lia | apply Z.div_lt_upper_bound; lia]. }
      simpl rev. rewrite forallb_app, octalFrom_snoc, Hall, Hval.
      simpl. rewrite isOctDigit_octDigit, byte_octDigit by assumption.
      repeat split; [lia | discriminate].
    + simpl. rewrite isOctDigit_octDigit, byte_octDigit by lia.
      repeat split; [unfold octalFrom; simpl; lia | discriminate].
Qed.

Lemma octalFrom_zeros n ds :
  octalFrom 0 (repeat "0"%char n ++ ds) = octalFrom 0 ds.
Proof. induction n as [| n IH]; [reflexivity | exact IH]. Qed.

Lemma forallb_zeros n : forallb isOctDigit (repeat "0"%char n) = true.
Proof. induction n as [| n IH]; [reflexivity | exact IH]. Qed.

(** What [%04o] writes is a string of octal digits that denotes the
    number. *)
Lemma fmt_04o_value u :
  0 <= u < 2 ^ 64 ->
  validOctal (fmt_04o u) = true /\ octalValue (fmt_04o u) = u.
Proof.
  intros Hu.
  assert (Hb : 0 <= u < 8 ^ Z.of_nat 22).
  { assert (Hle : 2 ^ 64 <= 8 ^ Z.of_nat 22) by (vm_compute; discriminate). lia. }
  destruct (fmtOct_loop_value 21 u Hb) as [Hall [Hval Hne]].
  unfold validOctal, octalValue, fmt_04o, zeroPad, fmt_o_digits.
  remember (fmtOct_loop 22 u) as ds eqn:Hds. clear Hds.
  rewrite list_ascii_of_string_of_list_ascii, forallb_app, forallb_zeros, Hall,
    octalFrom_zeros, Hval.
  split; [| reflexivity].
  rewrite andb_true_r. apply negb_true_iff, String.eqb_neq.
  intros Hempty. apply (f_equal list_ascii_of_string) in Hempty.
  rewrite list_ascii_of_string_of_list_ascii in Hempty.
  change (list_ascii_of_string "") with (@nil ascii) in Hempty.
  apply app_eq_nil in Hempty as [_ Hrev].
  apply (f_equal (@rev ascii)) in Hrev. rewrite rev_involutive in Hrev.
  exact (Hne Hrev).
Qed.

Lemma length_fmt_04o_perm :
  forallb (fun n => (String.length (fmt_04o (Z.of_nat n)) =? 4)%nat) (seq 0 512) = true.
Proof. vm_compute. reflexivity. Qed.

Lemma length_fmt_04o u : 0 <= u <= 511 -> String.length (fmt_04o u) = 4%nat.
Proof.
  intros Hu. pose proof length_fmt_04o_perm as Hall.
  rewrite forallb_forall in Hall.
  specialize (Hall (Z.to_nat u)). rewrite Z2Nat.id in Hall by lia.
  apply Nat.eqb_eq, Hall, in_seq. lia.
Qed.

End PermissionsMore.

(** X17.  Parsing what [%04o] wrote gives the number back: for every mode
    below 2^32, ParsePermissions of the string the resources store for it
    is that mode.  So the permissions a Read puts in the state are read
    back unchanged by the next Create or Update. *)
Theorem ParsePermissions_fmt_04o (mode : Z) :
  0 <= mode < 2 ^ 32 -> SSH.ParsePermissions (Go.fmt_04o mode) = mode.
Proof.
  intros Hm.
  destruct (fmt_04o_value mode) as [Hv Hval]; [lia |].
  rewrite ParsePermissions_in_range by (rewrite ?Hval; auto; lia).
  exact Hval.
Qed.

Lemma ParsePermissions_fmt_04o_witness :
  SSH.ParsePermissions (Go.fmt_04o 493) = 493.
Proof. apply (ParsePermissions_fmt_04o 493). lia. Defined.

(** X18.  A leading zero changes nothing: for every non-empty string P,
    ParsePermissions("0" ++ P) = ParsePermissions(P), whether P is valid
    or not.  The empty string is the one exception: it gives the default
    0644, and "0" gives 0. *)
Theorem ParsePermissions_leading_zero (P : string) :
  P <> ""%string ->
  SSH.ParsePermissions (String "0" P) = SSH.ParsePermissions P
  /\ SSH.ParsePermissions "" = 420
  /\ SSH.ParsePermissions "0" = 0.
Proof.
  intros Hne. split; [| split; reflexivity].
  destruct P as [| c s]; [contradiction |]. reflexivity.
Qed.

Lemma ParsePermissions_leading_zero_witness :
  SSH.ParsePermissions "0755" = SSH.ParsePermissions "755".
Proof.
  apply (proj1 (ParsePermissions_leading_zero "755" ltac:(discriminate))).
Defined.

(** X19.  When a Read gets the mode of the path, the permissions string it
    writes to the state has exactly four characters, the octal digits of
    the permission bits (at most 0777, whatever type bits the host
    reports), and ParsePermissions reads the same bits back from it. *)
Theorem Read_permissions_four_digits {W : Type} `{SSH.RemoteHost W}
    (summaryText detailText path : string) (st : SSH.St (W := W)) (s : string) :
  (Provider.Read_permissions summaryText detailText path st).2 = inr s ->
  exists fi,
    SSH.sftp_Stat path st.1 = inr fi
    /\ s = Go.fmt_04o (SSH.fi_Mode fi mod 512)
    /\ String.length s = 4%nat
    /\ SSH.ParsePermissions s = SSH.fi_Mode fi mod 512.
Proof.
  unfold Provider.Read_permissions.
  destruct (SSH.GetFileMode path st) as [st' [err | mode]] eqn:Hget;
    simpl; intros Hs; [discriminate Hs |].
  inversion Hs; subst s; clear Hs.
  unfold SSH.GetFileMode, SSH.bind, SSH.wrap, SSH.Stat, SSH.ret in Hget.
  destruct (SSH.sftp_Stat path st.1) as [e | fi] eqn:Hstat; simpl in Hget;
    inversion Hget; subst.
  exists fi. rewrite Perm_mod.
  pose proof (Z.mod_pos_bound (SSH.fi_Mode fi) 512 ltac:(lia)) as Hb.
  repeat split.
  - apply length_fmt_04o. lia.
  - apply ParsePermissions_fmt_04o. lia.
Qed.

Lemma Read_permissions_four_digits_witness :
  exists fi,
    SSH.sftp_Stat Toy.motd Toy.start.1 = inr fi
    /\ "0644"%string = Go.fmt_04o (SSH.fi_Mode fi mod 512)
    /\ String.length "0644" = 4%nat
    /\ SSH.ParsePermissions "0644" = SSH.fi_Mode fi mod 512.
Proof.
  assert (Hr : (@Provider.Read_permissions _ Toy.host "Error reading file"
                  "Could not get file permissions: " Toy.motd Toy.start).2
               = inr "0644"%string).
  { vm_compute. reflexivity. }
  exact (@Read_permissions_four_digits _ Toy.host _ _ _ _ _ Hr).
Defined.

(** ** The callers: getClient and the handlers *)

(** X20.  Among configurations whose Host has no ':' the pool key is
    exact: two of them have the same key if and only if they agree on
    Host, Port and Username. *)
Theorem configKey_exact_noColon (a b : SSH.SSHConfig) :
  Spec.noColon (SSH.Host a) -> Spec.noColon (SSH.Host b) ->
  (SSH.configKey a = SSH.configKey b
   <-> SSH.Host a = SSH.Host b /\ SSH.Port a = SSH.Port b
       /\ SSH.Username a = SSH.Username b).
Proof.
  intros Ha Hb. split.
  - apply configKey_inj_noColon; assumption.
  - intros [Hh [Hp Hu]]. apply configKey_depends_only; assumption.
Qed.

Lemma configKey_exact_noColon_witness :
  SSH.configKey Toy.config = SSH.configKey Toy.otherConfig
  <-> SSH.Host Toy.config = SSH.Host Toy.otherConfig
      /\ SSH.Port Toy.config = SSH.Port Toy.otherConfig
      /\ SSH.Username Toy.config = SSH.Username Toy.otherConfig.
Proof.
  apply (configKey_exact_noColon Toy.config Toy.otherConfig).
  - vm_compute. intros Hin. repeat (destruct Hin as [Hc | Hin]; [discriminate Hc |]).
    exact Hin.
  - vm_compute. intros Hin. repeat (destruct Hin as [Hc | Hin]; [discriminate Hc |]).
    exact Hin.
Defined.

(** X21.  The config that getClient builds never has port 0: a null port
    and a port 0 both become 22.  The credentials of the block play no
    part in the pool key: two blocks that agree on host, username and port
    (after that replacement) get the same key whatever their passwords and
    keys, and for hosts without ':' only such blocks do.  So a
    ReleaseClient made for one block frees the entry that a handler took
    with the other. *)
Theorem getClient_key_ignores_credentials (b1 b2 : Provider.SSHBlockModel) :
  let cfg1 := Provider.getClient_config b1 in
  let cfg2 := Provider.getClient_config b2 in
  SSH.Port cfg2 <> 0
  /\ (Provider.Port b2 = None \/ Provider.Port b2 = Some 0 -> SSH.Port cfg2 = 22)
  /\ (Provider.ValueString (Provider.Host b1) = Provider.ValueString (Provider.Host b2) ->
      Provider.ValueString (Provider.Username b1)
        = Provider.ValueString (Provider.Username b2) ->
      SSH.Port cfg1 = SSH.Port cfg2 ->
      SSH.configKey cfg1 = SSH.configKey cfg2
      /\ forall (p : SSH.SSHPool) (pc : SSH.pooledClient) (t : Z),
           SSH.clients p !! SSH.configKey cfg1 = Some pc ->
           SSH.clients (SSH.ReleaseClient t cfg2 p) !! SSH.configKey cfg1
           = Some (Spec.touched t false pc))
  /\ (Spec.noColon (Provider.ValueString (Provider.Host b1)) ->
      Spec.noColon (Provider.ValueString (Provider.Host b2)) ->
      SSH.configKey cfg1 = SSH.configKey cfg2 ->
      Provider.ValueString (Provider.Host b1) = Provider.ValueString (Provider.Host b2)
      /\ Provider.ValueString (Provider.Username b1)
         = Provider.ValueString (Provider.Username b2)
      /\ SSH.Port cfg1 = SSH.Port cfg2).
Proof.
  intros cfg1 cfg2. split; [| split; [| split]].
  - subst cfg2. unfold Provider.getClient_config. simpl.
    destruct (Z.eqb_spec (Provider.ValueInt64 (Provider.Port b2)) 0);
      [discriminate | assumption].
  - intros [Hp | Hp]; subst cfg2; unfold Provider.getClient_config; rewrite Hp; reflexivity.
  - intros Hh Hu Hp.
    assert (Hkey : SSH.configKey cfg1 = SSH.configKey cfg2).
    { apply configKey_depends_only; assumption. }
    split; [exact Hkey |].
    intros p pc t Hk. unfold SSH.ReleaseClient. rewrite <- Hkey, Hk. simpl.
    apply lookup_insert_eq.
  - intros Hc1 Hc2 Hkey.
    destruct (configKey_inj_noColon cfg1 cfg2 Hc1 Hc2 Hkey) as [Hh [Hp Hu]].
    auto.
Qed.

Lemma getClient_key_ignores_credentials_witness :
  SSH.configKey (Provider.getClient_config ToyFiles.block)
  = SSH.configKey (Provider.getClient_config ToyFiles.block22).
Proof.
  exact (proj1 (proj1 (proj2 (proj2 (getClient_key_ignores_credentials
                                       ToyFiles.block ToyFiles.block22)))
                  eq_refl eq_refl eq_refl)).
Defined.

(** X22.  The Delete handlers report every failure of the removal, also
    "not found": DeleteFile and DeleteDirectory wrap the error of the sftp
    client, os.IsNotExist does not look through the wrapping, so the branch
    for a file that is already gone is never taken.  Delete adds no
    diagnostic exactly when the removal succeeded. *)
Theorem Delete_reports_not_found {W : Type} `{SSH.RemoteHost W} `{Files.SftpFiles W}
    (path : string) (st : Files.FSt (W := W)) :
  (forall w e,
     Files.sftp_Remove path st.1 = (w, Some e) ->
     Provider.FileResource_Delete path st =
       ((w, st.2 ++ [Files.EvRemove path]),
        [Provider.mkDiagnostic "Error deleting file"
           ("Could not delete file: failed to delete file: "
            ++ Provider.errorString e)%string]))
  /\ (forall w e,
        Files.sftp_RemoveAll path st.1 = (w, Some e) ->
        Provider.DirectoryResource_Delete path st =
          ((w, st.2 ++ [Files.EvRemoveAll path]),
           [Provider.mkDiagnostic "Error deleting directory"
              ("Could not delete directory: failed to delete directory: "
               ++ Provider.errorString e)%string]))
  /\ ((Provider.FileResource_Delete path st).2 = []
      <-> (Files.sftp_Remove path st.1).2 = None)
  /\ ((Provider.DirectoryResource_Delete path st).2 = []
      <-> (Files.sftp_RemoveAll path st.1).2 = None).
Proof.
  unfold Provider.FileResource_Delete, Provider.DirectoryResource_Delete,
    Files.DeleteFile, Files.DeleteDirectory, Files.fbind, Files.fwrap,
    Files.Remove, Files.RemoveAll, Files.fret.
  repeat split.
  - intros w e ->. reflexivity.
  - intros w e ->. reflexivity.
  - destruct (Files.sftp_Remove path st.1) as [w [e |]]; simpl;
      [intros Hd; discriminate Hd | reflexivity].
  - destruct (Files.sftp_Remove path st.1) as [w [e |]]; simpl;
      [intros Hd; discriminate Hd | reflexivity].
  - destruct (Files.sftp_RemoveAll path st.1) as [w [e |]]; simpl;
      [intros Hd; discriminate Hd | reflexivity].
  - destruct (Files.sftp_RemoveAll path st.1) as [w [e |]]; simpl;
      [intros Hd; discriminate Hd | reflexivity].
Qed.

Lemma Delete_reports_not_found_witness :
  (@Provider.FileResource_Delete _ ToyFiles.files "/gone" ToyFiles.start).2
  = [Provider.mkDiagnostic "Error deleting file"
       "Could not delete file: failed to delete file: file does not exist"].
Proof.
  assert (Hrm : @Files.sftp_Remove _ ToyFiles.files "/gone" ToyFiles.start.1
                = (Toy.world, Some SSH.ErrNotExist)).
  { vm_compute. reflexivity. }
  rewrite (proj1 (@Delete_reports_not_found _ Toy.host ToyFiles.files "/gone" ToyFiles.start)
             Toy.world SSH.ErrNotExist Hrm).
  reflexivity.
Defined.

(** X23.  Create of the directory resource, at the step that makes the
    directory.  When Stat finds the path, whatever is there is taken as
    the directory: nothing is created, no permissions are set and no
    diagnostic is added.  When Stat fails, for whatever reason,
    CreateDirectory is called with ParsePermissions of the planned
    permissions, which is 0644 when they are null, and its error, if any,
    is the one diagnostic. *)
Theorem DirectoryResource_Create_adopts {W : Type} `{SSH.RemoteHost W}
    (path : string) (planPermissions : option string) (st : SSH.St (W := W)) :
  (forall fi,
     SSH.sftp_Stat path st.1 = inr fi ->
     Provider.DirectoryResource_Create_directory path planPermissions st
     = ((st.1, st.2 ++ [SSH.EvStat path]), []))
  /\ (forall e,
        SSH.sftp_Stat path st.1 = inl e ->
        let mode := SSH.ParsePermissions (Provider.ValueString planPermissions) in
        (planPermissions = None -> mode = 420)
        /\ Provider.DirectoryResource_Create_directory path planPermissions st
           = match SSH.CreateDirectory path mode (st.1, st.2 ++ [SSH.EvStat path]) with
             | (st2, inl err) =>
                 (st2, [Provider.mkDiagnostic "Error creating directory"
                          ("Could not create directory: "
                           ++ Provider.errorString err)%string])
             | (st2, inr _) => (st2, [])
             end).
Proof.
  split.
  - intros fi Hstat. unfold Provider.DirectoryResource_Create_directory, SSH.Exists_.
    rewrite (Exists_Stat_ok path st fi Hstat). reflexivity.
  - intros e Hstat mode. split.
    { intros ->. reflexivity. }
    unfold Provider.DirectoryResource_Create_directory.
    rewrite (Exists__Stat_error path st e Hstat). reflexivity.
Qed.

Lemma DirectoryResource_Create_adopts_witness :
  Provider.DirectoryResource_Create_directory Toy.motd (Some "0755"%string) Toy.start
  = ((Toy.start.1, Toy.start.2 ++ [SSH.EvStat Toy.motd]), []).
Proof.
  assert (Hstat : SSH.sftp_Stat Toy.motd Toy.start.1 = inr (SSH.mkFileInfo 420)).
  { vm_compute. reflexivity. }
  exact (proj1 (DirectoryResource_Create_adopts Toy.motd (Some "0755"%string) Toy.start)
           (SSH.mkFileInfo 420) Hstat).
Defined.

(** ** ssh_client.go: CreateFile and Close *)

Section FileFacts.
Import SSH Files.
Context {W : Type} `{RemoteHost W} `{SftpFiles W} `{GoPath}.

Implicit Types (st : FSt (W := W)) (path : string).

Lemma lift_Exists__found path st fi :
  sftp_Stat path st.1 = inr fi ->
  lift (Exists_ path) st = ((st.1, st.2 ++ [EvBase (EvStat path)]), inr true).
Proof.
  intros Hstat. unfold lift, Exists_.
  rewrite (Exists_Stat_ok path (st.1, []) fi Hstat). reflexivity.
Qed.

Lemma lift_Exists__missing path st e :
  sftp_Stat path st.1 = inl e ->
  lift (Exists_ path) st = ((st.1, st.2 ++ [EvBase (EvStat path)]), inr false).
Proof.
  intros Hstat. unfold lift.
  rewrite (Exists__Stat_error path (st.1, []) e Hstat). reflexivity.
Qed.

Lemma removals_app (l1 l2 : list FileEvent) :
  More.removals (l1 ++ l2) = More.removals l1 ++ More.removals l2.
Proof. unfold More.removals. apply List.filter_app. Qed.

Lemma removals_map_EvBase (evs : list Event) : More.removals (map EvBase evs) = [].
Proof. induction evs as [| e evs IH]; [reflexivity | exact IH]. Qed.

Lemma lift_removals {A} (c : M A) st :
  More.removals (lift c st).1.2 = More.removals st.2.
Proof.
  unfold lift. destruct (c (st.1, [])) as [[w evs] r]. simpl.
  rewrite removals_app, removals_map_EvBase, app_nil_r. reflexivity.
Qed.

Lemma fbind_removals {A B} (c : FM A) (k : A -> FM B) st :
  More.removals (c st).1.2 = More.removals st.2 ->
  (forall a st', More.removals (k a st').1.2 = More.removals st'.2) ->
  More.removals (fbind c k st).1.2 = More.removals st.2.
Proof.
  intros Hc Hk. unfold fbind. destruct (c st) as [st' [e | a]]; simpl in *.
  - exact Hc.
  - rewrite Hk. exact Hc.
Qed.

Lemma fwrap_removals {A} msg (c : FM A) st :
  More.removals (fwrap msg c st).1.2 = More.removals (c st).1.2.
Proof. unfold fwrap. destruct (c st) as [st' [e | a]]; reflexivity. Qed.

(** The steps of CreateFile after the parent directory start by creating
    the file. *)
Lemma CreateFile_tail_starts path content (permissions : Z) st :
  exists rest,
    (fbind (fwrap "failed to create file" (Create path)) (fun _ =>
     fbind (fwrap "failed to write file content" (Write path content)) (fun _ =>
     fbind (fwrap "failed to set file permissions" (lift (Chmod path permissions)))
       (fun _ => fret tt))) st).1.2
    = st.2 ++ EvCreate path :: rest.
Proof.
  unfold fbind, fwrap, Create, Write, fret, lift, Chmod.
  destruct (sftp_Create path st.1) as [w1 [e1 |]]; simpl; [exists []; reflexivity |].
  destruct (file_Write path content w1) as [w2 [e2 |]]; simpl.
  { exists [EvWrite path content]. rewrite <- app_assoc. reflexivity. }
  destruct (sftp_Chmod path permissions w2) as [w3 [e3 |]]; simpl;
    exists [EvWrite path content; EvBase (EvChmod path permissions)];
    rewrite <- !app_assoc; reflexivity.
Qed.

End FileFacts.

(** X24.  CreateFile and the parent directory.  When Stat finds the parent,
    the next call is the creation of the file: the parent is not touched.
    When Stat of the parent fails, for whatever reason, CreateDirectory is
    called for the parent with 0755; if it fails, the call stops there
    with its error wrapped, having made no call but those of
    CreateDirectory, so the file is not created; if it succeeds, the next
    call is the creation of the file. *)
Theorem CreateFile_parent {W : Type} `{SSH.RemoteHost W} `{Files.SftpFiles W}
    `{Files.GoPath} (path content : string) (permissions : Z)
    (st : Files.FSt (W := W)) :
  let parentDir := Files.filepath_Dir path in
  let st1 : Files.FSt (W := W) :=
    (st.1, st.2 ++ [Files.EvBase (SSH.EvStat parentDir)]) in
  (forall fi,
     SSH.sftp_Stat parentDir st.1 = inr fi ->
     exists rest,
       (Files.CreateFile path content permissions st).1.2
       = st1.2 ++ Files.EvCreate path :: rest)
  /\ (forall e,
        SSH.sftp_Stat parentDir st.1 = inl e ->
        (forall st2 err,
           Files.lift (SSH.CreateDirectory parentDir 493) st1 = (st2, inl err) ->
           Files.CreateFile path content permissions st
           = (st2, inl (SSH.Errorw "failed to create parent directory" err))
           /\ exists evs, st2.2 = st1.2 ++ map Files.EvBase evs)
        /\ (forall st2 u,
              Files.lift (SSH.CreateDirectory parentDir 493) st1 = (st2, inr u) ->
              exists rest,
                (Files.CreateFile path content permissions st).1.2
                = st2.2 ++ Files.EvCreate path :: rest)).
Proof.
  intros parentDir st1. split.
  - intros fi Hstat. unfold Files.CreateFile. fold parentDir.
    unfold Files.fbind at 1. rewrite (lift_Exists__found parentDir st fi Hstat).
    cbn [negb]. unfold Files.fbind at 1. unfold Files.fret at 1. fold st1.
    exact (CreateFile_tail_starts path content permissions st1).
  - intros e Hstat.
    assert (Hex : Files.lift (SSH.Exists_ parentDir) st = (st1, inr false)).
    { exact (lift_Exists__missing parentDir st e Hstat). }
    split.
    + intros st2 err Hcd. split.
      * unfold Files.CreateFile. fold parentDir.
        unfold Files.fbind at 1. rewrite Hex. cbn [negb].
        unfold Files.fbind at 1. unfold Files.fwrap at 1. rewrite Hcd. reflexivity.
      * unfold Files.lift in Hcd.
        destruct (SSH.CreateDirectory parentDir 493 (st1.1, [])) as [[w evs] r].
        inversion Hcd; subst. exists evs. reflexivity.
    + intros st2 u Hcd. unfold Files.CreateFile. fold parentDir.
      unfold Files.fbind at 1. rewrite Hex. cbn [negb].
      unfold Files.fbind at 1. unfold Files.fwrap at 1. rewrite Hcd.
      exact (CreateFile_tail_starts path content permissions st2).
Qed.

Lemma CreateFile_parent_witness :
  exists rest,
    (Files.CreateFile "/etc/issue" "hello" 420 ToyFiles.start).1.2
    = (Files.lift (SSH.CreateDirectory "/etc" 493)
         (ToyFiles.start.1, ToyFiles.start.2 ++ [Files.EvBase (SSH.EvStat "/etc")])).1.2
      ++ Files.EvCreate "/etc/issue" :: rest.
Proof.
  assert (Hstat : SSH.sftp_Stat (Files.filepath_Dir "/etc/issue") ToyFiles.start.1
                  = inl SSH.ErrNotExist).
  { vm_compute. reflexivity. }
  assert (Hcd : Files.lift (SSH.CreateDirectory (Files.filepath_Dir "/etc/issue") 493)
                  (ToyFiles.start.1,
                   ToyFiles.start.2
                   ++ [Files.EvBase (SSH.EvStat (Files.filepath_Dir "/etc/issue"))])
                = ((Files.lift (SSH.CreateDirectory "/etc" 493)
                      (ToyFiles.start.1,
                       ToyFiles.start.2 ++ [Files.EvBase (SSH.EvStat "/etc")])).1,
                   inr tt)).
  { vm_compute. reflexivity. }
  exact (proj2 (proj2 (CreateFile_parent "/etc/issue" "hello" 420 ToyFiles.start)
                  SSH.ErrNotExist Hstat) _ tt Hcd).
Defined.

(** X25.  CreateFile never removes anything, so it does not roll back: when
    the file has been created and writing its content fails, the call
    returns the wrapped write error right after the write, with no chmod
    and no removal, and the file stays on the host as Create left it. *)
Theorem CreateFile_no_rollback {W : Type} `{SSH.RemoteHost W} `{Files.SftpFiles W}
    `{Files.GoPath} (path content : string) (permissions : Z)
    (st : Files.FSt (W := W)) :
  More.removals (Files.CreateFile path content permissions st).1.2 = More.removals st.2
  /\ (forall fi w1 w2 e,
        SSH.sftp_Stat (Files.filepath_Dir path) st.1 = inr fi ->
        Files.sftp_Create path st.1 = (w1, None) ->
        Files.file_Write path content w1 = (w2, Some e) ->
        Files.CreateFile path content permissions st
        = ((w2, st.2 ++ [Files.EvBase (SSH.EvStat (Files.filepath_Dir path));
                         Files.EvCreate path; Files.EvWrite path content]),
           inl (SSH.Errorw "failed to write file content" e))).
Proof.
  split.
  - unfold Files.CreateFile.
    apply fbind_removals; [apply lift_removals |]. intros ex st1.
    apply fbind_removals.
    { destruct ex; cbn [negb]; [reflexivity |].
      rewrite fwrap_removals. apply lift_removals. }
    intros _ st2. apply fbind_removals.
    { rewrite fwrap_removals. unfold Files.Create.
      destruct (Files.sftp_Create path st2.1) as [w r]. simpl.
      rewrite removals_app, app_nil_r. reflexivity. }
    intros _ st3. apply fbind_removals.
    { rewrite fwrap_removals. unfold Files.Write.
      destruct (Files.file_Write path content st3.1) as [w r]. simpl.
      rewrite removals_app, app_nil_r. reflexivity. }
    intros _ st4. apply fbind_removals.
    { rewrite fwrap_removals. apply lift_removals. }
    reflexivity.
  - intros fi w1 w2 e Hstat Hcr Hwr. unfold Files.CreateFile.
    unfold Files.fbind at 1.
    rewrite (lift_Exists__found (Files.filepath_Dir path) st fi Hstat).
    cbn [negb]. unfold Files.fbind, Files.fret, Files.fwrap, Files.Create, Files.Write.
    cbn [fst snd]. rewrite Hcr. cbn [SSH.ofOpt fst snd]. rewrite Hwr. cbn.
    rewrite <- !app_assoc. reflexivity.
Qed.

Lemma CreateFile_no_rollback_witness :
  (@Files.CreateFile _ Toy.host ToyFailing.files ToyFiles.paths
     "/d/f" "hello" 420 ToyFailing.withDir).2
  = inl (SSH.Errorw "failed to write file content"
           (SSH.LibError "no space left on device")).
Proof.
  assert (Hstat : @SSH.sftp_Stat _ Toy.host (Files.filepath_Dir "/d/f") ToyFailing.withDir.1
                  = inr (SSH.mkFileInfo (Toy.modeOf (true, 493)))).
  { vm_compute. reflexivity. }
  assert (Hcr : @Files.sftp_Create _ ToyFailing.files "/d/f" ToyFailing.withDir.1
                = ((@Files.sftp_Create _ ToyFailing.files "/d/f" ToyFailing.withDir.1).1,
                   None)).
  { reflexivity. }
  assert (Hwr : @Files.file_Write _ ToyFailing.files "/d/f" "hello"
                  (@Files.sftp_Create _ ToyFailing.files "/d/f" ToyFailing.withDir.1).1
                = ((@Files.sftp_Create _ ToyFailing.files "/d/f" ToyFailing.withDir.1).1,
                   Some (SSH.LibError "no space left on device"))).
  { reflexivity. }
  rewrite (proj2 (@CreateFile_no_rollback _ Toy.host ToyFailing.files ToyFiles.paths
                    "/d/f" "hello" 420 ToyFailing.withDir) _ _ _ _ Hstat Hcr Hwr).
  reflexivity.
Defined.

(** X26.  Close stops at the first failure: when closing the sftp client
    fails, Close returns that error, wrapped, and does not close the ssh
    connection; the ssh connection is closed only after the sftp client,
    if there is one, has been closed without error. *)
Theorem Close_stops_at_sftp_error {W : Type} `{Files.SftpFiles W}
    (hasSsh : bool) (st : Files.FSt (W := W)) :
  (forall w e,
     Files.sftpClient_Close st.1 = (w, Some e) ->
     Files.Close true hasSsh st
     = ((w, st.2 ++ [Files.EvSftpClose]),
        inl (SSH.Errorw "error closing SFTP client" e)))
  /\ (forall w,
        Files.sftpClient_Close st.1 = (w, None) ->
        Files.Close true true st
        = (((Files.sshClient_Close w).1, st.2 ++ [Files.EvSftpClose; Files.EvSshClose]),
           match (Files.sshClient_Close w).2 with
           | Some e => inl (SSH.Errorw "error closing SSH client" e)
           | None => inr tt
           end))
  /\ Files.Close false false st = (st, inr tt).
Proof.
  unfold Files.Close, Files.fbind, Files.fwrap, Files.SftpClose, Files.SshClose, Files.fret.
  split; [| split].
  - intros w e ->. reflexivity.
  - intros w ->. simpl. destruct (Files.sshClient_Close w) as [w2 [e |]]; simpl;
      rewrite <- app_assoc; reflexivity.
  - reflexivity.
Qed.

Lemma Close_stops_at_sftp_error_witness :
  (@Files.Close _ ToyFiles.files true true ToyFiles.start).1.2 = [Files.EvSftpClose].
Proof.
  assert (Hcl : @Files.sftpClient_Close _ ToyFiles.files ToyFiles.start.1
                = (Toy.world, Some (SSH.LibError "connection lost"))) by reflexivity.
  rewrite (proj1 (@Close_stops_at_sftp_error _ ToyFiles.files true ToyFiles.start)
             Toy.world _ Hcl).
  reflexivity.
Defined.
